(** * Social-account linking service: a shallow embedding and its properties

    The development follows [src/social_media/services/account_service.py]
    (class [AccountService]) and the two platform clients
    [tiktok_client.py] and [youtube_client.py].

    The asynchronous methods are embedded as computations in a state and
    exception monad.  The state is the SQLAlchemy session (the rows the
    session sees, the rows that are committed) together with a trace of
    observable events (log records, platform clients opened and closed).
    Everything the service reaches through a collaborator (the database
    driver, the HTTP transport of a client, the OAuth service, the
    cipher, the clock) is read from an environment record, so that every
    outcome of a collaborator, including an exception, is an input of the
    embedded method.

    Python [str] values are Rocq strings, one [ascii] per character. *)

From Stdlib Require Import ZArith String Ascii Bool Lia Sorted DecimalString.
From stdpp Require Import base option list strings.

Local Open Scope string_scope.
Local Open Scope Z_scope.

(** ** Exceptions and results *)

Inductive exn : Type :=
| ValueError (msg : string)
| PlatformAPIError (msg : string)
| OtherError (msg : string).

(** [str(exc)] *)
Definition str_exn (e : exn) : string :=
  match e with
  | ValueError m => m
  | PlatformAPIError m => m
  | OtherError m => m
  end.

Definition is_ValueError (e : exn) : bool :=
  match e with ValueError _ => true | _ => false end.

Inductive result (A : Type) : Type :=
| Ok (a : A)
| Raise (e : exn).
Arguments Ok {A} a.
Arguments Raise {A} e.

Definition is_Ok {A} (r : result A) : bool :=
  match r with Ok _ => true | Raise _ => false end.

(** ** JSON values, as returned by the HTTP transport *)

#[warnings="-register-all"]
Inductive json : Type :=
| JNull
| JBool (b : bool)
| JNum (n : Z)
| JStr (s : string)
| JArr (items : list json)
| JObj (fields : list (string * json)).

Fixpoint assoc (k : string) (l : list (string * json)) : option json :=
  match l with
  | [] => None
  | (k', v) :: l' => if String.eqb k k' then Some v else assoc k l'
  end.

(** [d.get(k, default)]; on a value that is not a dictionary the
    attribute lookup raises [AttributeError]. *)
Definition py_get_default (d : json) (k : string) (default : json) : result json :=
  match d with
  | JObj l => Ok (match assoc k l with Some v => v | None => default end)
  | _ => Raise (OtherError "AttributeError: object has no attribute 'get'")
  end.

(** [d.get(k)] *)
Definition py_get (d : json) (k : string) : result json :=
  py_get_default d k JNull.

(** Truth value of a Python object. *)
Definition truthy (v : json) : bool :=
  match v with
  | JNull => false
  | JBool b => b
  | JNum n => negb (n =? 0)
  | JStr s => negb (String.eqb s "")
  | JArr l => match l with [] => false | _ => true end
  | JObj l => match l with [] => false | _ => true end
  end.

(** [v[0]] *)
Definition py_item0 (v : json) : result json :=
  match v with
  | JArr (x :: _) => Ok x
  | JArr [] => Raise (OtherError "IndexError: list index out of range")
  | JStr (String c _) => Ok (JStr (String c ""))
  | JStr EmptyString => Raise (OtherError "IndexError: string index out of range")
  | JObj _ => Raise (OtherError "KeyError: 0")
  | _ => Raise (OtherError "TypeError: object is not subscriptable")
  end.

(** [v == s] for a string [s] *)
Definition py_eq_str (v : json) (s : string) : bool :=
  match v with
  | JStr s' => String.eqb s' s
  | _ => false
  end.

(** Truth value of an [Optional[str]]. *)
Definition truthy_opt (o : option string) : bool :=
  match o with
  | Some s => negb (String.eqb s "")
  | None => false
  end.

(** ** Strings *)

(** [c.lower()] for a character below code point 256, which is what the
    strings of this development hold: the capitals are [A]-[Z] (65-90)
    and the accented capitals 192-214 and 216-222, each 32 below its
    small letter; 215, the multiplication sign, has no case. *)
Definition lower_ascii (c : ascii) : ascii :=
  let n := nat_of_ascii c in
  if ((Nat.leb 65 n && Nat.leb n 90)
      || (Nat.leb 192 n && Nat.leb n 214)
      || (Nat.leb 216 n && Nat.leb n 222))%bool
  then ascii_of_nat (n + 32) else c.

(** [s.lower()] *)
Fixpoint lower (s : string) : string :=
  match s with
  | EmptyString => EmptyString
  | String c s' => String (lower_ascii c) (lower s')
  end.

(** [s[:n]] *)
Definition prefix_of (n : nat) (s : string) : string := substring 0 n s.

(** [sep.join(l)] *)
Fixpoint join (sep : string) (l : list string) : string :=
  match l with
  | [] => ""
  | [x] => x
  | x :: l' => x ++ sep ++ join sep l'
  end.

(** ** Platforms *)

(** Modelled from the spec: the enum [Platform] of
    [src/social_media/enums/platform_enums.py] is not among the sources;
    the spec fixes its values: facebook | instagram | twitter | tiktok |
    youtube. *)
Inductive Platform : Type := FACEBOOK | INSTAGRAM | TWITTER | TIKTOK | YOUTUBE.

Global Instance Platform_eq_dec : EqDecision Platform.
Proof. solve_decision. Defined.

(** [p.value] *)
Definition value (p : Platform) : string :=
  match p with
  | FACEBOOK => "facebook"
  | INSTAGRAM => "instagram"
  | TWITTER => "twitter"
  | TIKTOK => "tiktok"
  | YOUTUBE => "youtube"
  end.

(** [[p for p in Platform]] *)
Definition all_platforms : list Platform :=
  [FACEBOOK; INSTAGRAM; TWITTER; TIKTOK; YOUTUBE].

(** [Platform(s)]: the member whose value is [s], else [ValueError]. *)
Definition Platform_of (s : string) : result Platform :=
  match list_find (fun p => value p = s) all_platforms with
  | Some (_, p) => Ok p
  | None => Raise (ValueError ("'" ++ s ++ "' is not a valid Platform"))
  end.

(** ** The entity *)

Module SocialAccount.

(** The columns the service reads and writes.  [created_at] and
    [updated_at] are maintained by the mapper and are left out. *)
Record t : Type := mk {
  id : string;
  user_id : string;
  platform : string;
  account_id : string;
  username : option string;
  display_name : option string;
  access_token : string;
  refresh_token : option string;
  expires_at : option Z;
  scope : option string;
  is_verified : bool;
  last_verified_at : option Z;
}.

Definition set_id (v : string) (a : t) : t :=
  mk v (user_id a) (platform a) (account_id a) (username a) (display_name a)
     (access_token a) (refresh_token a) (expires_at a) (scope a)
     (is_verified a) (last_verified_at a).

Definition set_username (v : option string) (a : t) : t :=
  mk (id a) (user_id a) (platform a) (account_id a) v (display_name a)
     (access_token a) (refresh_token a) (expires_at a) (scope a)
     (is_verified a) (last_verified_at a).

Definition set_display_name (v : option string) (a : t) : t :=
  mk (id a) (user_id a) (platform a) (account_id a) (username a) v
     (access_token a) (refresh_token a) (expires_at a) (scope a)
     (is_verified a) (last_verified_at a).

Definition set_scope (v : option string) (a : t) : t :=
  mk (id a) (user_id a) (platform a) (account_id a) (username a) (display_name a)
     (access_token a) (refresh_token a) (expires_at a) v
     (is_verified a) (last_verified_at a).

Definition set_tokens (acc : string) (ref : option string) (exp : option Z) (a : t) : t :=
  mk (id a) (user_id a) (platform a) (account_id a) (username a) (display_name a)
     acc ref exp (scope a) (is_verified a) (last_verified_at a).

Definition set_verified (v : bool) (at_ : option Z) (a : t) : t :=
  mk (id a) (user_id a) (platform a) (account_id a) (username a) (display_name a)
     (access_token a) (refresh_token a) (expires_at a) (scope a) v at_.

(** The remote identity of a link. *)
Definition key (a : t) : string * string := (platform a, account_id a).

End SocialAccount.

Abbreviation account := SocialAccount.t.

(** ** Collaborators *)

(** Modelled from the spec: what [OAuthService.refresh_token] returns.
    [src/social_media/services/oauth_service.py] is not among the
    sources; the spec gives the shape
    [{access_token, refresh_token?, expires_at?}]. *)
Record TokenData : Type := {
  td_access_token : string;
  td_refresh_token : option string;
  td_expires_at : option Z;
}.

Inductive DbOp : Type := Execute | Commit | Refresh | Delete.

Global Instance DbOp_eq_dec : EqDecision DbOp.
Proof. solve_decision. Defined.

(** The outcome of every call that leaves the service.  A database call
    either goes through or raises a driver error with the given text. *)
Record Env : Type := {
  (** [datetime.utcnow()] *)
  utcnow : Z;
  (** the primary key the mapper gives to the next new row *)
  new_id : string;
  db_fault : DbOp -> option string;
  (** [SocialAccount.encrypt_token] and the decryption behind
      [get_access_token] and [get_refresh_token] *)
  encrypt_token : string -> string;
  decrypt_token : string -> result string;
  (** [get_platform_config(p).supports_refresh_token] *)
  supports_refresh_token : Platform -> bool;
  (** [OAuthService.refresh_token(platform, refresh_token, client_id, client_secret)] *)
  oauth_refresh_token : Platform -> string -> string -> string -> result TokenData;
  (** [OAuthService.revoke_token(platform, token, client_id, client_secret)] *)
  oauth_revoke_token : Platform -> string -> string -> string -> result unit;
  (** [BaseClient.get] and [BaseClient.post]: platform, access token,
      path, query parameters *)
  transport : Platform -> string -> string -> list (string * string) -> result json;
  (** [verify_account_ownership] and [get_user_profile] of the clients
      that are not among the sources (Facebook, Instagram, Twitter):
      platform, access token, claimed account id *)
  remote_ownership : Platform -> string -> string -> result bool;
  remote_profile : Platform -> string -> result json;
}.

(** ** The session and the trace *)

Inductive Level : Type := DEBUG | INFO | WARNING | ERROR.

Inductive Event : Type :=
| Log (lvl : Level) (msg : string)
| ClientCreated (p : Platform)
| ClientClosed (p : Platform).

(** [rows] is what the session sees (pending changes included),
    [committed] what the database holds; [trace] is newest first. *)
Record State : Type := {
  rows : list account;
  committed : list account;
  trace : list Event;
}.

Definition with_rows (l : list account) (s : State) : State :=
  {| rows := l; committed := committed s; trace := trace s |}.

(** ** The monad *)

Definition M (A : Type) : Type := Env -> State -> result A * State.

Definition ret {A} (a : A) : M A := fun _ s => (Ok a, s).

Definition bind {A B} (m : M A) (k : A -> M B) : M B :=
  fun env s =>
    match m env s with
    | (Ok a, s') => k a env s'
    | (Raise e, s') => (Raise e, s')
    end.

Definition raise {A} (e : exn) : M A := fun _ s => (Raise e, s).

(** a pure step that may raise *)
Definition lift {A} (r : result A) : M A := fun _ s => (r, s).

Definition ask : M Env := fun env s => (Ok env, s).

Declare Scope py_scope.
Delimit Scope py_scope with py.
Notation "x <- m ;; k" := (bind m (fun x => k))
  (at level 100, m at next level, right associativity) : py_scope.
Notation "m ;;; k" := (bind m (fun _ => k))
  (at level 100, k at level 200, right associativity) : py_scope.
Local Open Scope py_scope.

(** [try: m  except Exception as exc: h exc] *)
Definition try_except {A} (m : M A) (h : exn -> M A) : M A :=
  fun env s =>
    match m env s with
    | (Ok a, s') => (Ok a, s')
    | (Raise e, s') => h e env s'
    end.

(** [try: m  finally: fin] *)
Definition try_finally {A} (m : M A) (fin : M unit) : M A :=
  fun env s =>
    match m env s with
    | (r, s') =>
        match fin env s' with
        | (Ok _, s'') => (r, s'')
        | (Raise e, s'') => (Raise e, s'')
        end
    end.

Definition emit (e : Event) : M unit :=
  fun _ s => (Ok tt, {| rows := rows s; committed := committed s; trace := e :: trace s |}).

(** [logger.<lvl>(msg, extra=...)] *)
Definition log (lvl : Level) (msg : string) : M unit := emit (Log lvl msg).

(** ** The database session *)

Definition db_check (op : DbOp) : M unit :=
  fun env s =>
    match db_fault env op with
    | Some msg => (Raise (OtherError msg), s)
    | None => (Ok tt, s)
    end.

(** Positions of the rows that satisfy [P]. *)
Fixpoint positions_from (P : account -> bool) (n : nat) (l : list account) : list nat :=
  match l with
  | [] => []
  | a :: l' => if P a then n :: positions_from P (S n) l' else positions_from P (S n) l'
  end.

Definition positions (P : account -> bool) (l : list account) : list nat :=
  positions_from P 0 l.

(** [(await self.db.execute(select(SocialAccount).where(P))).scalars().all()];
    a loaded entity is the position of its row, so that a later
    assignment to it writes to that row. *)
Definition db_select_all (P : account -> bool) : M (list nat) :=
  db_check Execute ;;;
  fun _ s => (Ok (positions P (rows s)), s).

(** [... .scalars().first()] *)
Definition db_select_first (P : account -> bool) : M (option nat) :=
  l <- db_select_all P ;;
  ret (head l).

(** read the entity at a position *)
Definition load (i : nat) : M account :=
  fun _ s =>
    match rows s !! i with
    | Some a => (Ok a, s)
    | None => (Raise (OtherError "detached instance"), s)
    end.

(** assign to attributes of the entity at a position *)
Definition store (i : nat) (f : account -> account) : M unit :=
  fun _ s => (Ok tt, with_rows (alter f i (rows s)) s).

(** [self.db.add(account)]: the row becomes visible to the session and
    gets its primary key. *)
Definition db_add (a : account) : M nat :=
  fun env s =>
    (Ok (length (rows s)),
     with_rows (rows s ++ [SocialAccount.set_id (new_id env) a]) s).

(** [await self.db.delete(account)] *)
Definition db_delete (i : nat) : M unit :=
  db_check Delete ;;;
  fun _ s => (Ok tt, with_rows (delete i (rows s)) s).

(** [await self.db.commit()] *)
Definition db_commit : M unit :=
  db_check Commit ;;;
  fun _ s => (Ok tt, {| rows := rows s; committed := rows s; trace := trace s |}).

(** [await self.db.rollback()] *)
Definition db_rollback : M unit :=
  fun _ s => (Ok tt, {| rows := committed s; committed := committed s; trace := trace s |}).

(** [await self.db.refresh(account)] *)
Definition db_refresh (i : nat) : M unit := db_check Refresh.

(** ** Methods of the entity

    [src/social_media/models/social_account.py] is not among the sources. *)

(** Modelled from the spec: [SocialAccount.get_access_token] is not
    among the sources.  The spec has the token stored encrypted and
    decrypted just before use; decryption may raise. *)
Definition get_access_token (i : nat) : M string :=
  a <- load i ;;
  env <- ask ;;
  lift (decrypt_token env (SocialAccount.access_token a)).

(** Modelled from the spec: [SocialAccount.get_refresh_token] is not
    among the sources.  It is the same for the optional refresh token:
    [None] when none is stored. *)
Definition get_refresh_token (i : nat) : M (option string) :=
  a <- load i ;;
  env <- ask ;;
  match SocialAccount.refresh_token a with
  | None => ret None
  | Some c => t <- lift (decrypt_token env c) ;; ret (Some t)
  end.

(** Modelled from the spec: [SocialAccount.update_tokens] is not among the
    sources.  The spec has it overlay the credentials of the link (token
    rotation): the access token and, when one is given, the refresh
    token are stored encrypted, like [link_account] stores them for a
    new link, together with the expiry. *)
Definition update_tokens (i : nat) (access_token : string)
    (refresh_token : option string) (expires_at : option Z) : M unit :=
  env <- ask ;;
  store i (SocialAccount.set_tokens
             (encrypt_token env access_token)
             (if truthy_opt refresh_token
              then encrypt_token env <$> refresh_token else None)
             expires_at).

(** Modelled from the spec: [SocialAccount.mark_verified] is not among the
    sources.  The spec has it mark the link verified, stamping
    [last_verified_at]. *)
Definition mark_verified (i : nat) : M unit :=
  env <- ask ;;
  store i (SocialAccount.set_verified true (Some (utcnow env))).

(** ** More of Python's built-ins, as the clients use them *)

(** [len(v)]; only sized objects have a length. *)
Definition py_len (v : json) : result nat :=
  match v with
  | JArr l => Ok (length l)
  | JObj l => Ok (length l)
  | JStr s => Ok (String.length s)
  | _ => Raise (OtherError "TypeError: object has no len()")
  end.

Fixpoint chars (s : string) : list json :=
  match s with
  | EmptyString => []
  | String c s' => JStr (String c "") :: chars s'
  end.

(** The values [for item in v] ranges over: the items of a list, the
    keys of a dictionary, the characters of a string. *)
Definition py_iter (v : json) : result (list json) :=
  match v with
  | JArr l => Ok l
  | JObj l => Ok (JStr <$> l.*1)
  | JStr s => Ok (chars s)
  | _ => Raise (OtherError "TypeError: object is not iterable")
  end.

(** [any(item.get("id") == video_id for item in l)]: the generator is
    consumed up to the first hit, so that a later item is not looked at. *)
Fixpoint any_id (video_id : string) (l : list json) : result bool :=
  match l with
  | [] => Ok false
  | item :: l' =>
      match py_get item "id" with
      | Raise e => Raise e
      | Ok v => if py_eq_str v video_id then Ok true else any_id video_id l'
      end
  end.

(** [k in d] for a dictionary [d]. *)
Definition py_has_key (d : json) (k : string) : bool :=
  match d with
  | JObj l => bool_decide (is_Some (assoc k l))
  | _ => false
  end.

(** [s.lstrip(c)] for a single character [c]. *)
Fixpoint lstrip (c : ascii) (s : string) : string :=
  match s with
  | EmptyString => EmptyString
  | String c' s' => if Ascii.eqb c' c then lstrip c s' else s
  end.

(** [str(n)] for an [int]: its decimal numeral. *)
Definition str_int (n : Z) : string := NilZero.string_of_int (Z.to_int n).

(** ** Platform clients *)

Record Client : Type := { cl_platform : Platform; cl_token : string }.

(** Modelled from the spec: [BaseClient.close] (the base client is not
    among the sources) releases the transport of the client. *)
Definition close (c : Client) : M unit := emit (ClientClosed (cl_platform c)).

(** [BaseClient.get] and [BaseClient.post]: the parsed body of the
    response, or the exception of the transport, as the environment
    gives it. *)
Definition request (c : Client) (path : string) (params : list (string * string)) : M json :=
  fun env s => (transport env (cl_platform c) (cl_token c) path params, s).

Module TikTokClient.

Definition fields : string :=
  "open_id,union_id,avatar_url,display_name,bio_description,profile_deep_link,is_verified,follower_count,following_count,likes_count,video_count".

Definition get_user_profile (c : Client) (user_id : option string) : M json :=
  try_except
    (response <- request c "/user/info/" [("fields", fields)] ;;
     data <- lift (py_get_default response "data" (JObj [])) ;;
     user_data <- lift (py_get_default data "user" (JObj [])) ;;
     _ <- lift (py_get user_data "open_id") ;;
     _ <- lift (py_get user_data "display_name") ;;
     log INFO "TikTok user profile retrieved" ;;;
     ret response)
    (fun exc =>
       log ERROR "Failed to get TikTok user profile" ;;;
       raise (PlatformAPIError ("Failed to get user profile: " ++ str_exn exc))).

Definition verify_account_ownership (c : Client) (account_id : string) : M bool :=
  try_except
    (profile <- get_user_profile c None ;;
     data <- lift (py_get_default profile "data" (JObj [])) ;;
     user_data <- lift (py_get_default data "user" (JObj [])) ;;
     open_id <- lift (py_get user_data "open_id") ;;
     let is_owner := py_eq_str open_id account_id in
     log INFO "TikTok account ownership verification" ;;;
     ret is_owner)
    (fun exc =>
       log ERROR "Failed to verify TikTok account ownership" ;;;
       ret false).



Definition video_fields : string :=
  "id,create_time,cover_image_url,share_url,video_description,duration,title,like_count,comment_count,share_count,view_count".

(** The integers of the request body are passed on as decimal
    numerals. *)
Definition get_user_videos (c : Client) (max_count : Z) (cursor : option Z) : M json :=
  try_except
    (let request_body :=
       ([("fields", video_fields); ("max_count", str_int (Z.min max_count 20))]
        ++ match cursor with
           | Some n => if n =? 0 then [] else [("cursor", str_int n)]
           | None => []
           end)%list in
     response <- request c "/video/list/" request_body ;;
     data <- lift (py_get_default response "data" (JObj [])) ;;
     videos <- lift (py_get_default data "videos" (JArr [])) ;;
     _ <- lift (py_len videos) ;;
     data' <- lift (py_get_default response "data" (JObj [])) ;;
     _ <- lift (py_get_default data' "has_more" (JBool false)) ;;
     log INFO "TikTok videos retrieved" ;;;
     ret response)
    (fun exc =>
       log ERROR "Failed to get TikTok videos" ;;;
       raise (PlatformAPIError ("Failed to get videos: " ++ str_exn exc))).

(** The list [filters.video_ids] of the request body is passed on item
    by item, in its order. *)
Definition get_video_info (c : Client) (video_ids : list string) : M json :=
  try_except
    (video_ids <-
       (if Nat.ltb 20 (length video_ids)
        then
          log WARNING "TikTok video query limit exceeded, truncating to 20" ;;;
          ret (take 20 video_ids)
        else ret video_ids) ;;
     response <- request c "/video/query/"
                   (((fun i => ("filters.video_ids", i)) <$> video_ids)
                    ++ [("fields", video_fields)])%list ;;
     data <- lift (py_get_default response "data" (JObj [])) ;;
     videos <- lift (py_get_default data "videos" (JArr [])) ;;
     _ <- lift (py_len videos) ;;
     log INFO "TikTok video info retrieved" ;;;
     ret response)
    (fun exc =>
       log ERROR "Failed to get TikTok video info" ;;;
       raise (PlatformAPIError ("Failed to get video info: " ++ str_exn exc))).

Definition get_follower_count (c : Client) : M json :=
  try_except
    (profile <- get_user_profile c None ;;
     data <- lift (py_get_default profile "data" (JObj [])) ;;
     user_data <- lift (py_get_default data "user" (JObj [])) ;;
     follower_count <- lift (py_get_default user_data "follower_count" (JNum 0)) ;;
     log INFO "TikTok follower count retrieved" ;;;
     ret follower_count)
    (fun exc =>
       log ERROR "Failed to get TikTok follower count" ;;;
       raise (PlatformAPIError ("Failed to get follower count: " ++ str_exn exc))).


End TikTokClient.

Module YouTubeClient.

Definition get_user_profile (c : Client) (user_id : option string) : M json :=
  try_except
    (let params :=
       ("part", "snippet,statistics,contentDetails,brandingSettings")
       :: (if truthy_opt user_id
           then [("id", default "" user_id)]
           else [("mine", "true")]) in
     response <- request c "/channels" params ;;
     items <- lift (py_get_default response "items" (JArr [])) ;;
     (if truthy items
      then
        channel_data <- lift (py_item0 items) ;;
        snippet <- lift (py_get_default channel_data "snippet" (JObj [])) ;;
        _ <- lift (py_get channel_data "id") ;;
        _ <- lift (py_get snippet "title") ;;
        log INFO "YouTube channel profile retrieved"
      else ret tt) ;;;
     ret response)
    (fun exc =>
       log ERROR "Failed to get YouTube channel profile" ;;;
       raise (PlatformAPIError ("Failed to get channel profile: " ++ str_exn exc))).

Definition verify_account_ownership (c : Client) (account_id : string) : M bool :=
  try_except
    (profile <- get_user_profile c None ;;
     items <- lift (py_get_default profile "items" (JArr [])) ;;
     if negb (truthy items)
     then
       log WARNING "No channel found for authenticated user" ;;;
       ret false
     else
       item <- lift (py_item0 items) ;;
       channel_id <- lift (py_get item "id") ;;
       let is_owner := py_eq_str channel_id account_id in
       log INFO "YouTube account ownership verification" ;;;
       ret is_owner)
    (fun exc =>
       log ERROR "Failed to verify YouTube account ownership" ;;;
       ret false).


Section StatusCode.

(** [exc.status_code] of a [PlatformAPIError]: the base client is not
    among the sources, and the attribute is read off the exception by a
    function the methods are given. *)
Variable status_code : exn -> option Z.

Definition is_404 (exc : exn) : bool :=
  match status_code exc with
  | Some n => n =? 404
  | None => false
  end.

Definition verify_subscription (c : Client) (target_channel_id : string) : M bool :=
  try_except
    (response <- request c "/subscriptions"
                   [("part", "snippet"); ("forChannelId", target_channel_id);
                    ("mine", "true")] ;;
     items <- lift (py_get_default response "items" (JArr [])) ;;
     n <- lift (py_len items) ;;
     let is_subscribed := Nat.ltb 0 n in
     log INFO "YouTube subscription verification" ;;;
     ret is_subscribed)
    (fun exc =>
       match exc with
       | PlatformAPIError _ =>
           if is_404 exc
           then
             log INFO "User not subscribed to channel" ;;;
             ret false
           else
             log ERROR "Failed to verify YouTube subscription" ;;;
             raise exc
       | _ => raise exc
       end).

Definition verify_like (c : Client) (video_id : string) : M bool :=
  try_except
    (response <- request c "/videos"
                   [("part", "snippet"); ("myRating", "like");
                    ("maxResults", str_int 50)] ;;
     items <- lift (py_get_default response "items" (JArr [])) ;;
     l <- lift (py_iter items) ;;
     has_liked <- lift (any_id video_id l) ;;
     (if negb has_liked && py_has_key response "nextPageToken"
      then log INFO "Video not found in liked videos (first page only checked)"
      else ret tt) ;;;
     log INFO "YouTube like verification" ;;;
     ret has_liked)
    (fun exc =>
       match exc with
       | PlatformAPIError _ =>
           if is_404 exc
           then
             log INFO "Video not liked by user" ;;;
             ret false
           else
             log ERROR "Failed to verify YouTube like" ;;;
             raise exc
       | _ => raise exc
       end).

End StatusCode.

Definition get_video_info (c : Client) (video_ids : list string) : M json :=
  try_except
    (video_ids <-
       (if Nat.ltb 50 (length video_ids)
        then
          log WARNING "YouTube video query limit exceeded, truncating to 50" ;;;
          ret (take 50 video_ids)
        else ret video_ids) ;;
     response <- request c "/videos"
                   [("part", "snippet,statistics,contentDetails");
                    ("id", join "," video_ids)] ;;
     items <- lift (py_get_default response "items" (JArr [])) ;;
     _ <- lift (py_len items) ;;
     log INFO "YouTube video info retrieved" ;;;
     ret response)
    (fun exc =>
       log ERROR "Failed to get YouTube video info" ;;;
       raise (PlatformAPIError ("Failed to get video info: " ++ str_exn exc))).

Definition get_channel_by_username (c : Client) (username : string) : M json :=
  try_except
    (let clean_username := lstrip "@" username in
     response <- request c "/channels"
                   [("part", "snippet,statistics,contentDetails");
                    ("forHandle", clean_username)] ;;
     items <- lift (py_get_default response "items" (JArr [])) ;;
     (if truthy items
      then
        item <- lift (py_item0 items) ;;
        _ <- lift (py_get item "id") ;;
        log INFO "YouTube channel found by username"
      else log WARNING "YouTube channel not found by username") ;;;
     ret response)
    (fun exc =>
       log ERROR "Failed to get YouTube channel by username" ;;;
       raise (PlatformAPIError ("Failed to get channel: " ++ str_exn exc))).

End YouTubeClient.

(** The method a client object answers with depends on its class; the
    Facebook, Instagram and Twitter clients are collaborators. *)
Definition client_verify_account_ownership (c : Client) (account_id : string) : M bool :=
  match cl_platform c with
  | TIKTOK => TikTokClient.verify_account_ownership c account_id
  | YOUTUBE => YouTubeClient.verify_account_ownership c account_id
  | p => fun env s => (remote_ownership env p (cl_token c) account_id, s)
  end.

Definition client_get_user_profile (c : Client) : M json :=
  match cl_platform c with
  | TIKTOK => TikTokClient.get_user_profile c None
  | YOUTUBE => YouTubeClient.get_user_profile c None
  | p => fun env s => (remote_profile env p (cl_token c), s)
  end.

(** ** The account service *)

Record Stats : Type := { success : nat; failed : nat; skipped : nat }.

Module AccountService.

(** The handlers that close every public method:
    [except ValueError: raise] and
    [except Exception as exc: await self.db.rollback(); logger.error(...);
     raise ValueError(prefix + str(exc)) from exc]. *)
Definition on_error {A} (log_msg prefix : string) (exc : exn) : M A :=
  if is_ValueError exc then raise exc
  else
    db_rollback ;;;
    log ERROR log_msg ;;;
    raise (ValueError (prefix ++ str_exn exc)).

Definition _check_duplicate_account (platform : Platform)
    (account_id user_id : string) : M (option nat) :=
  db_select_first (fun a =>
    String.eqb (SocialAccount.platform a) (value platform)
    && String.eqb (SocialAccount.account_id a) account_id).

Definition _get_account_by_id (account_id : string) : M (option nat) :=
  db_select_first (fun a => String.eqb (SocialAccount.id a) account_id).

Definition _create_platform_client (platform : Platform)
    (access_token : string) : M (option Client) :=
  let c := {| cl_platform := platform; cl_token := access_token |} in
  match platform with
  | FACEBOOK => emit (ClientCreated FACEBOOK) ;;; ret (Some c)
  | INSTAGRAM => emit (ClientCreated INSTAGRAM) ;;; ret (Some c)
  | TWITTER => emit (ClientCreated TWITTER) ;;; ret (Some c)
  | TIKTOK =>
      emit (ClientCreated TIKTOK) ;;;
      log INFO "TikTok client initialized" ;;;
      ret (Some c)
  | YOUTUBE =>
      emit (ClientCreated YOUTUBE) ;;;
      log INFO "YouTube client initialized" ;;;
      ret (Some c)
  end.

Definition link_account (user_id : string) (platform : Platform)
    (account_id access_token : string) (refresh_token : option string)
    (expires_at : option Z) (scope username display_name : option string)
    : M account :=
  try_except
    (existing <- _check_duplicate_account platform account_id user_id ;;
     match existing with
     | Some i =>
         e <- load i ;;
         if negb (String.eqb (SocialAccount.user_id e) user_id)
         then
           log ERROR "Account already linked to different user" ;;;
           raise (ValueError ("Account " ++ account_id ++ " on " ++ value platform
                              ++ " is already linked to another user"))
         else
           log INFO "Updating existing account link" ;;;
           update_tokens i access_token refresh_token expires_at ;;;
           store i (SocialAccount.set_scope scope) ;;;
           store i (SocialAccount.set_username username) ;;;
           store i (SocialAccount.set_display_name display_name) ;;;
           db_commit ;;;
           db_refresh i ;;;
           log INFO "Account link updated successfully" ;;;
           load i
     | None =>
         env <- ask ;;
         let encrypted_access_token := encrypt_token env access_token in
         let encrypted_refresh_token :=
           if truthy_opt refresh_token
           then encrypt_token env <$> refresh_token else None in
         let account :=
           SocialAccount.mk "" user_id (value platform) account_id
             username display_name
             encrypted_access_token encrypted_refresh_token expires_at scope
             false None in
         i <- db_add account ;;
         db_commit ;;;
         db_refresh i ;;;
         log INFO "Account linked successfully" ;;;
         load i
     end)
    (on_error "Failed to link account" "Failed to link account: ").

Definition verify_account (account_id client_id client_secret : string) : M bool :=
  try_except
    (found <- _get_account_by_id account_id ;;
     match found with
     | None =>
         log ERROR "Account not found for verification" ;;;
         raise (ValueError ("Account " ++ account_id ++ " not found"))
     | Some i =>
         account <- load i ;;
         platform <- lift (Platform_of (SocialAccount.platform account)) ;;
         access_token <- get_access_token i ;;
         client <- _create_platform_client platform access_token ;;
         match client with
         | None =>
             log ERROR "Failed to create platform client for verification" ;;;
             raise (ValueError ("Unsupported platform: " ++ value platform))
         | Some client =>
             is_verified <- client_verify_account_ownership client
                              (SocialAccount.account_id account) ;;
             (if is_verified : bool
              then
                mark_verified i ;;;
                db_commit ;;;
                log INFO "Account verified successfully"
              else
                log WARNING "Account verification failed") ;;;
             close client ;;;
             ret is_verified
         end
     end)
    (on_error "Failed to verify account" "Failed to verify account: ").

Definition unlink_account (account_id user_id : string)
    (client_id client_secret : option string) (revoke_token : bool) : M bool :=
  try_except
    (found <- _get_account_by_id account_id ;;
     match found with
     | None =>
         log ERROR "Account not found for unlinking" ;;;
         raise (ValueError ("Account " ++ account_id ++ " not found"))
     | Some i =>
         account <- load i ;;
         if negb (String.eqb (SocialAccount.user_id account) user_id)
         then
           log ERROR "Unauthorized account unlink attempt" ;;;
           raise (ValueError "Unauthorized: Account belongs to different user")
         else
           (if revoke_token && truthy_opt client_id && truthy_opt client_secret
            then
              try_except
                (platform <- lift (Platform_of (SocialAccount.platform account)) ;;
                 access_token <- get_access_token i ;;
                 env <- ask ;;
                 lift (oauth_revoke_token env platform access_token
                         (default "" client_id) (default "" client_secret)) ;;;
                 log INFO "OAuth token revoked")
                (fun exc => log WARNING "Failed to revoke OAuth token")
            else ret tt) ;;;
           db_delete i ;;;
           db_commit ;;;
           log INFO "Account unlinked successfully" ;;;
           ret true
     end)
    (on_error "Failed to unlink account" "Failed to unlink account: ").

Definition disconnect_account (user_id platform : string) : M account :=
  try_except
    (let platform_lower := lower platform in
     found <- db_select_first (fun a =>
                String.eqb (SocialAccount.user_id a) user_id
                && String.eqb (SocialAccount.platform a) platform_lower) ;;
     match found with
     | None =>
         log ERROR "Account not found for disconnection" ;;;
         raise (ValueError ("No " ++ platform ++ " account found for user"))
     | Some i =>
         account_copy <- load i ;;
         db_delete i ;;;
         db_commit ;;;
         log INFO "Account disconnected successfully" ;;;
         ret account_copy
     end)
    (on_error "Failed to disconnect account" "Failed to disconnect account: ").

Definition get_user_accounts (user_id : string) (platform : option Platform)
    (verified_only : bool) : M (list nat) :=
  try_except
    (accounts <- db_select_all (fun a =>
                   String.eqb (SocialAccount.user_id a) user_id
                   && match platform with
                      | Some p => String.eqb (SocialAccount.platform a) (value p)
                      | None => true
                      end
                   && (if verified_only then SocialAccount.is_verified a else true)) ;;
     log INFO "Retrieved user accounts" ;;;
     ret accounts)
    (fun exc =>
       log ERROR "Failed to get user accounts" ;;;
       raise (ValueError ("Failed to get user accounts: " ++ str_exn exc))).

Definition link_manual_account (user_id platform username : string) : M account :=
  try_except
    (let platform_lower := lower platform in
     match Platform_of platform_lower with
     | Raise _ =>
         let valid_platforms := join ", " (value <$> all_platforms) in
         raise (ValueError ("Invalid platform: " ++ platform
                            ++ ". Valid: " ++ valid_platforms))
     | Ok platform_enum =>
         existing <- get_user_accounts user_id (Some platform_enum) false ;;
         match existing with
         | _ :: _ =>
             log WARNING "Account already exists for platform" ;;;
             raise (ValueError ("A " ++ platform ++ " account is already connected"))
         | [] =>
             env <- ask ;;
             let placeholder_token := encrypt_token env "manual_link_placeholder" in
             let account :=
               SocialAccount.mk "" user_id platform_lower
                 ("manual_" ++ username ++ "_" ++ prefix_of 8 user_id)
                 (Some username) (Some username)
                 placeholder_token None None None false None in
             i <- db_add account ;;
             db_commit ;;;
             db_refresh i ;;;
             log INFO "Manual account linked successfully" ;;;
             load i
         end
     end)
    (on_error "Failed to link manual account" "Failed to link account: ").

(** Points in time are microseconds since the epoch.  [datetime.min] is
    0001-01-01 00:00:00 and [datetime.max] is 9999-12-31
    23:59:59.999999. *)
Definition datetime_min : Z := -62135596800000000.
Definition datetime_max : Z := 253402300799999999.

(** [timedelta(hours=h)], in microseconds.  A duration holds at most
    999999999 days in magnitude; beyond, the constructor raises
    [OverflowError], with one text when the number of days fits a C
    [int] and another when it does not. *)
Definition timedelta_hours (h : Z) : result Z :=
  let days := h / 24 in
  if (-999999999 <=? days) && (days <=? 999999999)
  then Ok (h * 3600000000)
  else if (-2147483648 <=? days) && (days <=? 2147483647)
  then Raise (OtherError ("days=" ++ str_int days
                          ++ "; must have magnitude <= 999999999"))
  else Raise (OtherError "Python int too large to convert to C int").

(** [d + delta] for a [datetime] [d]: [OverflowError] when the sum is not
    a date of the years 1 to 9999. *)
Definition datetime_add (d delta : Z) : result Z :=
  let t := d + delta in
  if (datetime_min <=? t) && (t <=? datetime_max)
  then Ok t
  else Raise (OtherError "date value out of range").

(** the rows the batch selects: expiry set and within the horizon,
    refresh token present *)
Definition due (threshold : Z) (a : account) : bool :=
  match SocialAccount.expires_at a with
  | Some t => (t <=? threshold) && bool_decide (is_Some (SocialAccount.refresh_token a))
  | None => false
  end.

Definition bump_success (st : Stats) : Stats :=
  {| success := S (success st); failed := failed st; skipped := skipped st |}.
Definition bump_failed (st : Stats) : Stats :=
  {| success := success st; failed := S (failed st); skipped := skipped st |}.
Definition bump_skipped (st : Stats) : Stats :=
  {| success := success st; failed := failed st; skipped := S (skipped st) |}.

(** the [try] block of the body of the [for account in accounts] loop:
    what is done for one candidate *)
Definition refresh_try (client_id client_secret : string) (i : nat)
    (stats : Stats) : M Stats :=
  account <- load i ;;
  platform <- lift (Platform_of (SocialAccount.platform account)) ;;
  env <- ask ;;
  if negb (supports_refresh_token env platform)
  then ret (bump_skipped stats)
  else
    refresh_token <- get_refresh_token i ;;
    if negb (truthy_opt refresh_token)
    then ret (bump_skipped stats)
    else
      let refresh_token := default "" refresh_token in
      token_data <- lift (oauth_refresh_token env platform refresh_token
                            client_id client_secret) ;;
      update_tokens i
        (td_access_token token_data)
        (Some (default refresh_token (td_refresh_token token_data)))
        (td_expires_at token_data) ;;;
      log INFO "Token refreshed" ;;;
      ret (bump_success stats).

(** the body of the [for account in accounts] loop: the [try] block and
    its [except Exception] *)
Definition refresh_one (client_id client_secret : string) (i : nat)
    (stats : Stats) : M Stats :=
  try_except
    (refresh_try client_id client_secret i stats)
    (fun exc =>
       log ERROR "Failed to refresh token" ;;;
       ret (bump_failed stats)).

Fixpoint refresh_loop (client_id client_secret : string) (accounts : list nat)
    (stats : Stats) : M Stats :=
  match accounts with
  | [] => ret stats
  | i :: rest =>
      stats' <- refresh_one client_id client_secret i stats ;;
      refresh_loop client_id client_secret rest stats'
  end.

Definition refresh_all_tokens (client_id client_secret : string)
    (hours_before_expiry : Z) : M Stats :=
  try_except
    (env <- ask ;;
     delta <- lift (timedelta_hours hours_before_expiry) ;;
     threshold <- lift (datetime_add (utcnow env) delta) ;;
     accounts <- db_select_all (due threshold) ;;
     let stats := {| success := 0; failed := 0; skipped := 0 |} in
     stats <- refresh_loop client_id client_secret accounts stats ;;
     db_commit ;;;
     log INFO "Token refresh batch completed" ;;;
     ret stats)
    (fun exc =>
       db_rollback ;;;
       log ERROR "Failed to refresh tokens" ;;;
       raise (ValueError ("Failed to refresh tokens: " ++ str_exn exc))).

(** Assignment to a text column.  The profile is whatever the provider
    sent; a value that is not text is refused when it is written. *)
Definition column_text (v : json) : result string :=
  match v with
  | JStr s => Ok s
  | _ => Raise (OtherError "StatementError: expected str")
  end.

Definition refresh_account (user_id : string) (platform : Platform) : M account :=
  try_except
    (accounts <- get_user_accounts user_id (Some platform) false ;;
     match accounts with
     | [] =>
         log ERROR "Account not found for refresh" ;;;
         raise (ValueError ("No " ++ value platform ++ " account found for user"))
     | i :: _ =>
         access_token <- get_access_token i ;;
         client <- _create_platform_client platform access_token ;;
         match client with
         | None =>
             log ERROR "Failed to create platform client for refresh" ;;;
             raise (ValueError ("Unsupported platform: " ++ value platform))
         | Some client =>
             try_finally
               (profile_data <- client_get_user_profile client ;;
                username <- lift (py_get profile_data "username") ;;
                (if truthy username
                 then
                   v <- lift (column_text username) ;;
                   store i (SocialAccount.set_username (Some v))
                 else ret tt) ;;;
                name <- lift (py_get profile_data "name") ;;
                display_name <- (if truthy name then ret name
                                 else lift (py_get profile_data "display_name")) ;;
                (if truthy display_name
                 then
                   v <- lift (column_text display_name) ;;
                   store i (SocialAccount.set_display_name (Some v))
                 else ret tt) ;;;
                db_commit ;;;
                db_refresh i ;;;
                log INFO "Account refreshed successfully" ;;;
                load i)
               (close client)
         end
     end)
    (on_error "Failed to refresh account" "Failed to refresh account: ").

End AccountService.

(** ** Running a method *)

Definition run {A} (m : M A) (env : Env) (s : State) : result A * State := m env s.
Definition outcome {A} (m : M A) (env : Env) (s : State) : result A := fst (m env s).
Definition after {A} (m : M A) (env : Env) (s : State) : State := snd (m env s).

(** ** Properties of states and runs *)

(** Every run of [m] takes a state to an [R]-related one. *)
Definition respects (R : State -> State -> Prop) {A} (m : M A) : Prop :=
  forall env s, R s (after m env s).

(** At most one link per remote identity [(platform, account_id)]. *)
Definition unique_links (l : list account) : Prop :=
  NoDup (SocialAccount.key <$> l).

Definition links_unique (s : State) : Prop :=
  unique_links (rows s) /\ unique_links (committed s).

Definition keeps_unique (s s' : State) : Prop :=
  links_unique s -> links_unique s'.

(** The links of a triple [(user, platform, account_id)]. *)
Definition links_of (user_id platform account_id : string) (l : list account)
    : list account :=
  filter (fun a => SocialAccount.user_id a = user_id
                   /\ SocialAccount.key a = (platform, account_id)) l.

(** Who a link belongs to and whether it is verified. *)
Definition badge (a : account) : string * string * string * string * bool :=
  (SocialAccount.id a, SocialAccount.user_id a, SocialAccount.platform a,
   SocialAccount.account_id a, SocialAccount.is_verified a).

Definition badges (s : State) : list (string * string * string * string * bool) :=
  (badge <$> rows s) ++ (badge <$> committed s).

(** No link is verified after that was not verified before. *)
Definition no_new_verified (s s' : State) : Prop :=
  forall x, x.2 = true -> x ∈ badges s' -> x ∈ badges s.

(** Platform clients opened and closed so far. *)
Fixpoint opened (t : list Event) : nat :=
  match t with
  | [] => 0
  | ClientCreated _ :: t' => S (opened t')
  | _ :: t' => opened t'
  end.

Fixpoint closed (t : list Event) : nat :=
  match t with
  | [] => 0
  | ClientClosed _ :: t' => S (closed t')
  | _ :: t' => closed t'
  end.

(** The clients a run leaves open are those that were open before it. *)
Definition clients_balanced (s s' : State) : Prop :=
  (opened (trace s') + closed (trace s) = opened (trace s) + closed (trace s'))%nat.

(** The call to the OAuth service that the batch makes for a candidate
    whose platform is known and supports refresh and whose refresh token
    decrypts. *)
Definition provider_call (env : Env) (client_id client_secret : string)
    (a : account) : result TokenData :=
  match Platform_of (SocialAccount.platform a), SocialAccount.refresh_token a with
  | Ok p, Some c =>
      match decrypt_token env c with
      | Ok rt => oauth_refresh_token env p rt client_id client_secret
      | Raise e => Raise e
      end
  | Raise e, _ => Raise e
  | _, None => Raise (OtherError "no refresh token")
  end.

(** A candidate the batch does not skip. *)
Definition refreshable (env : Env) (a : account) : Prop :=
  exists p c rt,
    Platform_of (SocialAccount.platform a) = Ok p
    /\ supports_refresh_token env p = true
    /\ SocialAccount.refresh_token a = Some c
    /\ decrypt_token env c = Ok rt
    /\ rt <> "".

(** What a successful refresh writes to a candidate. *)
Definition refreshed (env : Env) (td : TokenData) (a : account) : account :=
  SocialAccount.set_tokens
    (encrypt_token env (td_access_token td))
    (match td_refresh_token td with
     | Some r => if truthy_opt (Some r) then Some (encrypt_token env r) else None
     | None =>
         match SocialAccount.refresh_token a with
         | Some c =>
             match decrypt_token env c with
             | Ok rt => Some (encrypt_token env rt)
             | Raise _ => None
             end
         | None => None
         end
     end)
    (td_expires_at td) a.

(** ** Concrete collaborators and stores *)

Definition empty_store : State := {| rows := []; committed := []; trace := [] |}.

(** A toy cipher, a database without faults, providers that answer. *)
Definition env_ok : Env := {|
  utcnow := 1000;
  new_id := "id-1";
  db_fault := fun _ => None;
  encrypt_token := fun s => "enc:" ++ s;
  decrypt_token := fun s => Ok (substring 4 (String.length s) s);
  supports_refresh_token := fun _ => true;
  oauth_refresh_token := fun _ r _ _ =>
    Ok {| td_access_token := "new-" ++ r; td_refresh_token := None;
          td_expires_at := Some 5000 |};
  oauth_revoke_token := fun _ _ _ _ => Ok tt;
  transport := fun _ _ _ _ => Ok (JObj []);
  remote_ownership := fun _ _ _ => Ok true;
  remote_profile := fun _ _ => Ok (JObj [("username", JStr "neo")]);
|}.

Definition with_new_id (id : string) (env : Env) : Env := {|
  utcnow := utcnow env; new_id := id; db_fault := db_fault env;
  encrypt_token := encrypt_token env; decrypt_token := decrypt_token env;
  supports_refresh_token := supports_refresh_token env;
  oauth_refresh_token := oauth_refresh_token env;
  oauth_revoke_token := oauth_revoke_token env;
  transport := transport env;
  remote_ownership := remote_ownership env;
  remote_profile := remote_profile env;
|}.

Definition with_db_fault (f : DbOp -> option string) (env : Env) : Env := {|
  utcnow := utcnow env; new_id := new_id env; db_fault := f;
  encrypt_token := encrypt_token env; decrypt_token := decrypt_token env;
  supports_refresh_token := supports_refresh_token env;
  oauth_refresh_token := oauth_refresh_token env;
  oauth_revoke_token := oauth_revoke_token env;
  transport := transport env;
  remote_ownership := remote_ownership env;
  remote_profile := remote_profile env;
|}.

Definition with_transport
    (f : Platform -> string -> string -> list (string * string) -> result json)
    (env : Env) : Env := {|
  utcnow := utcnow env; new_id := new_id env; db_fault := db_fault env;
  encrypt_token := encrypt_token env; decrypt_token := decrypt_token env;
  supports_refresh_token := supports_refresh_token env;
  oauth_refresh_token := oauth_refresh_token env;
  oauth_revoke_token := oauth_revoke_token env;
  transport := f;
  remote_ownership := remote_ownership env;
  remote_profile := remote_profile env;
|}.

Definition with_ownership (f : Platform -> string -> string -> result bool)
    (env : Env) : Env := {|
  utcnow := utcnow env; new_id := new_id env; db_fault := db_fault env;
  encrypt_token := encrypt_token env; decrypt_token := decrypt_token env;
  supports_refresh_token := supports_refresh_token env;
  oauth_refresh_token := oauth_refresh_token env;
  oauth_revoke_token := oauth_revoke_token env;
  transport := transport env;
  remote_ownership := f;
  remote_profile := remote_profile env;
|}.

Definition with_revoke
    (f : Platform -> string -> string -> string -> result unit)
    (env : Env) : Env := {|
  utcnow := utcnow env; new_id := new_id env; db_fault := db_fault env;
  encrypt_token := encrypt_token env; decrypt_token := decrypt_token env;
  supports_refresh_token := supports_refresh_token env;
  oauth_refresh_token := oauth_refresh_token env;
  oauth_revoke_token := f;
  transport := transport env;
  remote_ownership := remote_ownership env;
  remote_profile := remote_profile env;
|}.

Definition with_refresh
    (f : Platform -> string -> string -> string -> result TokenData)
    (env : Env) : Env := {|
  utcnow := utcnow env; new_id := new_id env; db_fault := db_fault env;
  encrypt_token := encrypt_token env; decrypt_token := decrypt_token env;
  supports_refresh_token := supports_refresh_token env;
  oauth_refresh_token := f;
  oauth_revoke_token := oauth_revoke_token env;
  transport := transport env;
  remote_ownership := remote_ownership env;
  remote_profile := remote_profile env;
|}.

(** The commit fails, everything else goes through. *)
Definition commit_fails : DbOp -> option string :=
  fun op => match op with Commit => Some "connection lost" | _ => None end.

(** A store holding one link of user [u1] to the Twitter account [acct_1]. *)
Definition twitter_store : State :=
  after (AccountService.link_account "u1" TWITTER "acct_1" "tok1"
           (Some "ref1") (Some 2000) (Some "read") (Some "old_handle")
           (Some "Old Name")) env_ok empty_store.

(** A store holding one link of user [u1] to the TikTok account [tt_1]. *)
Definition tiktok_store : State :=
  after (AccountService.link_account "u1" TIKTOK "tt_1" "tok1"
           (Some "ref1") (Some 2000) (Some "read") (Some "old_handle")
           (Some "Old Name")) env_ok empty_store.

(** ** Auxiliary notions *)

Definition key_preserving (f : account -> account) : Prop :=
  forall a, SocialAccount.key (f a) = SocialAccount.key a.

Definition linked_as (p : Platform) (account_id : string) (a : account) : bool :=
  String.eqb (SocialAccount.platform a) (value p)
  && String.eqb (SocialAccount.account_id a) account_id.

(** What a re-link by the owner writes to the entity. *)
Definition relinked (env : Env) (tok : string) (rt : option string)
    (ex : option Z) (sc un dn : option string) (e : account) : account :=
  SocialAccount.set_display_name dn
    (SocialAccount.set_username un
       (SocialAccount.set_scope sc
          (SocialAccount.set_tokens (encrypt_token env tok)
             (if truthy_opt rt then encrypt_token env <$> rt else None) ex e))).

Definition owned_on (u : string) (p : Platform) (a : account) : bool :=
  String.eqb (SocialAccount.user_id a) u
  && String.eqb (SocialAccount.platform a) (value p)
  && true.

(** The entity a manual link creates. *)
Definition manual_link (env : Env) (u platform username : string) : account :=
  SocialAccount.mk (new_id env) u (lower platform)
    ("manual_" ++ username ++ "_" ++ prefix_of 8 u)
    (Some username) (Some username)
    (encrypt_token env "manual_link_placeholder") None None None false None.

(** The database loses the connection at commit. *)
Definition env_commit_fails : Env := with_db_fault commit_fails env_ok.

(** What TikTok answers to [/user/info/]: the profile is nested under
    [data.user]. *)
Definition tiktok_user_info : json :=
  JObj [("data", JObj [("user", JObj [("open_id", JStr "tt_1");
                                      ("display_name", JStr "New Name")])]);
        ("error", JObj [("code", JStr "ok")])].

Definition env_tiktok : Env :=
  with_transport (fun _ _ _ _ => Ok tiktok_user_info) env_ok.

(** The total of the three counters. *)
Definition total (st : Stats) : nat := (success st + failed st + skipped st)%nat.

(** Whether the provider call of the candidate at position [i] throws. *)
Definition throws (env : Env) (client_id client_secret : string)
    (l : list account) (i : nat) : bool :=
  match l !! i with
  | Some a => negb (is_Ok (provider_call env client_id client_secret a))
  | None => false
  end.

(** The candidates whose provider call throws. *)
Definition failing (env : Env) (client_id client_secret : string)
    (l : list account) (candidates : list nat) : list nat :=
  filter (fun i => Is_true (throws env client_id client_secret l i)) candidates.

(** What the batch leaves at position [j]. *)
Definition settle (env : Env) (client_id client_secret : string)
    (candidates : list nat) (j : nat) (a : account) : account :=
  if bool_decide (j ∈ candidates)
  then match provider_call env client_id client_secret a with
       | Ok td => refreshed env td a
       | Raise _ => a
       end
  else a.

(** A computation that only reads the environment and writes the log:
    its result does not depend on the session. *)
Definition reads_env_only {A} (m : M A) : Prop :=
  forall env, exists r evs, forall s,
    m env s = (r, {| rows := rows s; committed := committed s;
                     trace := evs ++ trace s |}).

(** A write that keeps the badge of the entity. *)
Definition badge_preserving (f : account -> account) : Prop :=
  forall a, badge (f a) = badge a.

(** What a successful verification writes to the entity. *)
Definition verified_at (t : Z) (a : account) : account :=
  SocialAccount.set_verified true (Some t) a.

(** The row of [twitter_store]. *)
Definition twitter_link : account :=
  SocialAccount.mk "id-1" "u1" "twitter" "acct_1" (Some "old_handle")
    (Some "Old Name") "enc:tok1" (Some "enc:ref1") (Some 2000) (Some "read")
    false None.

(** Two users whose ids share their first eight characters link the same
    handle by hand. *)
Definition manual_store_1 : State :=
  after (AccountService.link_manual_account "abcdefgh1" "tiktok" "handle")
    env_ok empty_store.

Definition manual_store_2 : State :=
  after (AccountService.link_manual_account "abcdefgh2" "tiktok" "handle")
    (with_new_id "id-2" env_ok) manual_store_1.

(** A second link, of user [u2] to a Facebook account; both links are due. *)
Definition batch_store : State :=
  after (AccountService.link_account "u2" FACEBOOK "fb_1" "tok2"
           (Some "ref2") (Some 3000) None None None)
    (with_new_id "id-2" env_ok) twitter_store.

(** The OAuth service fails for Facebook and answers for the others. *)
Definition env_batch : Env :=
  with_refresh
    (fun p r _ _ =>
       match p with
       | FACEBOOK => Raise (OtherError "provider unavailable")
       | _ => Ok {| td_access_token := "new-" ++ r; td_refresh_token := None;
                    td_expires_at := Some 5000 |}
       end)
    env_ok.

(** The revocation endpoint is down. *)
Definition env_revoke_fails : Env :=
  with_revoke (fun _ _ _ _ => Raise (OtherError "revoke endpoint down")) env_ok.

(** The token belongs to somebody else. *)
Definition env_not_owner : Env := with_ownership (fun _ _ _ => Ok false) env_ok.

(** A cached profile field either keeps its value or takes a non-empty one. *)
Definition unblanked (o o' : option string) : Prop :=
  o' = o \/ exists v, v <> "" /\ o' = Some v.

Definition profile_kept (a a' : account) : Prop :=
  unblanked (SocialAccount.username a) (SocialAccount.username a')
  /\ unblanked (SocialAccount.display_name a) (SocialAccount.display_name a').

(** Every entity of the later state stands where an entity of the
    earlier state stood, in the session or in the database, and its
    cached profile was kept or filled. *)
Definition never_blanks (s s' : State) : Prop :=
  forall j a',
    rows s' !! j = Some a' \/ committed s' !! j = Some a' ->
    exists a,
      (rows s !! j = Some a \/ committed s !! j = Some a) /\ profile_kept a a'.

(** One client more is open after the run than before it. *)
Definition client_leaked (s s' : State) : Prop :=
  (opened (trace s') + closed (trace s)
   = S (opened (trace s) + closed (trace s')))%nat.

(** ** Notions for the frame properties *)

(** Every entity of the later state stands where an entity of the
    earlier state stood, in the session or in the database, and is
    [rel]-related to it. *)
Definition stands_for (rel : account -> account -> Prop) (s s' : State) : Prop :=
  forall j a',
    rows s' !! j = Some a' \/ committed s' !! j = Some a' ->
    exists a, (rows s !! j = Some a \/ committed s !! j = Some a) /\ rel a a'.

(** The entities differ at most in the credentials. *)
Definition same_but_credentials (a a' : account) : Prop :=
  a' = SocialAccount.set_tokens (SocialAccount.access_token a')
         (SocialAccount.refresh_token a') (SocialAccount.expires_at a') a.

(** The entities differ at most in the verification state. *)
Definition same_but_verification (a a' : account) : Prop :=
  a' = SocialAccount.set_verified (SocialAccount.is_verified a')
         (SocialAccount.last_verified_at a') a.

(** The entities differ at most in the cached profile. *)
Definition same_but_profile (a a' : account) : Prop :=
  a' = SocialAccount.set_display_name (SocialAccount.display_name a')
         (SocialAccount.set_username (SocialAccount.username a') a).

(** The database is what it was. *)
Definition same_database (s s' : State) : Prop := committed s' = committed s.

(** The number of rows, in the session and in the database, is one that
    was there before. *)
Definition same_size (s s' : State) : Prop :=
  forall n : nat,
    length (rows s') = n \/ length (committed s') = n ->
    length (rows s) = n \/ length (committed s) = n.

(** A run that raises has left the database as it was. *)
Definition commit_is_last {A} (m : M A) : Prop :=
  forall env s e, outcome m env s = Raise e -> committed (after m env s) = committed s.

(** No run raises. *)
Definition never_raises {A} (m : M A) : Prop :=
  forall env s, exists a, outcome m env s = Ok a.

(** The entity [link_account] creates for an identity that is not linked. *)
Definition new_link (env : Env) (u : string) (p : Platform) (a tok : string)
    (rt : option string) (ex : option Z) (sc un dn : option string) : account :=
  SocialAccount.mk (new_id env) u (value p) a un dn (encrypt_token env tok)
    (if truthy_opt rt then encrypt_token env <$> rt else None) ex sc false None.

(** The query of [disconnect_account]. *)
Definition owned_by_name (u name : string) (a : account) : bool :=
  String.eqb (SocialAccount.user_id a) u
  && String.eqb (SocialAccount.platform a) (lower name).

(** The query of [get_user_accounts]. *)
Definition listed (u : string) (platform : option Platform) (verified_only : bool)
    (a : account) : bool :=
  String.eqb (SocialAccount.user_id a) u
  && match platform with
     | Some p => String.eqb (SocialAccount.platform a) (value p)
     | None => true
     end
  && (if verified_only then SocialAccount.is_verified a else true).

(** What [refresh_account] writes for a profile field the provider sent
    as [v]: nothing when [v] is empty or missing, the text otherwise; a
    value that is neither is refused. *)
Definition field_update (v : json) (old : option string) : option (option string) :=
  if truthy v
  then match v with JStr t => Some (Some t) | _ => None end
  else Some old.

(** [profile.get("name") or profile.get("display_name")] *)
Definition shown_name (fields : list (string * json)) : json :=
  let name := default JNull (assoc "name" fields) in
  if truthy name then name else default JNull (assoc "display_name" fields).

(** ** Notions for the refresh batch in general *)

Inductive Verdict : Type :=
| Refreshed (td : TokenData)
| Failed
| Skipped.

(** How the batch deals with a candidate, read off the entity and the
    collaborators alone. *)
Definition verdict (env : Env) (client_id client_secret : string) (a : account)
    : Verdict :=
  match Platform_of (SocialAccount.platform a) with
  | Raise _ => Failed
  | Ok p =>
      if supports_refresh_token env p
      then match SocialAccount.refresh_token a with
           | None => Skipped
           | Some c =>
               match decrypt_token env c with
               | Raise _ => Failed
               | Ok rt =>
                   if String.eqb rt "" then Skipped
                   else match oauth_refresh_token env p rt client_id client_secret with
                        | Ok td => Refreshed td
                        | Raise _ => Failed
                        end
               end
           end
      else Skipped
  end.

Definition is_refreshed (v : Verdict) : bool :=
  match v with Refreshed _ => true | _ => false end.
Definition is_failed (v : Verdict) : bool :=
  match v with Failed => true | _ => false end.
Definition is_skipped (v : Verdict) : bool :=
  match v with Skipped => true | _ => false end.

(** The verdict on the row at a position. *)
Definition judged (env : Env) (client_id client_secret : string)
    (l : list account) (i : nat) : Verdict :=
  match l !! i with
  | Some a => verdict env client_id client_secret a
  | None => Failed
  end.

(** The number of candidates with a verdict of a kind. *)
Definition count_verdicts (kind : Verdict -> bool) (env : Env)
    (client_id client_secret : string) (l : list account) (candidates : list nat)
    : nat :=
  length (filter (fun i => Is_true (kind (judged env client_id client_secret l i)))
            candidates).

(** What the batch leaves at position [j], in general. *)
Definition settled (env : Env) (client_id client_secret : string)
    (candidates : list nat) (j : nat) (a : account) : account :=
  if bool_decide (j ∈ candidates)
  then match verdict env client_id client_secret a with
       | Refreshed td => refreshed env td a
       | _ => a
       end
  else a.

(** ** Notions for the platform clients *)

(** A read of the provider passes its answer on unchanged, or fails with
    a [PlatformAPIError] whose message starts with [prefix]. *)
Definition passes_on (prefix : string) (answer : Env -> result json)
    (m : M json) : Prop :=
  forall env s,
    match outcome m env s with
    | Ok r => answer env = Ok r
    | Raise e => exists cause, e = PlatformAPIError (prefix ++ cause)
    end.

(** A JSON object. *)
Definition is_object (v : json) : Prop := exists fields, v = JObj fields.

(** A string of [n] at-signs. *)
Fixpoint at_signs (n : nat) : string :=
  match n with
  | O => ""
  | S n' => String "@" (at_signs n')
  end.

(** ** More concrete collaborators *)

(** The database fails when an entity is re-read after the commit. *)
Definition refresh_fails : DbOp -> option string :=
  fun op => match op with Refresh => Some "stale row" | _ => None end.

Definition env_refresh_fails : Env := with_db_fault refresh_fails env_ok.

(** The database fails when it is queried. *)
Definition execute_fails : DbOp -> option string :=
  fun op => match op with Execute => Some "connection lost" | _ => None end.

Definition env_execute_fails : Env := with_db_fault execute_fails env_ok.

Definition tiktok_client : Client := {| cl_platform := TIKTOK; cl_token := "tok1" |}.

Definition youtube_client : Client := {| cl_platform := YOUTUBE; cl_token := "tok1" |}.

(** What YouTube answers to [/channels] for the channel [UC_1]. *)
Definition youtube_channels : json :=
  JObj [("items", JArr [JObj [("id", JStr "UC_1");
                              ("snippet", JObj [("title", JStr "Channel")])]])].

Definition env_youtube : Env :=
  with_transport (fun _ _ _ _ => Ok youtube_channels) env_ok.

(** What YouTube answers to [/videos] for a user who liked [v1] and [v2]. *)
Definition youtube_liked : json :=
  JObj [("items", JArr [JObj [("id", JStr "v1")]; JObj [("id", JStr "v2")]])].

Definition env_liked : Env :=
  with_transport (fun _ _ _ _ => Ok youtube_liked) env_ok.

(** The provider answers every request with an error. *)
Definition env_provider_down : Env :=
  with_transport (fun _ _ _ _ => Raise (PlatformAPIError "HTTP error")) env_ok.

(** The status the provider's errors carry. *)
Definition status_not_found : exn -> option Z := fun _ => Some 404.

Definition status_unavailable : exn -> option Z := fun _ => Some 503.

(** [twitter_link] with the profile the provider reports. *)
Definition twitter_link_neo : account :=
  SocialAccount.set_username (Some "neo") twitter_link.

(** ** Notions for the horizon of the refresh batch *)

(** The threshold [datetime.utcnow() + timedelta(hours=h)]. *)
Definition horizon (env : Env) (h : Z) : Z := utcnow env + h * 3600000000.

(** The duration and the threshold are values the runtime represents:
    the duration has at most 999999999 days and the threshold is a date
    of the years 1 to 9999. *)
Definition representable (env : Env) (h : Z) : Prop :=
  -999999999 <= h / 24 <= 999999999
  /\ AccountService.datetime_min <= horizon env h <= AccountService.datetime_max.

(** Whether a computation raises. *)
Definition raises {A} (m : M A) (env : Env) (s : State) : bool :=
  negb (is_Ok (outcome m env s)).

(** The number of candidates whose [try] block raises in the course of
    the loop. *)
Fixpoint raised_in_loop (client_id client_secret : string)
    (accounts : list nat) (stats : Stats) (env : Env) (s : State) : nat :=
  match accounts with
  | [] => 0%nat
  | i :: rest =>
      let one := AccountService.refresh_one client_id client_secret i stats in
      ((if raises (AccountService.refresh_try client_id client_secret i stats) env s
        then 1 else 0)
       + raised_in_loop client_id client_secret rest
           (match outcome one env s with Ok stats' => stats' | Raise _ => stats end)
           env (after one env s))%nat
  end.

(** A horizon of a hundred million hours, more than eleven thousand
    years. *)
Definition far_horizon : Z := 100000000.

(** ** Reasoning about computations *)

Lemma after_bind {A B} (m : M A) (k : A -> M B) env s :
  after (bind m k) env s =
  match m env s with
  | (Ok a, s') => after (k a) env s'
  | (Raise _, s') => s'
  end.
Proof. unfold after, bind. destruct (m env s) as [[a|e] s']; reflexivity. Qed.

Section Respects.
Context (R : State -> State -> Prop) `{!PreOrder R}.

Lemma respects_silent {A} (m : M A) :
  (forall env s, after m env s = s) -> respects R m.
Proof. intros H env s. rewrite H. reflexivity. Qed.

Lemma respects_ret {A} (a : A) : respects R (ret a).
Proof. apply respects_silent. reflexivity. Qed.

Lemma respects_raise {A} (e : exn) : respects R (@raise A e).
Proof. apply respects_silent. reflexivity. Qed.

Lemma respects_lift {A} (r : result A) : respects R (lift r).
Proof. apply respects_silent. reflexivity. Qed.

Lemma respects_ask : respects R ask.
Proof. apply respects_silent. reflexivity. Qed.

Lemma respects_bind {A B} (m : M A) (k : A -> M B) :
  respects R m -> (forall a, respects R (k a)) -> respects R (bind m k).
Proof.
  intros Hm Hk env s. rewrite after_bind.
  specialize (Hm env s). unfold after in Hm.
  destruct (m env s) as [[a|e] s']; simpl in Hm; [|exact Hm].
  etransitivity; [exact Hm | apply Hk].
Qed.

Lemma respects_try_except {A} (m : M A) (h : exn -> M A) :
  respects R m -> (forall e, respects R (h e)) -> respects R (try_except m h).
Proof.
  intros Hm Hh env s. unfold after, try_except.
  specialize (Hm env s). unfold after in Hm.
  destruct (m env s) as [[a|e] s']; simpl in *; [exact Hm|].
  etransitivity; [exact Hm | apply Hh].
Qed.

Lemma respects_try_finally {A} (m : M A) (fin : M unit) :
  respects R m -> respects R fin -> respects R (try_finally m fin).
Proof.
  intros Hm Hf env s. unfold after, try_finally.
  specialize (Hm env s). unfold after in Hm.
  destruct (m env s) as [r s']; simpl in Hm.
  specialize (Hf env s'). unfold after in Hf.
  destruct (fin env s') as [[[]|e] s'']; simpl in *; etransitivity; eauto.
Qed.

Lemma respects_db_check op : respects R (db_check op).
Proof.
  apply respects_silent. intros env s. unfold after, db_check.
  destruct (db_fault env op); reflexivity.
Qed.

Lemma respects_load i : respects R (load i).
Proof.
  apply respects_silent. intros env s. unfold after, load.
  destruct (rows s !! i); reflexivity.
Qed.

Lemma respects_db_select_all P : respects R (db_select_all P).
Proof.
  apply respects_bind; [apply respects_db_check|].
  intros _. apply respects_silent. reflexivity.
Qed.

Lemma respects_db_select_first P : respects R (db_select_first P).
Proof.
  apply respects_bind; [apply respects_db_select_all|].
  intros l. apply respects_ret.
Qed.

Lemma respects_db_refresh i : respects R (db_refresh i).
Proof. apply respects_db_check. Qed.

Lemma respects_request c path params : respects R (request c path params).
Proof. apply respects_silent. reflexivity. Qed.

End Respects.

(** One step through the structure of a method; the writes are left to
    the facts at hand. *)
Ltac respects_step :=
  lazymatch goal with
  | |- respects ?R (bind _ _) => apply (respects_bind R); [|intros ?]
  | |- respects ?R (try_except _ _) => apply (respects_try_except R); [|intros ?]
  | |- respects ?R (try_finally _ _) => apply (respects_try_finally R)
  | |- respects ?R (ret _) => apply (respects_ret R)
  | |- respects ?R (raise _) => apply (respects_raise R)
  | |- respects ?R (lift _) => apply (respects_lift R)
  | |- respects ?R ask => apply (respects_ask R)
  | |- respects ?R (load _) => apply (respects_load R)
  | |- respects ?R (db_refresh _) => apply (respects_db_refresh R)
  | |- respects ?R (db_check _) => apply (respects_db_check R)
  | |- respects ?R (db_select_all _) => apply (respects_db_select_all R)
  | |- respects ?R (db_select_first _) => apply (respects_db_select_first R)
  | |- respects ?R (request _ _ _) => apply (respects_request R)
  | |- respects _ (close _) => unfold close
  | |- respects _ (log _ _) => solve [eauto]
  | |- respects _ (emit _) => solve [eauto]
  | |- respects _ (store _ _) => solve [eauto]
  | |- respects _ (db_add _) => solve [eauto]
  | |- respects _ (db_delete _) => solve [eauto]
  | |- respects _ db_commit => solve [eauto]
  | |- respects _ db_rollback => solve [eauto]
  | |- respects _ (match ?x with _ => _ end) => destruct x
  | |- respects ?R (fun _ s => (_, s)) => apply (respects_silent R); reflexivity
  end.

Ltac respects_auto := lazy zeta; repeat (respects_step; lazy zeta); eauto.

Section Methods.
Context (R : State -> State -> Prop) `{!PreOrder R}.

(** *** Methods that only change the state through writes [R] tolerates *)

Variable good : (account -> account) -> Prop.
Variable fresh : account -> Prop.
Hypothesis R_log : forall lvl msg, respects R (log lvl msg).
Hypothesis R_created : forall p, respects R (emit (ClientCreated p)).
Hypothesis R_closed : forall p, respects R (emit (ClientClosed p)).
Hypothesis R_store : forall i f, good f -> respects R (store i f).
Hypothesis R_add : forall a, fresh a -> respects R (db_add a).
Hypothesis R_delete : forall i, respects R (db_delete i).
Hypothesis R_commit : respects R db_commit.
Hypothesis R_rollback : respects R db_rollback.
Hypothesis good_tokens : forall acc ref exp, good (SocialAccount.set_tokens acc ref exp).
Hypothesis good_scope : forall v, good (SocialAccount.set_scope v).
Hypothesis good_username : forall v, good (SocialAccount.set_username v).
Hypothesis good_display_name : forall v, good (SocialAccount.set_display_name v).
Hypothesis good_verified : forall v t, good (SocialAccount.set_verified v t).
Hypothesis fresh_unverified :
  forall id u p a un dn acc ref exp sc,
    fresh (SocialAccount.mk id u p a un dn acc ref exp sc false None).

Lemma respects_on_error {A} log_msg prefix exc :
  respects R (@AccountService.on_error A log_msg prefix exc).
Proof. unfold AccountService.on_error. respects_auto. Qed.

Lemma respects_get_access_token i : respects R (get_access_token i).
Proof. unfold get_access_token. respects_auto. Qed.

Lemma respects_get_refresh_token i : respects R (get_refresh_token i).
Proof. unfold get_refresh_token. respects_auto. Qed.

Lemma respects_update_tokens i acc ref exp : respects R (update_tokens i acc ref exp).
Proof. unfold update_tokens. respects_auto. Qed.

Lemma respects_mark_verified i : respects R (mark_verified i).
Proof. unfold mark_verified. respects_auto. Qed.

Lemma respects_tiktok_profile c u : respects R (TikTokClient.get_user_profile c u).
Proof. unfold TikTokClient.get_user_profile. respects_auto. Qed.

Lemma respects_tiktok_ownership c a : respects R (TikTokClient.verify_account_ownership c a).
Proof.
  unfold TikTokClient.verify_account_ownership.
  respects_auto; apply respects_tiktok_profile.
Qed.

Lemma respects_youtube_profile c u : respects R (YouTubeClient.get_user_profile c u).
Proof. unfold YouTubeClient.get_user_profile. respects_auto. Qed.

Lemma respects_youtube_ownership c a : respects R (YouTubeClient.verify_account_ownership c a).
Proof.
  unfold YouTubeClient.verify_account_ownership.
  respects_auto; apply respects_youtube_profile.
Qed.

Lemma respects_client_ownership c a : respects R (client_verify_account_ownership c a).
Proof.
  unfold client_verify_account_ownership.
  destruct (cl_platform c);
    first [ apply respects_tiktok_ownership | apply respects_youtube_ownership
          | apply (respects_silent R); reflexivity ].
Qed.

Lemma respects_client_profile c : respects R (client_get_user_profile c).
Proof.
  unfold client_get_user_profile.
  destruct (cl_platform c);
    first [ apply respects_tiktok_profile | apply respects_youtube_profile
          | apply (respects_silent R); reflexivity ].
Qed.

Lemma respects_create_client p t : respects R (AccountService._create_platform_client p t).
Proof. unfold AccountService._create_platform_client. respects_auto. Qed.

Lemma respects_get_user_accounts u p v : respects R (AccountService.get_user_accounts u p v).
Proof. unfold AccountService.get_user_accounts. respects_auto. Qed.

Lemma respects_verify_account a cid cs : respects R (AccountService.verify_account a cid cs).
Proof.
  unfold AccountService.verify_account, AccountService._get_account_by_id.
  respects_auto;
    first [ apply respects_on_error | apply respects_get_access_token
          | apply respects_create_client | apply respects_client_ownership
          | apply respects_mark_verified ].
Qed.

Lemma respects_unlink_account a u cid cs rv :
  respects R (AccountService.unlink_account a u cid cs rv).
Proof.
  unfold AccountService.unlink_account, AccountService._get_account_by_id.
  respects_auto;
    first [ apply respects_on_error | apply respects_get_access_token ].
Qed.

Lemma respects_disconnect_account u p : respects R (AccountService.disconnect_account u p).
Proof.
  unfold AccountService.disconnect_account.
  respects_auto; apply respects_on_error.
Qed.

Lemma respects_refresh_one cid cs i st : respects R (AccountService.refresh_one cid cs i st).
Proof.
  unfold AccountService.refresh_one, AccountService.refresh_try.
  respects_auto;
    first [ apply respects_get_refresh_token | apply respects_update_tokens ].
Qed.

Lemma respects_refresh_loop cid cs l st : respects R (AccountService.refresh_loop cid cs l st).
Proof.
  revert st. induction l as [|i l IH]; intros st; simpl.
  - apply (respects_ret R).
  - apply (respects_bind R); [apply respects_refresh_one | intros st'; apply IH].
Qed.

Lemma respects_refresh_all_tokens cid cs h :
  respects R (AccountService.refresh_all_tokens cid cs h).
Proof.
  unfold AccountService.refresh_all_tokens.
  respects_auto; apply respects_refresh_loop.
Qed.

Lemma respects_refresh_account u p : respects R (AccountService.refresh_account u p).
Proof.
  unfold AccountService.refresh_account.
  respects_auto;
    first [ apply respects_on_error | apply respects_get_user_accounts
          | apply respects_get_access_token | apply respects_create_client
          | apply respects_client_profile ].
Qed.

Lemma respects_link_manual_account u p n : respects R (AccountService.link_manual_account u p n).
Proof.
  unfold AccountService.link_manual_account.
  respects_auto;
    first [ apply respects_on_error | apply respects_get_user_accounts ].
Qed.

Lemma respects_link_account u p a tok rt ex sc un dn :
  respects R (AccountService.link_account u p a tok rt ex sc un dn).
Proof.
  unfold AccountService.link_account, AccountService._check_duplicate_account.
  respects_auto;
    first [ apply respects_on_error | apply respects_update_tokens ].
Qed.

End Methods.

(** ** Uniqueness of links as a property of runs *)

Global Instance keeps_unique_preorder : PreOrder keeps_unique.
Proof.
  split.
  - intros s H. exact H.
  - intros s1 s2 s3 H12 H23 H. apply H23, H12, H.
Qed.

Lemma keys_alter f (i : nat) (l : list account) :
  key_preserving f -> SocialAccount.key <$> alter f i l = SocialAccount.key <$> l.
Proof.
  intros Hf. rewrite (list_fmap_alter SocialAccount.key f id).
  - apply list_alter_id. reflexivity.
  - apply Forall_forall. intros a _. apply Hf.
Qed.

Lemma unique_links_delete (i : nat) (l : list account) : unique_links l -> unique_links (delete i l).
Proof.
  unfold unique_links. rewrite list_fmap_delete.
  intros H. eapply sublist_NoDup; [exact H | apply sublist_delete].
Qed.

Lemma keeps_unique_log lvl msg : respects keeps_unique (log lvl msg).
Proof. intros env s H. exact H. Qed.

Lemma keeps_unique_emit e : respects keeps_unique (emit e).
Proof. intros env s H. exact H. Qed.

Lemma keeps_unique_store i f :
  key_preserving f -> respects keeps_unique (store i f).
Proof.
  intros Hf env s [Hr Hc]. split; [|exact Hc].
  unfold unique_links. simpl. rewrite keys_alter; assumption.
Qed.

Lemma keeps_unique_delete i : respects keeps_unique (db_delete i).
Proof.
  intros env s [Hr Hc]. unfold after, db_delete, bind, db_check.
  destruct (db_fault env Delete); simpl; split; simpl; auto using unique_links_delete.
Qed.

Lemma keeps_unique_commit : respects keeps_unique db_commit.
Proof.
  intros env s [Hr Hc]. unfold after, db_commit, bind, db_check.
  destruct (db_fault env Commit); simpl; split; simpl; auto.
Qed.

Lemma keeps_unique_rollback : respects keeps_unique db_rollback.
Proof. intros env s [Hr Hc]. split; exact Hc. Qed.

Lemma key_preserving_tokens acc ref exp :
  key_preserving (SocialAccount.set_tokens acc ref exp).
Proof. intros a. reflexivity. Qed.
Lemma key_preserving_scope v : key_preserving (SocialAccount.set_scope v).
Proof. intros a. reflexivity. Qed.
Lemma key_preserving_username v : key_preserving (SocialAccount.set_username v).
Proof. intros a. reflexivity. Qed.
Lemma key_preserving_display_name v : key_preserving (SocialAccount.set_display_name v).
Proof. intros a. reflexivity. Qed.
Lemma key_preserving_verified v t : key_preserving (SocialAccount.set_verified v t).
Proof. intros a. reflexivity. Qed.

Create HintDb unique discriminated.
#[local] Hint Resolve keeps_unique_log keeps_unique_emit keeps_unique_store
  keeps_unique_delete keeps_unique_commit keeps_unique_rollback
  key_preserving_tokens key_preserving_scope key_preserving_username
  key_preserving_display_name key_preserving_verified : unique.

Lemma verify_account_keeps_unique a cid cs :
  respects keeps_unique (AccountService.verify_account a cid cs).
Proof. eapply respects_verify_account; eauto with unique typeclass_instances. Qed.

Lemma unlink_account_keeps_unique a u cid cs rv :
  respects keeps_unique (AccountService.unlink_account a u cid cs rv).
Proof. eapply respects_unlink_account; eauto with unique typeclass_instances. Qed.

Lemma disconnect_account_keeps_unique u p :
  respects keeps_unique (AccountService.disconnect_account u p).
Proof. eapply respects_disconnect_account; eauto with unique typeclass_instances. Qed.

Lemma refresh_account_keeps_unique u p :
  respects keeps_unique (AccountService.refresh_account u p).
Proof. eapply respects_refresh_account; eauto with unique typeclass_instances. Qed.

Lemma refresh_all_tokens_keeps_unique cid cs h :
  respects keeps_unique (AccountService.refresh_all_tokens cid cs h).
Proof. eapply respects_refresh_all_tokens; eauto with unique typeclass_instances. Qed.

(** *** Positions selected by a query *)

Lemma positions_from_elem P n (l : list account) i :
  i ∈ positions_from P n l <->
  exists a, (n <= i)%nat /\ l !! (i - n)%nat = Some a /\ P a = true.
Proof.
  revert n. induction l as [|b l IH]; intros n; simpl.
  - split; [intros H; inversion H | intros (a & _ & H & _); discriminate].
  - destruct (P b) eqn:Hb.
    + rewrite elem_of_cons, IH. split.
      * intros [-> | (a & Hle & Hl & Ha)].
        -- exists b. replace (n - n)%nat with 0%nat by lia. auto.
        -- exists a. split; [lia|]. split; [|exact Ha].
           replace (i - n)%nat with (S (i - S n)) by lia. exact Hl.
      * intros (a & Hle & Hl & Ha).
        destruct (decide (i = n)) as [->|Hne]; [left; reflexivity|].
        right. exists a. split; [lia|]. split; [|exact Ha].
        replace (i - n)%nat with (S (i - S n)) in Hl by lia. exact Hl.
    + rewrite IH. split.
      * intros (a & Hle & Hl & Ha). exists a. split; [lia|]. split; [|exact Ha].
        replace (i - n)%nat with (S (i - S n)) by lia. exact Hl.
      * intros (a & Hle & Hl & Ha).
        destruct (decide (i = n)) as [->|Hne].
        -- replace (n - n)%nat with 0%nat in Hl by lia. simpl in Hl.
           congruence.
        -- exists a. split; [lia|]. split; [|exact Ha].
           replace (i - n)%nat with (S (i - S n)) in Hl by lia. exact Hl.
Qed.

Lemma positions_elem P (l : list account) i :
  i ∈ positions P l <-> exists a, l !! i = Some a /\ P a = true.
Proof.
  unfold positions. rewrite positions_from_elem.
  replace (i - 0)%nat with i by lia.
  split; [intros (a & _ & H); eauto | intros (a & H); exists a; split; [lia | exact H]].
Qed.

Lemma positions_from_lt P n (l : list account) :
  Forall (fun i => n <= i)%nat (positions_from P n l).
Proof.
  apply Forall_forall. intros i Hi.
  apply positions_from_elem in Hi as (a & Hle & _). exact Hle.
Qed.

Lemma positions_from_NoDup P n (l : list account) : NoDup (positions_from P n l).
Proof.
  revert n. induction l as [|b l IH]; intros n; simpl; [constructor|].
  destruct (P b); [|apply IH].
  constructor; [|apply IH].
  intros Hin. apply positions_from_elem in Hin as (a & Hle & _). lia.
Qed.

Lemma positions_NoDup P (l : list account) : NoDup (positions P l).
Proof. apply positions_from_NoDup. Qed.

Lemma head_positions_Some P (l : list account) i :
  head (positions P l) = Some i -> exists a, l !! i = Some a /\ P a = true.
Proof.
  intros H. apply positions_elem.
  destruct (positions P l) as [|j k]; simpl in H; [discriminate|].
  injection H as ->. left.
Qed.

Lemma head_positions_None P (l : list account) a :
  head (positions P l) = None -> a ∈ l -> P a = false.
Proof.
  intros H Ha. destruct (P a) eqn:HP; [|reflexivity].
  apply list_elem_of_lookup in Ha as [i Hi].
  assert (i ∈ positions P l) as Hin by (apply positions_elem; eauto).
  destruct (positions P l); [inversion Hin | discriminate].
Qed.

(** Unfold the monad and the session in a run. *)
Ltac run_unfold :=
  cbv beta iota zeta delta
    [run after outcome try_except try_finally bind ret raise lift ask emit log
     db_check db_select_all db_select_first load store db_add db_delete
     db_commit db_rollback db_refresh with_rows close request
     get_access_token get_refresh_token update_tokens mark_verified
     AccountService.on_error is_ValueError negb];
  cbn [rows committed trace fst snd].

Lemma outcome_run {A} (m : M A) env s : outcome m env s = fst (run m env s).
Proof. reflexivity. Qed.

Lemma after_run {A} (m : M A) env s : after m env s = snd (run m env s).
Proof. reflexivity. Qed.

(** *** Running a guarded method whose first step is known *)

Lemma after_try_except_bind {A B} (m : M A) (k : A -> M B) (h : exn -> M B) env s :
  after (try_except (bind m k) h) env s =
  match m env s with
  | (Ok x, s1) => after (try_except (k x) h) env s1
  | (Raise e, s1) => after (h e) env s1
  end.
Proof.
  unfold after, try_except, bind.
  destruct (m env s) as [[x|e] s1]; reflexivity.
Qed.

Lemma outcome_try_except_bind {A B} (m : M A) (k : A -> M B) (h : exn -> M B) env s :
  outcome (try_except (bind m k) h) env s =
  match m env s with
  | (Ok x, s1) => outcome (try_except (k x) h) env s1
  | (Raise e, s1) => outcome (h e) env s1
  end.
Proof.
  unfold outcome, try_except, bind.
  destruct (m env s) as [[x|e] s1]; reflexivity.
Qed.

Lemma db_select_first_run P env s :
  db_select_first P env s =
  match db_fault env Execute with
  | Some msg => (Raise (OtherError msg), s)
  | None => (Ok (head (positions P (rows s))), s)
  end.
Proof.
  unfold db_select_first, db_select_all, bind, db_check, ret.
  destruct (db_fault env Execute); reflexivity.
Qed.

Lemma db_select_all_run P env s :
  db_select_all P env s =
  match db_fault env Execute with
  | Some msg => (Raise (OtherError msg), s)
  | None => (Ok (positions P (rows s)), s)
  end.
Proof.
  unfold db_select_all, bind, db_check.
  destruct (db_fault env Execute); reflexivity.
Qed.

(** *** [link_account] *)

Lemma linked_as_key p account_id a :
  linked_as p account_id a = true <-> SocialAccount.key a = (value p, account_id).
Proof.
  unfold linked_as, SocialAccount.key. rewrite andb_true_iff, !String.eqb_eq.
  split; [intros [-> ->]; reflexivity | intros H; injection H; auto].
Qed.

Lemma first_link p account_id (l : list account) i e :
  unique_links l -> l !! i = Some e ->
  SocialAccount.key e = (value p, account_id) ->
  head (positions (linked_as p account_id) l) = Some i.
Proof.
  intros Hu Hi Hk.
  assert (i ∈ positions (linked_as p account_id) l) as Hin.
  { apply positions_elem. exists e. split; [exact Hi | apply linked_as_key, Hk]. }
  destruct (positions (linked_as p account_id) l) as [|j k] eqn:Hpos;
    [inversion Hin|].
  simpl. f_equal.
  assert (j ∈ positions (linked_as p account_id) l) as Hj by (rewrite Hpos; left).
  apply positions_elem in Hj as (e' & Hj & Hk').
  apply linked_as_key in Hk'.
  eapply (NoDup_lookup (SocialAccount.key <$> l)); [exact Hu | |].
  - rewrite list_lookup_fmap, Hj. simpl. rewrite Hk'. reflexivity.
  - rewrite list_lookup_fmap, Hi. simpl. rewrite Hk. reflexivity.
Qed.

Lemma unique_links_snoc (l : list account) a :
  unique_links l ->
  (forall e, e ∈ l -> SocialAccount.key e <> SocialAccount.key a) ->
  unique_links (l ++ [a]).
Proof.
  intros Hu Hne. unfold unique_links. rewrite fmap_app. apply NoDup_app.
  split; [exact Hu|]. split; [|apply NoDup_singleton].
  intros x Hx Hin. apply list_elem_of_singleton in Hin. subst x.
  apply list_elem_of_fmap in Hx as (e & Hk & He). apply (Hne e He). congruence.
Qed.

Lemma link_account_keeps_unique u p a tok rt ex sc un dn :
  respects keeps_unique (AccountService.link_account u p a tok rt ex sc un dn).
Proof.
  pose proof keeps_unique_log. pose proof keeps_unique_emit.
  pose proof keeps_unique_store. pose proof keeps_unique_commit.
  pose proof keeps_unique_rollback.
  intros env s Hinv.
  unfold AccountService.link_account, AccountService._check_duplicate_account.
  rewrite after_try_except_bind, db_select_first_run.
  destruct (db_fault env Execute) as [msg|].
  { apply (respects_on_error keeps_unique); auto with typeclass_instances. }
  fold (linked_as p a).
  destruct (head (positions (linked_as p a) (rows s))) as [i|] eqn:Hhead.
  - match goal with
    | |- links_unique (after ?m env s) =>
        assert (respects keeps_unique m) as Hm; [|exact (Hm env s Hinv)]
    end.
    respects_auto;
      solve [ eapply respects_on_error; eauto with typeclass_instances
            | eapply respects_update_tokens; eauto with unique typeclass_instances
            | eauto with unique ].
  - destruct Hinv as [Hr Hc].
    assert (unique_links (rows s ++ [SocialAccount.set_id (new_id env)
              (SocialAccount.mk "" u (value p) a un dn (encrypt_token env tok)
                 (if truthy_opt rt then encrypt_token env <$> rt else None)
                 ex sc false None)])) as Hnew.
    { apply unique_links_snoc; [exact Hr|]. intros e He Hk.
      pose proof (head_positions_None _ _ e Hhead He) as Hf.
      assert (linked_as p a e = true) as Ht by (apply linked_as_key; exact Hk).
      congruence. }
    run_unfold.
    destruct (db_fault env Commit); run_unfold; [split; assumption|].
    destruct (db_fault env Refresh); run_unfold; [split; assumption|].
    rewrite lookup_app_r, Nat.sub_diag by lia. run_unfold. split; assumption.
Qed.

Lemma link_account_conflict_run env s u p a tok rt ex sc un dn i e :
  db_fault env Execute = None ->
  head (positions (linked_as p a) (rows s)) = Some i ->
  rows s !! i = Some e ->
  SocialAccount.user_id e <> u ->
  run (AccountService.link_account u p a tok rt ex sc un dn) env s =
  (Raise (ValueError ("Account " ++ a ++ " on " ++ value p
                      ++ " is already linked to another user")),
   {| rows := rows s; committed := committed s;
      trace := Log ERROR "Account already linked to different user" :: trace s |}).
Proof.
  intros Hex Hhead Hi Hne. unfold linked_as in Hhead.
  unfold AccountService.link_account, AccountService._check_duplicate_account.
  run_unfold. rewrite Hex. run_unfold. rewrite Hhead. run_unfold. rewrite Hi.
  apply String.eqb_neq in Hne. rewrite Hne. run_unfold. reflexivity.
Qed.

Lemma link_account_relink_run env s u p a tok rt ex sc un dn i e :
  db_fault env Execute = None ->
  db_fault env Commit = None ->
  db_fault env Refresh = None ->
  head (positions (linked_as p a) (rows s)) = Some i ->
  rows s !! i = Some e ->
  SocialAccount.user_id e = u ->
  run (AccountService.link_account u p a tok rt ex sc un dn) env s =
  (Ok (relinked env tok rt ex sc un dn e),
   {| rows := alter (relinked env tok rt ex sc un dn) i (rows s);
      committed := alter (relinked env tok rt ex sc un dn) i (rows s);
      trace := Log INFO "Account link updated successfully"
               :: Log INFO "Updating existing account link" :: trace s |}).
Proof.
  intros Hex Hco Hre Hhead Hi Hu. unfold linked_as in Hhead.
  unfold AccountService.link_account, AccountService._check_duplicate_account.
  run_unfold. rewrite Hex. run_unfold. rewrite Hhead. run_unfold. rewrite Hi.
  apply String.eqb_eq in Hu. rewrite Hu. run_unfold. rewrite Hco, Hre. run_unfold.
  rewrite !list_alter_alter_eq.
  rewrite list_lookup_alter_eq, Hi. reflexivity.
Qed.

Lemma links_of_none u k1 k2 (l : list account) :
  (forall c, c ∈ l -> SocialAccount.key c <> (k1, k2)) -> links_of u k1 k2 l = [].
Proof.
  unfold links_of. induction l as [|b l IH]; intros H; [reflexivity|].
  rewrite filter_cons_False.
  - apply IH. intros c Hc. apply H. right. exact Hc.
  - intros [_ Hk]. apply (H b); [left | exact Hk].
Qed.

Lemma links_of_unique u k1 k2 (l : list account) e :
  unique_links l -> e ∈ l ->
  SocialAccount.user_id e = u -> SocialAccount.key e = (k1, k2) ->
  links_of u k1 k2 l = [e].
Proof.
  unfold unique_links, links_of. intros Hu He Hue Hke.
  induction l as [|b l IH]; [inversion He|].
  simpl in Hu. apply NoDup_cons in Hu as [Hb Hl].
  rewrite filter_cons. apply elem_of_cons in He as [<-|He].
  - rewrite decide_True by auto. f_equal.
    apply links_of_none. intros c Hc Hkc.
    apply Hb. apply list_elem_of_fmap. exists c. split; [congruence | exact Hc].
  - rewrite decide_False; [apply IH; assumption|].
    intros [_ Hkb]. apply Hb. apply list_elem_of_fmap. exists e.
    split; [congruence | exact He].
Qed.

Lemma positions_nil P (l : list account) :
  (forall a, a ∈ l -> P a = false) -> positions P l = [].
Proof.
  intros H. destruct (positions P l) as [|i k] eqn:E; [reflexivity|].
  assert (i ∈ positions P l) as Hi by (rewrite E; left).
  apply positions_elem in Hi as (a & Hl & Ha).
  rewrite (H a) in Ha; [discriminate|].
  apply list_elem_of_lookup. eauto.
Qed.

Lemma positions_cons P (l : list account) a :
  a ∈ l -> P a = true -> exists i k, positions P l = i :: k.
Proof.
  intros Ha HP. apply list_elem_of_lookup in Ha as [i Hi].
  assert (i ∈ positions P l) as Hin by (apply positions_elem; eauto).
  destruct (positions P l) as [|j k]; [inversion Hin | eauto].
Qed.

(** *** Strings *)

Lemma prefix_of_split n s :
  exists rest, s = prefix_of n s ++ rest
               /\ String.length (prefix_of n s) = Nat.min n (String.length s).
Proof.
  unfold prefix_of. revert n. induction s as [|c s IH]; intros n.
  - exists "". destruct n; simpl; auto.
  - destruct n as [|n]; simpl.
    + exists (String c s). auto.
    + destruct (IH n) as (rest & H1 & H2). exists rest. split.
      * change (String c s = String c (substring 0 n s ++ rest)).
        f_equal. exact H1.
      * f_equal. exact H2.
Qed.

(** *** [link_manual_account] *)

Lemma owned_on_spec u p a :
  owned_on u p a = true <->
  SocialAccount.user_id a = u /\ SocialAccount.platform a = value p.
Proof.
  unfold owned_on. rewrite andb_true_r, andb_true_iff, !String.eqb_eq. tauto.
Qed.

Lemma link_manual_account_invalid_run env s u platform username e :
  Platform_of (lower platform) = Raise e ->
  run (AccountService.link_manual_account u platform username) env s =
  (Raise (ValueError ("Invalid platform: " ++ platform
      ++ ". Valid: facebook, instagram, twitter, tiktok, youtube")), s).
Proof.
  intros Hp. unfold AccountService.link_manual_account.
  run_unfold. rewrite Hp. reflexivity.
Qed.

Lemma link_manual_account_connected_run env s u platform username p a :
  Platform_of (lower platform) = Ok p ->
  db_fault env Execute = None ->
  a ∈ rows s -> SocialAccount.user_id a = u -> SocialAccount.platform a = value p ->
  run (AccountService.link_manual_account u platform username) env s =
  (Raise (ValueError ("A " ++ platform ++ " account is already connected")),
   {| rows := rows s; committed := committed s;
      trace := Log WARNING "Account already exists for platform"
               :: Log INFO "Retrieved user accounts" :: trace s |}).
Proof.
  intros Hp Hex Ha Hu Hpl.
  destruct (positions_cons (owned_on u p) (rows s) a Ha) as (i & k & Hpos).
  { apply owned_on_spec. auto. }
  unfold owned_on in Hpos.
  unfold AccountService.link_manual_account, AccountService.get_user_accounts.
  run_unfold. rewrite Hp. run_unfold. rewrite Hex. run_unfold.
  rewrite Hpos. reflexivity.
Qed.

Lemma link_manual_account_new_run env s u platform username p :
  Platform_of (lower platform) = Ok p ->
  (forall op, db_fault env op = None) ->
  (forall a, a ∈ rows s -> SocialAccount.user_id a = u ->
             SocialAccount.platform a <> value p) ->
  run (AccountService.link_manual_account u platform username) env s =
  (Ok (manual_link env u platform username),
   {| rows := rows s ++ [manual_link env u platform username];
      committed := rows s ++ [manual_link env u platform username];
      trace := Log INFO "Manual account linked successfully"
               :: Log INFO "Retrieved user accounts" :: trace s |}).
Proof.
  intros Hp Hdb Hnone.
  assert (positions (owned_on u p) (rows s) = []) as Hpos.
  { apply positions_nil. intros a Ha.
    destruct (owned_on u p a) eqn:E; [|reflexivity].
    apply owned_on_spec in E as [E1 E2]. destruct (Hnone a Ha E1 E2). }
  unfold owned_on in Hpos.
  unfold AccountService.link_manual_account, AccountService.get_user_accounts.
  run_unfold. rewrite Hp. run_unfold. rewrite !Hdb. run_unfold.
  rewrite Hpos. run_unfold. rewrite !Hdb. run_unfold.
  rewrite lookup_app_r, Nat.sub_diag by lia. reflexivity.
Qed.

Lemma check_duplicate_found p a u env s i :
  outcome (AccountService._check_duplicate_account p a u) env s = Ok (Some i) ->
  db_fault env Execute = None
  /\ head (positions (linked_as p a) (rows s)) = Some i.
Proof.
  unfold outcome, AccountService._check_duplicate_account.
  rewrite db_select_first_run. fold (linked_as p a).
  destruct (db_fault env Execute); simpl; [discriminate|].
  intros H. injection H as H. auto.
Qed.

Lemma link_manual_account_keeps_unique env s u platform username :
  links_unique s ->
  (forall e, e ∈ rows s ->
     SocialAccount.key e <> (lower platform, "manual_" ++ username ++ "_" ++ prefix_of 8 u)) ->
  links_unique (after (AccountService.link_manual_account u platform username) env s).
Proof.
  intros [Hr Hc] Hfree.
  assert (unique_links (rows s ++ [manual_link env u platform username])) as Hnew.
  { apply unique_links_snoc; [exact Hr|]. intros e He. exact (Hfree e He). }
  unfold AccountService.link_manual_account, AccountService.get_user_accounts.
  run_unfold.
  destruct (Platform_of (lower platform)) as [p|e]; run_unfold; [|split; assumption].
  destruct (db_fault env Execute); run_unfold; [split; assumption|].
  match goal with |- context [positions ?P (rows s)] =>
    destruct (positions P (rows s)) end; run_unfold; [|split; assumption].
  destruct (db_fault env Commit); run_unfold; [split; assumption|].
  destruct (db_fault env Refresh); run_unfold; [split; assumption|].
  rewrite lookup_app_r, Nat.sub_diag by lia. run_unfold. split; assumption.
Qed.

(** Claim C1, amended.  A remote identity [(platform, account_id)] is
    linked at most once, in the session and in the database, and
    [link_account], [verify_account], [unlink_account],
    [disconnect_account], [refresh_account] and [refresh_all_tokens] keep
    it so on every run, whatever the collaborators answer.
    [link_manual_account] keeps it so when the identity it synthesizes,
    [manual_<username>_<first 8 characters of the user id>] on the
    lowercased platform, is not linked yet.  When the identity is linked
    to another user and the lookup goes through, [link_account] raises
    the conflict error and leaves session and database as they were.
    When it is linked to the same user and the database calls go
    through, [link_account] returns the same entity with the new access
    token stored encrypted, the number of rows is unchanged, that entity
    is the only link of the triple [(user, platform, account_id)], and
    the update is committed. *)
Theorem links_stay_unique :
  (forall u p a tok rt ex sc un dn,
     respects keeps_unique (AccountService.link_account u p a tok rt ex sc un dn))
  /\ (forall a cid cs, respects keeps_unique (AccountService.verify_account a cid cs))
  /\ (forall a u cid cs rv,
        respects keeps_unique (AccountService.unlink_account a u cid cs rv))
  /\ (forall u p, respects keeps_unique (AccountService.disconnect_account u p))
  /\ (forall u p, respects keeps_unique (AccountService.refresh_account u p))
  /\ (forall cid cs h,
        respects keeps_unique (AccountService.refresh_all_tokens cid cs h))
  /\ (forall env s u platform username,
        links_unique s ->
        (forall e, e ∈ rows s ->
           SocialAccount.key e <>
           (lower platform, "manual_" ++ username ++ "_" ++ prefix_of 8 u)) ->
        links_unique
          (after (AccountService.link_manual_account u platform username) env s))
  /\ (forall env s u p a tok rt ex sc un dn e,
        unique_links (rows s) -> e ∈ rows s ->
        SocialAccount.key e = (value p, a) -> SocialAccount.user_id e <> u ->
        db_fault env Execute = None ->
        let m := AccountService.link_account u p a tok rt ex sc un dn in
        outcome m env s =
          Raise (ValueError ("Account " ++ a ++ " on " ++ value p
                             ++ " is already linked to another user"))
        /\ rows (after m env s) = rows s
        /\ committed (after m env s) = committed s)
  /\ (forall env s u p a tok rt ex sc un dn e,
        unique_links (rows s) -> e ∈ rows s ->
        SocialAccount.key e = (value p, a) -> SocialAccount.user_id e = u ->
        (forall op, db_fault env op = None) ->
        let m := AccountService.link_account u p a tok rt ex sc un dn in
        exists e',
          outcome m env s = Ok e'
          /\ SocialAccount.id e' = SocialAccount.id e
          /\ SocialAccount.access_token e' = encrypt_token env tok
          /\ length (rows (after m env s)) = length (rows s)
          /\ links_of u (value p) a (rows (after m env s)) = [e']
          /\ committed (after m env s) = rows (after m env s)).
Proof.
  split; [exact link_account_keeps_unique|].
  split; [exact verify_account_keeps_unique|].
  split; [exact unlink_account_keeps_unique|].
  split; [exact disconnect_account_keeps_unique|].
  split; [exact refresh_account_keeps_unique|].
  split; [exact refresh_all_tokens_keeps_unique|].
  split; [exact link_manual_account_keeps_unique|].
  split.
  - intros env s u p a tok rt ex sc un dn e Hu He Hk Hne Hex m.
    apply list_elem_of_lookup in He as [i Hi].
    pose proof (first_link p a _ i e Hu Hi Hk) as Hhead.
    subst m. rewrite outcome_run, !after_run.
    rewrite (link_account_conflict_run env s u p a tok rt ex sc un dn i e); auto.
  - intros env s u p a tok rt ex sc un dn e Hu He Hk Hue Hdb m.
    apply list_elem_of_lookup in He as [i Hi].
    pose proof (first_link p a _ i e Hu Hi Hk) as Hhead.
    exists (relinked env tok rt ex sc un dn e).
    subst m. rewrite outcome_run, !after_run.
    rewrite (link_account_relink_run env s u p a tok rt ex sc un dn i e); auto.
    simpl. repeat split.
    + apply length_alter.
    + apply links_of_unique.
      * unfold unique_links. rewrite keys_alter; [exact Hu | intros x; reflexivity].
      * apply list_elem_of_lookup. exists i.
        rewrite list_lookup_alter_eq, Hi. reflexivity.
      * exact Hue.
      * exact Hk.
Qed.
Lemma Platform_of_value s p : Platform_of s = Ok p -> s = value p.
Proof.
  unfold Platform_of. destruct (list_find _ all_platforms) as [[i q]|] eqn:E;
    [|discriminate].
  intros H. injection H as ->. apply list_find_Some in E as (_ & E & _). auto.
Qed.

Lemma Platform_of_of_value p : Platform_of (value p) = Ok p.
Proof. destruct p; reflexivity. Qed.

(** Claim C8.  [link_manual_account] lowercases the platform name and
    checks it against the enum: for a name that is not a member it raises
    a [ValueError] whose text lists the five valid values, and touches
    nothing.  When the user already has an account on that platform it
    raises "A <platform> account is already connected" and leaves the
    rows as they were.  Otherwise, the database calls going through, it
    creates an unverified entity whose [account_id] is ["manual_"]
    followed by the username, ["_"] and the first eight characters of
    the user id, and commits it. *)
Theorem link_manual_account_spec env s u platform username :
  let m := AccountService.link_manual_account u platform username in
  (forall e,
     Platform_of (lower platform) = Raise e ->
     outcome m env s =
       Raise (ValueError ("Invalid platform: " ++ platform
         ++ ". Valid: facebook, instagram, twitter, tiktok, youtube"))
     /\ after m env s = s)
  /\ (forall p a,
        Platform_of (lower platform) = Ok p ->
        db_fault env Execute = None ->
        a ∈ rows s ->
        SocialAccount.user_id a = u -> SocialAccount.platform a = value p ->
        outcome m env s =
          Raise (ValueError ("A " ++ platform ++ " account is already connected"))
        /\ rows (after m env s) = rows s
        /\ committed (after m env s) = committed s)
  /\ (forall p,
        Platform_of (lower platform) = Ok p ->
        (forall op, db_fault env op = None) ->
        (forall a, a ∈ rows s -> SocialAccount.user_id a = u ->
                   SocialAccount.platform a <> value p) ->
        exists acc,
          outcome m env s = Ok acc
          /\ SocialAccount.account_id acc = "manual_" ++ username ++ "_" ++ prefix_of 8 u
          /\ (exists rest, u = prefix_of 8 u ++ rest
                /\ String.length (prefix_of 8 u) = Nat.min 8 (String.length u))
          /\ SocialAccount.is_verified acc = false
          /\ SocialAccount.last_verified_at acc = None
          /\ SocialAccount.user_id acc = u
          /\ SocialAccount.platform acc = value p
          /\ SocialAccount.username acc = Some username
          /\ rows (after m env s) = (rows s ++ [acc])%list
          /\ committed (after m env s) = (rows s ++ [acc])%list).
Proof.
  intros m. subst m. split; [|split].
  - intros e Hp. rewrite outcome_run, after_run.
    rewrite (link_manual_account_invalid_run env s u platform username e Hp). auto.
  - intros p a Hp Hex Ha Hu Hpl. rewrite outcome_run, !after_run.
    rewrite (link_manual_account_connected_run env s u platform username p a); auto.
  - intros p Hp Hdb Hnone. exists (manual_link env u platform username).
    rewrite outcome_run, !after_run.
    rewrite (link_manual_account_new_run env s u platform username p); auto.
    simpl. repeat split; auto using prefix_of_split.
    apply Platform_of_value. exact Hp.
Qed.
(** Claim C10.  When the duplicate check of [link_account] finds a link
    of the same user and commit and refresh go through, the entity comes
    back with [scope], [username] and [display_name] equal to the
    arguments, whatever they are and whatever was stored; with the three
    arguments omitted ([None]) the stored values are erased. *)
Theorem relink_overwrites_profile env s u p a tok rt ex sc un dn i e :
  outcome (AccountService._check_duplicate_account p a u) env s = Ok (Some i) ->
  rows s !! i = Some e ->
  SocialAccount.user_id e = u ->
  db_fault env Commit = None ->
  db_fault env Refresh = None ->
  (exists e',
     outcome (AccountService.link_account u p a tok rt ex sc un dn) env s = Ok e'
     /\ rows (after (AccountService.link_account u p a tok rt ex sc un dn) env s) !! i
        = Some e'
     /\ committed (after (AccountService.link_account u p a tok rt ex sc un dn) env s) !! i
        = Some e'
     /\ SocialAccount.scope e' = sc
     /\ SocialAccount.username e' = un
     /\ SocialAccount.display_name e' = dn
     /\ SocialAccount.id e' = SocialAccount.id e)
  /\ (exists e',
        outcome (AccountService.link_account u p a tok rt ex None None None) env s = Ok e'
        /\ rows (after (AccountService.link_account u p a tok rt ex None None None) env s) !! i
           = Some e'
        /\ SocialAccount.scope e' = None
        /\ SocialAccount.username e' = None
        /\ SocialAccount.display_name e' = None).
Proof.
  intros Hfound Hi Hu Hco Hre.
  apply check_duplicate_found in Hfound as [Hex Hhead].
  split.
  - exists (relinked env tok rt ex sc un dn e).
    rewrite outcome_run, !after_run.
    rewrite (link_account_relink_run env s u p a tok rt ex sc un dn i e); auto.
    simpl. rewrite list_lookup_alter_eq, Hi. repeat split.
  - exists (relinked env tok rt ex None None None e).
    rewrite outcome_run, !after_run.
    rewrite (link_account_relink_run env s u p a tok rt ex None None None i e); auto.
    simpl. rewrite list_lookup_alter_eq, Hi. repeat split.
Qed.

Lemma get_account_by_id_found account_id env s i :
  outcome (AccountService._get_account_by_id account_id) env s = Ok (Some i) ->
  db_fault env Execute = None
  /\ head (positions (fun a => String.eqb (SocialAccount.id a) account_id) (rows s))
     = Some i.
Proof.
  unfold outcome, AccountService._get_account_by_id.
  rewrite db_select_first_run.
  destruct (db_fault env Execute); simpl; [discriminate|].
  intros H. injection H as H. auto.
Qed.

(** Claim C5.  For a link found by its id: [unlink_account] called with
    a user other than the owner raises "Unauthorized: Account belongs to
    different user" and leaves session and database as they were;
    called by the owner, delete and commit going through, it returns
    [True] with the row deleted and the deletion committed, for every
    environment, hence whatever the revocation call does; and when the
    revocation call is made and raises, the failure is logged as a
    warning and the method still deletes, commits and returns [True]. *)
Theorem unlink_account_authorization env s account_id user_id cid cs revoke i acc :
  outcome (AccountService._get_account_by_id account_id) env s = Ok (Some i) ->
  rows s !! i = Some acc ->
  let m := AccountService.unlink_account account_id user_id cid cs revoke in
  (SocialAccount.user_id acc <> user_id ->
     outcome m env s =
       Raise (ValueError "Unauthorized: Account belongs to different user")
     /\ rows (after m env s) = rows s
     /\ committed (after m env s) = committed s)
  /\ (SocialAccount.user_id acc = user_id ->
      db_fault env Delete = None ->
      db_fault env Commit = None ->
      outcome m env s = Ok true
      /\ rows (after m env s) = delete i (rows s)
      /\ committed (after m env s) = delete i (rows s))
  /\ (SocialAccount.user_id acc = user_id ->
      db_fault env Delete = None ->
      db_fault env Commit = None ->
      forall p tok e,
        revoke = true -> truthy_opt cid = true -> truthy_opt cs = true ->
        Platform_of (SocialAccount.platform acc) = Ok p ->
        decrypt_token env (SocialAccount.access_token acc) = Ok tok ->
        oauth_revoke_token env p tok (default "" cid) (default "" cs) = Raise e ->
        run m env s =
          (Ok true,
           {| rows := delete i (rows s); committed := delete i (rows s);
              trace := Log INFO "Account unlinked successfully"
                       :: Log WARNING "Failed to revoke OAuth token" :: trace s |})).
Proof.
  intros Hfound Hi m. subst m.
  apply get_account_by_id_found in Hfound as [Hex Hhead].
  unfold AccountService.unlink_account, AccountService._get_account_by_id.
  split; [|split].
  - intros Hne. apply String.eqb_neq in Hne.
    run_unfold. rewrite Hex. run_unfold. rewrite Hhead. run_unfold. rewrite Hi.
    rewrite Hne. run_unfold. auto.
  - intros Hu Hde Hco. apply String.eqb_eq in Hu.
    run_unfold. rewrite Hex. run_unfold. rewrite Hhead. run_unfold. rewrite Hi.
    rewrite Hu. run_unfold.
    destruct (revoke && truthy_opt cid && truthy_opt cs); run_unfold.
    + destruct (Platform_of (SocialAccount.platform acc)) as [p|e]; run_unfold.
      * rewrite Hi.
        destruct (decrypt_token env (SocialAccount.access_token acc)) as [tok|e];
          run_unfold.
        -- destruct (oauth_revoke_token env p tok (default "" cid) (default "" cs))
             as [[]|e]; run_unfold; rewrite Hde, Hco; run_unfold; auto.
        -- rewrite Hde, Hco. run_unfold. auto.
      * rewrite Hde, Hco. run_unfold. auto.
    + rewrite Hde, Hco. run_unfold. auto.
  - intros Hu Hde Hco p tok e -> Hcid Hcs Hp Hdec Hrev. apply String.eqb_eq in Hu.
    run_unfold. rewrite Hex. run_unfold. rewrite Hhead. run_unfold. rewrite Hi.
    rewrite Hu, Hcid, Hcs. cbn [andb]. run_unfold. rewrite Hp. run_unfold. rewrite Hi, Hdec.
    run_unfold. rewrite Hrev. run_unfold. rewrite Hde, Hco. reflexivity.
Qed.


(** ** Platform clients opened and closed *)

Global Instance clients_balanced_preorder : PreOrder clients_balanced.
Proof.
  split.
  - intros s. unfold clients_balanced. lia.
  - intros s1 s2 s3. unfold clients_balanced. lia.
Qed.

Lemma balanced_log lvl msg : respects clients_balanced (log lvl msg).
Proof. intros env s. unfold clients_balanced. simpl. lia. Qed.

(** Every write to an entity is tolerated: no client is involved. *)
Lemma balanced_store i f : True -> respects clients_balanced (store i f).
Proof. intros _ env s. unfold clients_balanced. simpl. lia. Qed.

Lemma balanced_commit : respects clients_balanced db_commit.
Proof.
  intros env s. unfold after, db_commit, bind, db_check.
  destruct (db_fault env Commit); unfold clients_balanced; simpl; lia.
Qed.

Lemma balanced_rollback : respects clients_balanced db_rollback.
Proof. intros env s. unfold clients_balanced. simpl. lia. Qed.

Lemma create_client_run p tok env s :
  exists s',
    AccountService._create_platform_client p tok env s
      = (Ok (Some {| cl_platform := p; cl_token := tok |}), s')
    /\ rows s' = rows s /\ committed s' = committed s
    /\ opened (trace s') = S (opened (trace s))
    /\ closed (trace s') = closed (trace s).
Proof.
  unfold AccountService._create_platform_client.
  destruct p; run_unfold; eexists; (split; [reflexivity|]); simpl; auto.
Qed.

Lemma balanced_try_finally_close {A} (body : M A) c env s0 s1 :
  respects clients_balanced body ->
  opened (trace s1) = S (opened (trace s0)) ->
  closed (trace s1) = closed (trace s0) ->
  clients_balanced s0 (after (try_finally body (close c)) env s1).
Proof.
  intros Hb Ho Hc. specialize (Hb env s1).
  unfold after, try_finally, close, emit in *.
  destruct (body env s1) as [r s2]. unfold clients_balanced in *. simpl in *. lia.
Qed.

(** Property X15.  On every path of [refresh_account] the number of clients
    left open is what it was before the call: the client it creates is
    closed by the [finally] block. *)
Lemma refresh_account_closes_client u p :
  respects clients_balanced (AccountService.refresh_account u p).
Proof.
  pose proof balanced_log. pose proof balanced_store.
  pose proof balanced_commit. pose proof balanced_rollback.
  unfold AccountService.refresh_account.
  apply (respects_try_except clients_balanced);
    [|intros e; apply (respects_on_error clients_balanced); auto].
  apply (respects_bind clients_balanced);
    [apply (respects_get_user_accounts clients_balanced); auto|].
  intros [|i rest]; [respects_auto|].
  apply (respects_bind clients_balanced);
    [apply (respects_get_access_token clients_balanced)|].
  intros tok env s. rewrite after_bind.
  destruct (create_client_run p tok env s) as (s' & -> & _ & _ & Ho & Hc).
  apply balanced_try_finally_close; [|exact Ho|exact Hc].
  respects_auto;
    solve [ apply (respects_client_profile clients_balanced); auto
          | apply I ].
Qed.

(** Claim C6, at the failing input.  [verify_account] on the store with
    one Twitter link, the provider confirming ownership and the commit
    failing: the method raises "Failed to verify account: connection
    lost", one client has been opened and none has been closed. *)
Theorem verify_account_leaks_client :
  outcome (AccountService.verify_account "id-1" "client-id" "client-secret")
    env_commit_fails twitter_store
  = Raise (ValueError "Failed to verify account: connection lost")
  /\ opened (trace (after (AccountService.verify_account "id-1" "client-id" "client-secret")
                     env_commit_fails twitter_store)) = 1%nat
  /\ closed (trace (after (AccountService.verify_account "id-1" "client-id" "client-secret")
                     env_commit_fails twitter_store)) = 0%nat
  /\ opened (trace twitter_store) = 0%nat.
Proof. vm_compute. repeat split. Qed.

(** Claim C9, at the failing input.  The cached display name of the
    TikTok link is "Old Name"; TikTok answers [/user/info/] with a
    profile whose [data.user.display_name] is "New Name";
    [refresh_account] returns the entity with the display name and the
    username it had, and the rows are unchanged. *)
Theorem refresh_account_ignores_tiktok_profile :
  SocialAccount.display_name <$> rows tiktok_store = [Some "Old Name"]
  /\ transport env_tiktok TIKTOK "tok1" "/user/info/" [("fields", TikTokClient.fields)]
     = Ok tiktok_user_info
  /\ (exists acc,
        outcome (AccountService.refresh_account "u1" TIKTOK) env_tiktok tiktok_store
          = Ok acc
        /\ SocialAccount.display_name acc = Some "Old Name"
        /\ SocialAccount.username acc = Some "old_handle")
  /\ rows (after (AccountService.refresh_account "u1" TIKTOK) env_tiktok tiktok_store)
     = rows tiktok_store.
Proof.
  split; [reflexivity|]. split; [reflexivity|]. split; [|reflexivity].
  eexists. split; [vm_compute; reflexivity|]. split; reflexivity.
Qed.
(** ** The refresh batch *)

Lemma refresh_one_total cid cs i st env s :
  exists st' s',
    AccountService.refresh_one cid cs i st env s = (Ok st', s')
    /\ total st' = S (total st)
    /\ committed s' = committed s.
Proof.
  unfold AccountService.refresh_one, AccountService.refresh_try, total.
  assert (forall (r : Stats) (s' : State),
            (success r + failed r + skipped r)%nat
              = S (success st + failed st + skipped st) ->
            committed s' = committed s ->
            exists st' s'',
              (Ok r, s') = (Ok st', s'')
              /\ (success st' + failed st' + skipped st')%nat
                 = S (success st + failed st + skipped st)
              /\ committed s'' = committed s) as Hdone by eauto.
  run_unfold.
  destruct (rows s !! i) as [a|] eqn:Hi; run_unfold;
    [|apply Hdone; simpl; [lia|reflexivity]].
  destruct (Platform_of (SocialAccount.platform a)) as [p|e]; run_unfold;
    [|apply Hdone; simpl; [lia|reflexivity]].
  destruct (supports_refresh_token env p); run_unfold;
    [|apply Hdone; simpl; [lia|reflexivity]].
  rewrite Hi. run_unfold.
  destruct (SocialAccount.refresh_token a) as [c|]; run_unfold;
    [|apply Hdone; simpl; [lia|reflexivity]].
  destruct (decrypt_token env c) as [rt|e]; run_unfold;
    [|apply Hdone; simpl; [lia|reflexivity]].
  destruct (truthy_opt (Some rt)); run_unfold;
    [|apply Hdone; simpl; [lia|reflexivity]].
  destruct (oauth_refresh_token env p (default "" (Some rt)) cid cs) as [td|e];
    run_unfold; apply Hdone; simpl; first [lia|reflexivity].
Qed.

Lemma refresh_loop_total cid cs l st env s :
  exists st' s',
    AccountService.refresh_loop cid cs l st env s = (Ok st', s')
    /\ total st' = (total st + length l)%nat
    /\ committed s' = committed s.
Proof.
  revert st s. induction l as [|i l IH]; intros st s; simpl.
  - exists st, s. split; [reflexivity|]. split; [lia|reflexivity].
  - destruct (refresh_one_total cid cs i st env s) as (st1 & s1 & H1 & Ht1 & Hc1).
    destruct (IH st1 s1) as (st2 & s2 & H2 & Ht2 & Hc2).
    exists st2, s2. unfold bind. rewrite H1, H2.
    split; [reflexivity|]. split; [lia|congruence].
Qed.

(** The threshold of a representable horizon. *)
Lemma timedelta_hours_representable env h :
  representable env h ->
  AccountService.timedelta_hours h = Ok (h * 3600000000).
Proof.
  intros [[Hlo Hhi] _]. unfold AccountService.timedelta_hours. lazy zeta.
  apply Z.leb_le in Hlo, Hhi. rewrite Hlo, Hhi. reflexivity.
Qed.

Lemma datetime_add_representable env h :
  representable env h ->
  AccountService.datetime_add (utcnow env) (h * 3600000000) = Ok (horizon env h).
Proof.
  intros [_ [Hlo Hhi]]. unfold AccountService.datetime_add. lazy zeta.
  fold (horizon env h).
  apply Z.leb_le in Hlo, Hhi. rewrite Hlo, Hhi. reflexivity.
Qed.

Lemma threshold_not_representable env h :
  ~ representable env h ->
  (exists e, AccountService.timedelta_hours h = Raise e)
  \/ (AccountService.timedelta_hours h = Ok (h * 3600000000)
      /\ exists e,
           AccountService.datetime_add (utcnow env) (h * 3600000000) = Raise e).
Proof.
  intros Hno. unfold AccountService.timedelta_hours, AccountService.datetime_add.
  lazy zeta. fold (horizon env h).
  destruct ((-999999999 <=? h / 24) && (h / 24 <=? 999999999)) eqn:Hdays.
  - right. split; [reflexivity|].
    destruct ((AccountService.datetime_min <=? horizon env h)
              && (horizon env h <=? AccountService.datetime_max)) eqn:Hdate;
      [|eauto].
    exfalso. apply Hno.
    apply andb_true_iff in Hdays as [H1 H2].
    apply andb_true_iff in Hdate as [H3 H4].
    apply Z.leb_le in H1, H2, H3, H4. repeat split; assumption.
  - left.
    destruct ((-2147483648 <=? h / 24) && (h / 24 <=? 2147483647)); eauto.
Qed.

(** A candidate whose [try] block returns leaves [failed] as it is. *)
Lemma refresh_try_failed cid cs i st env s st' :
  outcome (AccountService.refresh_try cid cs i st) env s = Ok st' ->
  failed st' = failed st.
Proof.
  unfold AccountService.refresh_try. run_unfold.
  destruct (rows s !! i) as [a|] eqn:Hi; run_unfold; [|discriminate].
  destruct (Platform_of (SocialAccount.platform a)) as [p|e]; run_unfold;
    [|discriminate].
  destruct (supports_refresh_token env p); run_unfold;
    [|intros H; injection H as <-; reflexivity].
  rewrite Hi. run_unfold.
  destruct (SocialAccount.refresh_token a) as [c|]; run_unfold;
    [|intros H; injection H as <-; reflexivity].
  destruct (decrypt_token env c) as [rt|e]; run_unfold; [|discriminate].
  destruct (truthy_opt (Some rt)); run_unfold;
    [|intros H; injection H as <-; reflexivity].
  destruct (oauth_refresh_token env p (default "" (Some rt)) cid cs) as [td|e];
    run_unfold; [|discriminate].
  intros H; injection H as <-; reflexivity.
Qed.

(** The handler of the loop body catches what the [try] block raises
    and counts it under [failed]. *)
Lemma refresh_one_catches cid cs i st env s :
  match outcome (AccountService.refresh_try cid cs i st) env s with
  | Raise _ =>
      outcome (AccountService.refresh_one cid cs i st) env s
      = Ok (AccountService.bump_failed st)
  | Ok st' =>
      outcome (AccountService.refresh_one cid cs i st) env s = Ok st'
      /\ failed st' = failed st
  end.
Proof.
  destruct (outcome (AccountService.refresh_try cid cs i st) env s) as [st'|e] eqn:Htry.
  - split; [|eapply refresh_try_failed; exact Htry].
    unfold AccountService.refresh_one. revert Htry. run_unfold.
    destruct (AccountService.refresh_try cid cs i st env s) as [[]]; simpl;
      congruence.
  - unfold AccountService.refresh_one. revert Htry. run_unfold.
    destruct (AccountService.refresh_try cid cs i st env s) as [[]]; simpl;
      [discriminate | reflexivity].
Qed.

Lemma refresh_loop_failed cid cs l :
  forall st env s st' s',
    AccountService.refresh_loop cid cs l st env s = (Ok st', s') ->
    failed st' = (failed st + raised_in_loop cid cs l st env s)%nat.
Proof.
  induction l as [|i l IH]; intros st env s st' s' H; simpl in *.
  - unfold ret in H. injection H as <- _. lia.
  - unfold bind in H. unfold raises.
    pose proof (refresh_one_catches cid cs i st env s) as Hone.
    rewrite (outcome_run (AccountService.refresh_one cid cs i st)) in *.
    rewrite after_run. unfold run in *.
    destruct (AccountService.refresh_one cid cs i st env s) as [r s1].
    simpl in *.
    destruct (outcome (AccountService.refresh_try cid cs i st) env s) as [st1|e];
      simpl.
    + destruct Hone as [-> Hf]. apply IH in H. rewrite H, Hf. reflexivity.
    + subst r. apply IH in H. rewrite H. simpl. lia.
Qed.

(** Claim C7, amended.  Whatever the [try] block of a candidate raises is
    caught by the loop body and counted under [failed]; a candidate whose
    block returns leaves [failed] as it is.  When the horizon is
    representable and the query for the candidates and the final commit
    go through, [refresh_all_tokens] returns the counts: they add up to
    the number of candidates, and [failed] is the number of candidates
    whose block raised.  When the query or the commit raises, the session
    is rolled back and the caller gets a [ValueError] with the prefix of
    the handler and the text of the database error; when the horizon is
    not representable, the caller gets a [ValueError] with that prefix
    before any candidate is looked at. *)
Theorem refresh_all_tokens_counts_or_db_error env s cid cs h :
  let m := AccountService.refresh_all_tokens cid cs h in
  let candidates := positions (AccountService.due (horizon env h)) (rows s) in
  (forall i st env' s',
     match outcome (AccountService.refresh_try cid cs i st) env' s' with
     | Raise _ =>
         outcome (AccountService.refresh_one cid cs i st) env' s'
         = Ok (AccountService.bump_failed st)
     | Ok st' =>
         outcome (AccountService.refresh_one cid cs i st) env' s' = Ok st'
         /\ failed st' = failed st
     end)
  /\ (representable env h ->
      db_fault env Execute = None ->
      db_fault env Commit = None ->
      exists st,
        outcome m env s = Ok st
        /\ total st = length candidates
        /\ failed st
           = raised_in_loop cid cs candidates
               {| success := 0; failed := 0; skipped := 0 |} env s)
  /\ (forall msg,
        representable env h ->
        db_fault env Execute = Some msg
        \/ (db_fault env Execute = None /\ db_fault env Commit = Some msg) ->
        outcome m env s = Raise (ValueError ("Failed to refresh tokens: " ++ msg))
        /\ rows (after m env s) = committed s
        /\ committed (after m env s) = committed s)
  /\ (~ representable env h ->
      (exists cause,
         outcome m env s = Raise (ValueError ("Failed to refresh tokens: " ++ cause)))
      /\ rows (after m env s) = committed s
      /\ committed (after m env s) = committed s).
Proof.
  intros m candidates. subst m candidates.
  split; [intros i st env' s'; apply refresh_one_catches|].
  unfold AccountService.refresh_all_tokens. split; [|split].
  - intros Hrep Hex Hco. run_unfold.
    rewrite (timedelta_hours_representable env h Hrep).
    rewrite (datetime_add_representable env h Hrep).
    rewrite Hex. run_unfold.
    destruct (refresh_loop_total cid cs
                (positions (AccountService.due (horizon env h)) (rows s))
                {| success := 0; failed := 0; skipped := 0 |} env s)
      as (st & s' & Hl & Ht & _).
    pose proof (refresh_loop_failed _ _ _ _ _ _ _ _ Hl) as Hf.
    rewrite Hl. run_unfold. rewrite Hco. run_unfold.
    exists st. split; [reflexivity|]. split; [rewrite Ht; reflexivity | exact Hf].
  - intros msg Hrep [Hex | [Hex Hco]].
    + run_unfold.
      rewrite (timedelta_hours_representable env h Hrep).
      rewrite (datetime_add_representable env h Hrep).
      rewrite Hex. run_unfold. auto.
    + run_unfold.
      rewrite (timedelta_hours_representable env h Hrep).
      rewrite (datetime_add_representable env h Hrep).
      rewrite Hex. run_unfold.
      destruct (refresh_loop_total cid cs
                  (positions (AccountService.due (horizon env h)) (rows s))
                  {| success := 0; failed := 0; skipped := 0 |} env s)
        as (st & s' & Hl & _ & Hc).
      rewrite Hl. run_unfold. rewrite Hco. run_unfold. auto.
  - intros Hno. run_unfold.
    destruct (threshold_not_representable env h Hno) as [[e He] | [Htd [e He]]].
    + rewrite He. run_unfold. eauto.
    + rewrite Htd, He. run_unfold. eauto.
Qed.

Lemma refresh_all_tokens_raises_on_commit_fault :
  outcome (AccountService.refresh_all_tokens "client-id" "client-secret" 24)
    env_commit_fails twitter_store
  = Raise (ValueError "Failed to refresh tokens: connection lost").
Proof. vm_compute. reflexivity. Qed.
Lemma refresh_one_success cid cs i st env s a td :
  rows s !! i = Some a ->
  refreshable env a ->
  provider_call env cid cs a = Ok td ->
  AccountService.refresh_one cid cs i st env s =
  (Ok (AccountService.bump_success st),
   {| rows := <[i := refreshed env td a]> (rows s);
      committed := committed s;
      trace := Log INFO "Token refreshed" :: trace s |}).
Proof.
  intros Hi (p & c & rt & Hp & Hsup & Hc & Hdec & Hrt) Hcall.
  unfold provider_call in Hcall. rewrite Hp, Hc, Hdec in Hcall.
  unfold AccountService.refresh_one, AccountService.refresh_try. run_unfold.
  rewrite Hi. run_unfold. rewrite Hp. run_unfold. rewrite Hsup. run_unfold.
  rewrite Hi. run_unfold. rewrite Hc. run_unfold. rewrite Hdec. run_unfold.
  apply String.eqb_neq in Hrt. cbn [truthy_opt]. rewrite Hrt. run_unfold.
  change (default "" (Some rt)) with rt. rewrite Hcall. run_unfold.
  f_equal. f_equal. rewrite list_insert_alter.
  apply list_eq. intros j. rewrite !list_lookup_alter.
  destruct (decide (i = j)) as [->|]; [|reflexivity].
  rewrite Hi. simpl. f_equal. unfold refreshed. rewrite Hc, Hdec.
  destruct (td_refresh_token td) as [r|]; simpl; [reflexivity|].
  rewrite Hrt. reflexivity.
Qed.

Lemma refresh_one_failure cid cs i st env s a e :
  rows s !! i = Some a ->
  refreshable env a ->
  provider_call env cid cs a = Raise e ->
  AccountService.refresh_one cid cs i st env s =
  (Ok (AccountService.bump_failed st),
   {| rows := rows s; committed := committed s;
      trace := Log ERROR "Failed to refresh token" :: trace s |}).
Proof.
  intros Hi (p & c & rt & Hp & Hsup & Hc & Hdec & Hrt) Hcall.
  unfold provider_call in Hcall. rewrite Hp, Hc, Hdec in Hcall.
  unfold AccountService.refresh_one, AccountService.refresh_try. run_unfold.
  rewrite Hi. run_unfold. rewrite Hp. run_unfold. rewrite Hsup. run_unfold.
  rewrite Hi. run_unfold. rewrite Hc. run_unfold. rewrite Hdec. run_unfold.
  apply String.eqb_neq in Hrt. cbn [truthy_opt]. rewrite Hrt. run_unfold.
  change (default "" (Some rt)) with rt. rewrite Hcall. reflexivity.
Qed.

Lemma failing_cons env cid cs (r : list account) i (l : list nat) :
  failing env cid cs r (i :: l) =
  if throws env cid cs r i
  then i :: failing env cid cs r l else failing env cid cs r l.
Proof.
  unfold failing. rewrite filter_cons.
  destruct (throws env cid cs r i); reflexivity.
Qed.

Lemma failing_ext env cid cs (r1 r2 : list account) (l : list nat) :
  (forall i, i ∈ l -> r1 !! i = r2 !! i) ->
  failing env cid cs r1 l = failing env cid cs r2 l.
Proof.
  induction l as [|i l IH]; intros H; [reflexivity|].
  rewrite !failing_cons.
  assert (throws env cid cs r1 i = throws env cid cs r2 i) as ->
    by (unfold throws; rewrite (H i) by left; reflexivity).
  rewrite IH by (intros j Hj; apply H; right; exact Hj).
  reflexivity.
Qed.

Lemma failing_length env cid cs (r : list account) (l : list nat) :
  (length (failing env cid cs r l) <= length l)%nat.
Proof. apply length_filter. Qed.

Lemma settle_head_here env cid cs i l a :
  settle env cid cs (i :: l) i a =
  match provider_call env cid cs a with
  | Ok td => refreshed env td a
  | Raise _ => a
  end.
Proof. unfold settle. rewrite bool_decide_eq_true_2 by left. reflexivity. Qed.

Lemma settle_head_other env cid cs i l j a :
  i <> j -> settle env cid cs (i :: l) j a = settle env cid cs l j a.
Proof.
  intros Hne. unfold settle.
  destruct (decide (j ∈ l)) as [Hin|Hnin].
  - rewrite !bool_decide_eq_true_2; [reflexivity | exact Hin | right; exact Hin].
  - rewrite !bool_decide_eq_false_2; [reflexivity | exact Hnin |].
    intros Hin. apply elem_of_cons in Hin as [->|Hin]; [congruence | auto].
Qed.

Lemma settle_absent env cid cs l j a :
  j ∉ l -> settle env cid cs l j a = a.
Proof. intros H. unfold settle. rewrite bool_decide_eq_false_2 by exact H. reflexivity. Qed.

Lemma refresh_loop_run cid cs env (l : list nat) :
  forall st s,
    NoDup l ->
    (forall i, i ∈ l -> exists a, rows s !! i = Some a /\ refreshable env a) ->
    exists s',
      AccountService.refresh_loop cid cs l st env s =
      (Ok {| success := success st + (length l - length (failing env cid cs (rows s) l));
             failed := failed st + length (failing env cid cs (rows s) l);
             skipped := skipped st |}, s')
      /\ committed s' = committed s
      /\ forall j, rows s' !! j = settle env cid cs l j <$> rows s !! j.
Proof.
  induction l as [|i l IH]; intros st s Hnd Hc.
  - exists s. simpl. split; [|split; [reflexivity|]].
    + destruct st. simpl. rewrite !Nat.add_0_r. reflexivity.
    + intros j. destruct (rows s !! j); reflexivity.
  - apply NoDup_cons in Hnd as [Hi Hnd].
    destruct (Hc i) as (a & Ha & Hr); [left|].
    assert (forall s1, (forall j, j <> i -> rows s1 !! j = rows s !! j) ->
              (forall k, k ∈ l -> exists b, rows s1 !! k = Some b /\ refreshable env b)
              /\ failing env cid cs (rows s1) l = failing env cid cs (rows s) l)
      as Hrest.
    { intros s1 Hs1. split.
      - intros k Hk. rewrite Hs1 by (intros ->; auto). apply Hc. right. exact Hk.
      - apply failing_ext. intros k Hk. apply Hs1. intros ->. auto. }
    pose proof (failing_length env cid cs (rows s) l) as Hlen.
    simpl AccountService.refresh_loop. unfold bind.
    destruct (provider_call env cid cs a) as [td|e] eqn:Hcall.
    + rewrite (refresh_one_success cid cs i st env s a td Ha Hr Hcall).
      set (s1 := {| rows := <[i:=refreshed env td a]> (rows s);
                    committed := committed s;
                    trace := Log INFO "Token refreshed" :: trace s |}).
      destruct (Hrest s1) as [Hc1 Hf1].
      { intros j Hj. simpl. apply list_lookup_insert_ne. auto. }
      destruct (IH (AccountService.bump_success st) s1 Hnd Hc1) as (s' & Hrun & Hcm & Hrows).
      exists s'. rewrite Hrun, Hf1. split; [|split; [exact Hcm|]].
      * rewrite failing_cons.
        assert (throws env cid cs (rows s) i = false) as ->
          by (unfold throws; rewrite Ha, Hcall; reflexivity).
        simpl. do 3 f_equal; lia.
      * intros j. rewrite Hrows. simpl.
        destruct (decide (i = j)) as [<-|Hne].
        -- rewrite list_lookup_insert_eq by (eapply lookup_lt_Some; exact Ha).
           rewrite Ha. simpl. rewrite settle_head_here, Hcall, settle_absent by exact Hi.
           reflexivity.
        -- rewrite list_lookup_insert_ne by exact Hne.
           destruct (rows s !! j); simpl; [|reflexivity].
           rewrite settle_head_other by exact Hne. reflexivity.
    + rewrite (refresh_one_failure cid cs i st env s a e Ha Hr Hcall).
      set (s1 := {| rows := rows s; committed := committed s;
                    trace := Log ERROR "Failed to refresh token" :: trace s |}).
      destruct (Hrest s1) as [Hc1 Hf1]; [reflexivity|].
      destruct (IH (AccountService.bump_failed st) s1 Hnd Hc1) as (s' & Hrun & Hcm & Hrows).
      exists s'. rewrite Hrun, Hf1. split; [|split; [exact Hcm|]].
      * rewrite failing_cons.
        assert (throws env cid cs (rows s) i = true) as ->
          by (unfold throws; rewrite Ha, Hcall; reflexivity).
        simpl. do 3 f_equal; lia.
      * intros j. rewrite Hrows. simpl.
        destruct (decide (i = j)) as [<-|Hne].
        -- rewrite Ha. simpl. rewrite settle_head_here, Hcall, settle_absent by exact Hi.
           reflexivity.
        -- destruct (rows s !! j); simpl; [|reflexivity].
           rewrite settle_head_other by exact Hne. reflexivity.
Qed.
(** Claim C3.  Let the horizon be representable (the duration has at most
    999999999 days and the threshold is a date of the years 1 to 9999),
    let the query and the commit go through and let no
    candidate be one the batch skips (its platform is known and supports
    refresh, its refresh token decrypts to a non-empty string).  With N
    candidates of which K have a provider call that throws,
    [refresh_all_tokens] returns [success = N - K], [failed = K],
    [skipped = 0]; what is committed is what the session holds; every
    candidate whose provider call answered is committed with the
    refreshed credentials, every candidate whose call threw and every
    row that is no candidate is committed as it was. *)
Theorem refresh_all_tokens_batch_isolation env s cid cs h :
  let m := AccountService.refresh_all_tokens cid cs h in
  let candidates :=
    positions (AccountService.due (horizon env h)) (rows s) in
  let K := length (failing env cid cs (rows s) candidates) in
  representable env h ->
  db_fault env Execute = None ->
  db_fault env Commit = None ->
  (forall i a, i ∈ candidates -> rows s !! i = Some a -> refreshable env a) ->
  outcome m env s
    = Ok {| success := length candidates - K; failed := K; skipped := 0 |}
  /\ committed (after m env s) = rows (after m env s)
  /\ (forall i a td,
        i ∈ candidates -> rows s !! i = Some a ->
        provider_call env cid cs a = Ok td ->
        committed (after m env s) !! i = Some (refreshed env td a))
  /\ (forall i a e,
        i ∈ candidates -> rows s !! i = Some a ->
        provider_call env cid cs a = Raise e ->
        committed (after m env s) !! i = Some a)
  /\ (forall i, i ∉ candidates -> committed (after m env s) !! i = rows s !! i).
Proof.
  intros m candidates K Hrep Hex Hco Hcand.
  destruct (refresh_loop_run cid cs env candidates
              {| success := 0; failed := 0; skipped := 0 |} s)
    as (s' & Hrun & _ & Hrows).
  { apply positions_NoDup. }
  { intros i Hi. pose proof Hi as Hi'.
    apply positions_elem in Hi' as (a & Ha & _). eauto. }
  assert (run m env s =
          (Ok {| success := length candidates - K; failed := K; skipped := 0 |},
           {| rows := rows s'; committed := rows s';
              trace := Log INFO "Token refresh batch completed" :: trace s' |}))
    as Hm.
  { subst m. unfold AccountService.refresh_all_tokens. run_unfold.
    rewrite (timedelta_hours_representable env h Hrep).
    rewrite (datetime_add_representable env h Hrep).
    rewrite Hex. run_unfold. fold candidates. rewrite Hrun. run_unfold.
    rewrite Hco. reflexivity. }
  rewrite outcome_run, !after_run, Hm. simpl.
  split; [reflexivity|]. split; [reflexivity|]. split; [|split].
  - intros i a td Hi Ha Hcall. rewrite Hrows, Ha. simpl.
    unfold settle. rewrite bool_decide_eq_true_2 by exact Hi. rewrite Hcall.
    reflexivity.
  - intros i a e Hi Ha Hcall. rewrite Hrows, Ha. simpl.
    unfold settle. rewrite bool_decide_eq_true_2 by exact Hi. rewrite Hcall.
    reflexivity.
  - intros i Hi. rewrite Hrows. destruct (rows s !! i) as [a|]; [|reflexivity].
    simpl. rewrite settle_absent by exact Hi. reflexivity.
Qed.
(** ** Computations that do not touch the session *)

Lemma state_eta s : {| rows := rows s; committed := committed s; trace := trace s |} = s.
Proof. destruct s. reflexivity. Qed.

Lemma reads_env_only_ret {A} (a : A) : reads_env_only (ret a).
Proof. intros env. exists (Ok a), []. intros s. unfold ret. rewrite state_eta. reflexivity. Qed.

Lemma reads_env_only_raise {A} e : reads_env_only (@raise A e).
Proof. intros env. exists (Raise e), []. intros s. unfold raise. rewrite state_eta. reflexivity. Qed.

Lemma reads_env_only_lift {A} (r : result A) : reads_env_only (lift r).
Proof. intros env. exists r, []. intros s. unfold lift. rewrite state_eta. reflexivity. Qed.

Lemma reads_env_only_log lvl msg : reads_env_only (log lvl msg).
Proof. intros env. exists (Ok tt), [Log lvl msg]. intros s. reflexivity. Qed.

Lemma reads_env_only_request c path params : reads_env_only (request c path params).
Proof.
  intros env. exists (transport env (cl_platform c) (cl_token c) path params), [].
  intros s. unfold request. rewrite state_eta. reflexivity.
Qed.

Lemma reads_env_only_bind {A B} (m : M A) (k : A -> M B) :
  reads_env_only m -> (forall a, reads_env_only (k a)) -> reads_env_only (bind m k).
Proof.
  intros Hm Hk env. destruct (Hm env) as (r & evs & Hr).
  destruct r as [a|e].
  - destruct (Hk a env) as (r' & evs' & Hr'). exists r', (evs' ++ evs)%list.
    intros s. unfold bind. rewrite Hr, Hr'. simpl. rewrite app_assoc. reflexivity.
  - exists (Raise e), evs. intros s. unfold bind. rewrite Hr. reflexivity.
Qed.

Lemma reads_env_only_try_except {A} (m : M A) (h : exn -> M A) :
  reads_env_only m -> (forall e, reads_env_only (h e)) -> reads_env_only (try_except m h).
Proof.
  intros Hm Hh env. destruct (Hm env) as (r & evs & Hr).
  destruct r as [a|e].
  - exists (Ok a), evs. intros s. unfold try_except. rewrite Hr. reflexivity.
  - destruct (Hh e env) as (r' & evs' & Hr'). exists r', (evs' ++ evs)%list.
    intros s. unfold try_except. rewrite Hr, Hr'. simpl. rewrite app_assoc. reflexivity.
Qed.

Ltac reads_env_only_step :=
  lazymatch goal with
  | |- reads_env_only (bind _ _) => apply reads_env_only_bind; [|intros ?]
  | |- reads_env_only (try_except _ _) => apply reads_env_only_try_except; [|intros ?]
  | |- reads_env_only (ret _) => apply reads_env_only_ret
  | |- reads_env_only (raise _) => apply reads_env_only_raise
  | |- reads_env_only (lift _) => apply reads_env_only_lift
  | |- reads_env_only (log _ _) => apply reads_env_only_log
  | |- reads_env_only (request _ _ _) => apply reads_env_only_request
  | |- reads_env_only (match ?x with _ => _ end) => destruct x
  end.

Lemma tiktok_profile_reads_env_only c u :
  reads_env_only (TikTokClient.get_user_profile c u).
Proof. unfold TikTokClient.get_user_profile. lazy zeta. repeat reads_env_only_step. Qed.

Lemma tiktok_ownership_reads_env_only c a :
  reads_env_only (TikTokClient.verify_account_ownership c a).
Proof.
  unfold TikTokClient.verify_account_ownership. lazy zeta.
  repeat reads_env_only_step. apply tiktok_profile_reads_env_only.
Qed.

Lemma youtube_profile_reads_env_only c u :
  reads_env_only (YouTubeClient.get_user_profile c u).
Proof. unfold YouTubeClient.get_user_profile. lazy zeta. repeat reads_env_only_step. Qed.

Lemma youtube_ownership_reads_env_only c a :
  reads_env_only (YouTubeClient.verify_account_ownership c a).
Proof.
  unfold YouTubeClient.verify_account_ownership. lazy zeta.
  repeat reads_env_only_step. apply youtube_profile_reads_env_only.
Qed.

Lemma client_ownership_reads_env_only c a :
  reads_env_only (client_verify_account_ownership c a).
Proof.
  unfold client_verify_account_ownership.
  destruct (cl_platform c) eqn:Hp;
    first [ apply tiktok_ownership_reads_env_only
          | apply youtube_ownership_reads_env_only
          | intros env; eexists _, []; intros s; rewrite state_eta; reflexivity ].
Qed.

Lemma client_ownership_run c a env s s1 b :
  outcome (client_verify_account_ownership c a) env s = b ->
  exists evs,
    client_verify_account_ownership c a env s1 =
    (b, {| rows := rows s1; committed := committed s1; trace := evs ++ trace s1 |}).
Proof.
  intros Hb. destruct (client_ownership_reads_env_only c a env) as (r & evs & Hr).
  unfold outcome in Hb. rewrite Hr in Hb. simpl in Hb. subst r.
  exists evs. apply Hr.
Qed.
(** ** Verification state as a property of runs *)

Global Instance no_new_verified_preorder : PreOrder no_new_verified.
Proof.
  split.
  - intros s x _ H. exact H.
  - intros s1 s2 s3 H12 H23 x Hx H. apply (H12 x Hx), (H23 x Hx), H.
Qed.

Lemma fmap_alter_same {B} (g : account -> B) (f : account -> account)
    (i : nat) (l : list account) :
  (forall a, g (f a) = g a) -> g <$> alter f i l = g <$> l.
Proof.
  intros Hf. rewrite (list_fmap_alter g f id).
  - apply list_alter_id. reflexivity.
  - apply Forall_forall. intros a _. apply Hf.
Qed.

Lemma badges_elem x s :
  x ∈ badges s <-> x ∈ badge <$> rows s \/ x ∈ badge <$> committed s.
Proof. unfold badges. apply elem_of_app. Qed.

Lemma no_new_verified_log lvl msg : respects no_new_verified (log lvl msg).
Proof. intros env s x _ H. exact H. Qed.

Lemma no_new_verified_emit e : respects no_new_verified (emit e).
Proof. intros env s x _ H. exact H. Qed.

Lemma no_new_verified_store i f :
  badge_preserving f -> respects no_new_verified (store i f).
Proof.
  intros Hf env s x _ H. apply badges_elem in H. apply badges_elem.
  simpl in H. rewrite fmap_alter_same in H by exact Hf. exact H.
Qed.

Lemma no_new_verified_add a :
  SocialAccount.is_verified a = false -> respects no_new_verified (db_add a).
Proof.
  intros Ha env s x Hx H. apply badges_elem in H. apply badges_elem.
  simpl in H. destruct H as [H|H]; [|right; exact H].
  rewrite fmap_app in H. apply elem_of_app in H as [H|H]; [left; exact H|].
  apply list_elem_of_singleton in H. subst x. simpl in Hx. congruence.
Qed.

Lemma no_new_verified_delete i : respects no_new_verified (db_delete i).
Proof.
  intros env s x _ H. unfold after, db_delete, bind, db_check in H.
  destruct (db_fault env Delete); simpl in H; [exact H|].
  apply badges_elem in H. apply badges_elem. simpl in H.
  destruct H as [H|H]; [left|right; exact H].
  rewrite list_fmap_delete in H. eapply list_elem_of_delete_inv. exact H.
Qed.

Lemma no_new_verified_commit : respects no_new_verified db_commit.
Proof.
  intros env s x _ H. unfold after, db_commit, bind, db_check in H.
  destruct (db_fault env Commit); simpl in H; [exact H|].
  apply badges_elem in H. apply badges_elem. simpl in H. tauto.
Qed.

Lemma no_new_verified_rollback : respects no_new_verified db_rollback.
Proof.
  intros env s x _ H. apply badges_elem in H. apply badges_elem.
  simpl in H. tauto.
Qed.

Lemma badge_preserving_tokens acc ref exp :
  badge_preserving (SocialAccount.set_tokens acc ref exp).
Proof. intros a. reflexivity. Qed.
Lemma badge_preserving_scope v : badge_preserving (SocialAccount.set_scope v).
Proof. intros a. reflexivity. Qed.
Lemma badge_preserving_username v : badge_preserving (SocialAccount.set_username v).
Proof. intros a. reflexivity. Qed.
Lemma badge_preserving_display_name v :
  badge_preserving (SocialAccount.set_display_name v).
Proof. intros a. reflexivity. Qed.

Create HintDb verified discriminated.
#[local] Hint Resolve no_new_verified_log no_new_verified_emit no_new_verified_store
  no_new_verified_add no_new_verified_delete no_new_verified_commit
  no_new_verified_rollback badge_preserving_tokens badge_preserving_scope
  badge_preserving_username badge_preserving_display_name : verified.

Lemma link_account_no_new_verified u p a tok rt ex sc un dn :
  respects no_new_verified (AccountService.link_account u p a tok rt ex sc un dn).
Proof.
  eapply (respects_link_account no_new_verified badge_preserving
            (fun a => SocialAccount.is_verified a = false));
    eauto with verified.
Qed.

Lemma link_manual_account_no_new_verified u p n :
  respects no_new_verified (AccountService.link_manual_account u p n).
Proof.
  eapply (respects_link_manual_account no_new_verified
            (fun a => SocialAccount.is_verified a = false));
    eauto with verified.
Qed.

Lemma unlink_account_no_new_verified a u cid cs rv :
  respects no_new_verified (AccountService.unlink_account a u cid cs rv).
Proof. eapply respects_unlink_account; eauto with verified typeclass_instances. Qed.

Lemma disconnect_account_no_new_verified u p :
  respects no_new_verified (AccountService.disconnect_account u p).
Proof. eapply respects_disconnect_account; eauto with verified typeclass_instances. Qed.

Lemma refresh_account_no_new_verified u p :
  respects no_new_verified (AccountService.refresh_account u p).
Proof. eapply respects_refresh_account; eauto with verified typeclass_instances. Qed.

Lemma refresh_all_tokens_no_new_verified cid cs h :
  respects no_new_verified (AccountService.refresh_all_tokens cid cs h).
Proof. eapply respects_refresh_all_tokens; eauto with verified typeclass_instances. Qed.
(** *** [verify_account] *)

Lemma verify_account_checked env s account_id cid cs i acc p tok r :
  outcome (AccountService._get_account_by_id account_id) env s = Ok (Some i) ->
  rows s !! i = Some acc ->
  Platform_of (SocialAccount.platform acc) = Ok p ->
  decrypt_token env (SocialAccount.access_token acc) = Ok tok ->
  outcome (client_verify_account_ownership {| cl_platform := p; cl_token := tok |}
             (SocialAccount.account_id acc)) env s = r ->
  exists t,
    run (AccountService.verify_account account_id cid cs) env s =
    match r with
    | Ok true =>
        match db_fault env Commit with
        | None =>
            (Ok true,
             {| rows := alter (verified_at (utcnow env)) i (rows s);
                committed := alter (verified_at (utcnow env)) i (rows s);
                trace := t |})
        | Some msg =>
            (Raise (ValueError ("Failed to verify account: " ++ msg)),
             {| rows := committed s; committed := committed s; trace := t |})
        end
    | Ok false =>
        (Ok false, {| rows := rows s; committed := committed s; trace := t |})
    | Raise e =>
        if is_ValueError e
        then (Raise e, {| rows := rows s; committed := committed s; trace := t |})
        else (Raise (ValueError ("Failed to verify account: " ++ str_exn e)),
              {| rows := committed s; committed := committed s; trace := t |})
    end.
Proof.
  intros Hfound Hi Hp Hdec Hr.
  apply get_account_by_id_found in Hfound as [Hex Hhead].
  unfold AccountService.verify_account, AccountService._get_account_by_id.
  run_unfold. rewrite Hex. run_unfold. rewrite Hhead. run_unfold.
  rewrite Hi. run_unfold. rewrite Hp. run_unfold. rewrite Hi, Hdec. run_unfold.
  destruct (create_client_run p tok env s) as (s1 & -> & Hr1 & Hc1 & _ & _).
  destruct (client_ownership_run _ _ env s s1 r Hr) as (evs & ->).
  destruct r as [[|]|e]; run_unfold.
  - destruct (db_fault env Commit); run_unfold; rewrite ?Hr1, ?Hc1;
      eexists; reflexivity.
  - rewrite Hr1, Hc1. eexists; reflexivity.
  - destruct e; run_unfold; rewrite ?Hr1, ?Hc1; eexists; reflexivity.
Qed.

Lemma verify_account_unchecked env s account_id cid cs :
  (exists i acc p tok,
     outcome (AccountService._get_account_by_id account_id) env s = Ok (Some i)
     /\ rows s !! i = Some acc
     /\ Platform_of (SocialAccount.platform acc) = Ok p
     /\ decrypt_token env (SocialAccount.access_token acc) = Ok tok)
  \/ ((rows (after (AccountService.verify_account account_id cid cs) env s) = rows s
       \/ rows (after (AccountService.verify_account account_id cid cs) env s)
          = committed s)
      /\ committed (after (AccountService.verify_account account_id cid cs) env s)
         = committed s).
Proof.
  pose (P := fun a : account => String.eqb (SocialAccount.id a) account_id).
  assert (forall i,
            db_fault env Execute = None -> head (positions P (rows s)) = Some i ->
            outcome (AccountService._get_account_by_id account_id) env s = Ok (Some i))
    as Hfound.
  { intros i Hex Hhead. unfold outcome, AccountService._get_account_by_id.
    rewrite db_select_first_run, Hex. simpl. fold P. rewrite Hhead. reflexivity. }
  destruct (db_fault env Execute) as [msg|] eqn:Hex.
  { right. unfold AccountService.verify_account, AccountService._get_account_by_id.
    run_unfold. rewrite Hex. run_unfold. auto. }
  destruct (head (positions P (rows s))) as [i|] eqn:Hhead; unfold P in Hhead.
  2:{ right. unfold AccountService.verify_account, AccountService._get_account_by_id.
      run_unfold. rewrite Hex. run_unfold. rewrite Hhead. run_unfold. auto. }
  destruct (rows s !! i) as [acc|] eqn:Hi.
  2:{ right. unfold AccountService.verify_account, AccountService._get_account_by_id.
      run_unfold. rewrite Hex. run_unfold. rewrite Hhead. run_unfold.
      rewrite Hi. run_unfold. auto. }
  destruct (Platform_of (SocialAccount.platform acc)) as [p|e] eqn:Hp.
  2:{ right. unfold AccountService.verify_account, AccountService._get_account_by_id.
      run_unfold. rewrite Hex. run_unfold. rewrite Hhead. run_unfold.
      rewrite Hi. run_unfold. rewrite Hp. run_unfold.
      destruct e; run_unfold; auto. }
  destruct (decrypt_token env (SocialAccount.access_token acc)) as [tok|e] eqn:Hdec.
  2:{ right. unfold AccountService.verify_account, AccountService._get_account_by_id.
      run_unfold. rewrite Hex. run_unfold. rewrite Hhead. run_unfold.
      rewrite Hi. run_unfold. rewrite Hp. run_unfold. rewrite Hi, Hdec. run_unfold.
      destruct e; run_unfold; auto. }
  left. exists i, acc, p, tok. auto.
Qed.

Lemma elem_of_fmap_alter {B} (g : account -> B) (f : account -> account)
    (i : nat) (l : list account) x :
  x ∈ g <$> alter f i l ->
  x ∈ g <$> l \/ exists a, l !! i = Some a /\ x = g (f a).
Proof.
  intros H. apply list_elem_of_fmap in H as (b & -> & Hb).
  apply list_elem_of_lookup in Hb as [j Hj].
  rewrite list_lookup_alter in Hj. destruct (decide (i = j)) as [->|Hne].
  - destruct (l !! j) as [a|] eqn:Ha; simpl in Hj; [|discriminate].
    injection Hj as <-. right. eauto.
  - left. apply list_elem_of_fmap. exists b. split; [reflexivity|].
    apply list_elem_of_lookup. eauto.
Qed.
(** Claim C2.  For a link found by its id whose platform is known and
    whose token decrypts: when the ownership check answers [False],
    [verify_account] returns [False] and leaves session and database as
    they were; when it answers [True] and the commit goes through,
    [verify_account] returns [True], the entity is verified with
    [last_verified_at] set to the current time, and that is committed.
    A link that is verified after [verify_account] and was not before
    is the link that was checked, and its ownership check answered
    [True].  No other method ([link_account], [link_manual_account],
    [unlink_account], [disconnect_account], [refresh_account],
    [refresh_all_tokens]) ever leaves a verified link that was not
    verified before. *)
Theorem verification_only_by_ownership :
  (forall env s account_id cid cs i acc p tok,
     outcome (AccountService._get_account_by_id account_id) env s = Ok (Some i) ->
     rows s !! i = Some acc ->
     Platform_of (SocialAccount.platform acc) = Ok p ->
     decrypt_token env (SocialAccount.access_token acc) = Ok tok ->
     let check :=
       outcome (client_verify_account_ownership
                  {| cl_platform := p; cl_token := tok |}
                  (SocialAccount.account_id acc)) env s in
     let m := AccountService.verify_account account_id cid cs in
     (check = Ok false ->
        outcome m env s = Ok false
        /\ rows (after m env s) = rows s
        /\ committed (after m env s) = committed s)
     /\ (check = Ok true -> db_fault env Commit = None ->
           outcome m env s = Ok true
           /\ rows (after m env s) !! i = Some (verified_at (utcnow env) acc)
           /\ SocialAccount.is_verified (verified_at (utcnow env) acc) = true
           /\ SocialAccount.last_verified_at (verified_at (utcnow env) acc)
              = Some (utcnow env)
           /\ committed (after m env s) = rows (after m env s)))
  /\ (forall env s account_id cid cs x,
        x.2 = true ->
        x ∈ badges (after (AccountService.verify_account account_id cid cs) env s) ->
        x ∉ badges s ->
        exists i acc p tok,
          outcome (AccountService._get_account_by_id account_id) env s = Ok (Some i)
          /\ rows s !! i = Some acc
          /\ Platform_of (SocialAccount.platform acc) = Ok p
          /\ decrypt_token env (SocialAccount.access_token acc) = Ok tok
          /\ outcome (client_verify_account_ownership
                        {| cl_platform := p; cl_token := tok |}
                        (SocialAccount.account_id acc)) env s = Ok true
          /\ x = badge (verified_at (utcnow env) acc))
  /\ (forall u p a tok rt ex sc un dn,
        respects no_new_verified (AccountService.link_account u p a tok rt ex sc un dn))
  /\ (forall u p n, respects no_new_verified (AccountService.link_manual_account u p n))
  /\ (forall a u cid cs rv,
        respects no_new_verified (AccountService.unlink_account a u cid cs rv))
  /\ (forall u p, respects no_new_verified (AccountService.disconnect_account u p))
  /\ (forall u p, respects no_new_verified (AccountService.refresh_account u p))
  /\ (forall cid cs h,
        respects no_new_verified (AccountService.refresh_all_tokens cid cs h)).
Proof.
  split; [|split].
  - intros env s account_id cid cs i acc p tok Hfound Hi Hp Hdec check m.
    split.
    + intros Hcheck.
      destruct (verify_account_checked env s account_id cid cs i acc p tok (Ok false)
                  Hfound Hi Hp Hdec Hcheck) as (t & Hrun).
      subst m. rewrite outcome_run, !after_run, Hrun. auto.
    + intros Hcheck Hco.
      destruct (verify_account_checked env s account_id cid cs i acc p tok (Ok true)
                  Hfound Hi Hp Hdec Hcheck) as (t & Hrun).
      rewrite Hco in Hrun.
      subst m. rewrite outcome_run, !after_run, Hrun. simpl.
      rewrite list_lookup_alter_eq, Hi. auto.
  - intros env s account_id cid cs x Hx Hin Hnot.
    assert (forall t r c, (r = rows s \/ r = committed s) -> c = committed s ->
              x ∈ badges {| rows := r; committed := c; trace := t |} -> False)
      as Hsame.
    { intros t r c Hr -> H. apply Hnot. apply badges_elem in H. apply badges_elem.
      simpl in H. destruct Hr as [-> | ->]; tauto. }
    destruct (verify_account_unchecked env s account_id cid cs)
      as [(i & acc & p & tok & Hfound & Hi & Hp & Hdec) | [Hr Hc]].
    2:{ exfalso. apply Hnot. apply badges_elem in Hin. apply badges_elem.
        rewrite Hc in Hin. destruct Hr as [Hr|Hr]; rewrite Hr in Hin; tauto. }
    exists i, acc, p, tok.
    destruct (verify_account_checked env s account_id cid cs i acc p tok _
                Hfound Hi Hp Hdec eq_refl) as (t & Hrun).
    rewrite after_run, Hrun in Hin. clear Hrun.
    assert (forall t r c, x ∈ badges {| rows := r; committed := c; trace := t |} ->
              (r = rows s \/ r = committed s) -> c = committed s -> False)
      as Hsame' by eauto.
    destruct (outcome (client_verify_account_ownership _ _) env s) as [[|]|e].
    + destruct (db_fault env Commit); simpl in Hin;
        [exfalso; eapply Hsame'; [exact Hin | auto | reflexivity]|].
      repeat (split; [assumption || reflexivity|]).
      apply badges_elem in Hin. simpl in Hin.
      assert (x ∈ badge <$> alter (verified_at (utcnow env)) i (rows s)) as Hx'
        by tauto.
      apply elem_of_fmap_alter in Hx' as [Hold | (a & Ha & ->)].
      * exfalso. apply Hnot. apply badges_elem. auto.
      * congruence.
    + exfalso. simpl in Hin. eapply Hsame'; [exact Hin | auto | reflexivity].
    + exfalso. destruct (is_ValueError e); simpl in Hin;
        (eapply Hsame'; [exact Hin | auto | reflexivity]).
  - repeat split.
    + exact link_account_no_new_verified.
    + exact link_manual_account_no_new_verified.
    + exact unlink_account_no_new_verified.
    + exact disconnect_account_no_new_verified.
    + exact refresh_account_no_new_verified.
    + exact refresh_all_tokens_no_new_verified.
Qed.
(** ** The cached profile as a property of runs *)

Lemma unblanked_refl o : unblanked o o.
Proof. left. reflexivity. Qed.

Lemma unblanked_trans o1 o2 o3 : unblanked o1 o2 -> unblanked o2 o3 -> unblanked o1 o3.
Proof.
  intros [-> | H12] [-> | H23]; try (left; reflexivity); right; assumption.
Qed.

Global Instance never_blanks_preorder : PreOrder never_blanks.
Proof.
  split.
  - intros s j a H. exists a. split; [exact H|]. split; apply unblanked_refl.
  - intros s1 s2 s3 H12 H23 j a3 H3.
    destruct (H23 j a3 H3) as (a2 & H2 & [Hu Hd]).
    destruct (H12 j a2 H2) as (a1 & H1 & [Hu' Hd']).
    exists a1. split; [exact H1|]. split; eapply unblanked_trans; eauto.
Qed.

Lemma never_blanks_same s s' :
  rows s' = rows s -> committed s' = committed s -> never_blanks s s'.
Proof.
  intros Hr Hc j a' H. rewrite Hr, Hc in H. exists a'.
  split; [exact H|]. split; apply unblanked_refl.
Qed.

Lemma never_blanks_silent {A} (m : M A) :
  (forall env s, rows (after m env s) = rows s
                 /\ committed (after m env s) = committed s) ->
  respects never_blanks m.
Proof. intros H env s. apply never_blanks_same; apply H. Qed.

Lemma never_blanks_log lvl msg : respects never_blanks (log lvl msg).
Proof. apply never_blanks_silent. intros env s. split; reflexivity. Qed.

Lemma never_blanks_emit e : respects never_blanks (emit e).
Proof. apply never_blanks_silent. intros env s. split; reflexivity. Qed.

Lemma never_blanks_store i f :
  (forall a, profile_kept a (f a)) -> respects never_blanks (store i f).
Proof.
  intros Hf env s j a' [H|H]; simpl in H.
  - rewrite list_lookup_alter in H. destruct (decide (i = j)) as [->|Hne].
    + destruct (rows s !! j) as [a|] eqn:Ha; simpl in H; [|discriminate].
      injection H as <-. exists a. auto.
    + exists a'. split; [left; exact H|]. split; apply unblanked_refl.
  - exists a'. split; [right; exact H|]. split; apply unblanked_refl.
Qed.

Lemma never_blanks_commit : respects never_blanks db_commit.
Proof.
  intros env s. unfold after, db_commit, bind, db_check.
  destruct (db_fault env Commit); simpl; [reflexivity|].
  intros j a' H. exists a'. simpl in H.
  split; [left; tauto|]. split; apply unblanked_refl.
Qed.

Lemma never_blanks_rollback : respects never_blanks db_rollback.
Proof.
  intros env s j a' H. exists a'. simpl in H.
  split; [right; tauto|]. split; apply unblanked_refl.
Qed.

Lemma never_blanks_set_username i (u : json) :
  respects never_blanks
    (if truthy u
     then bind (lift (AccountService.column_text u))
            (fun v => store i (SocialAccount.set_username (Some v)))
     else ret tt).
Proof.
  destruct (truthy u) eqn:Ht; [|apply (respects_ret never_blanks)].
  destruct u as [|b|n|s|l|l];
    try (apply never_blanks_silent; intros env st; split; reflexivity).
  simpl in Ht. apply negb_true_iff, String.eqb_neq in Ht.
  intros env st.
  apply (never_blanks_store i (SocialAccount.set_username (Some s))).
  intros a. split; [right; eauto | apply unblanked_refl].
Qed.

Lemma never_blanks_set_display_name i (d : json) :
  respects never_blanks
    (if truthy d
     then bind (lift (AccountService.column_text d))
            (fun v => store i (SocialAccount.set_display_name (Some v)))
     else ret tt).
Proof.
  destruct (truthy d) eqn:Ht; [|apply (respects_ret never_blanks)].
  destruct d as [|b|n|s|l|l];
    try (apply never_blanks_silent; intros env st; split; reflexivity).
  simpl in Ht. apply negb_true_iff, String.eqb_neq in Ht.
  intros env st.
  apply (never_blanks_store i (SocialAccount.set_display_name (Some s))).
  intros a. split; [apply unblanked_refl | right; eauto].
Qed.

(** [refresh_account] never replaces a cached [username] or
    [display_name] by an empty or missing value, whatever the provider
    sends and whatever fails. *)
Lemma refresh_account_never_blanks u p :
  respects never_blanks (AccountService.refresh_account u p).
Proof.
  pose proof never_blanks_log. pose proof never_blanks_emit.
  pose proof never_blanks_commit. pose proof never_blanks_rollback.
  unfold AccountService.refresh_account. lazy zeta.
  repeat first
    [ apply never_blanks_set_username
    | apply never_blanks_set_display_name
    | apply (respects_on_error never_blanks); solve [auto]
    | apply (respects_get_user_accounts never_blanks); solve [auto]
    | apply (respects_get_access_token never_blanks)
    | apply (respects_create_client never_blanks); solve [auto]
    | apply (respects_client_profile never_blanks); solve [auto]
    | respects_step; lazy zeta ].
Qed.

(** Property X14.  From a session in sync with the database, after
    [refresh_account] the [username] and the [display_name] of every row are
    either what they were before or a non-empty string, whatever the input
    and whatever the collaborators do: a cached profile field is never
    erased or set to the empty string. *)
Lemma refresh_account_keeps_or_fills env s u p j a' :
  rows s = committed s ->
  rows (after (AccountService.refresh_account u p) env s) !! j = Some a' ->
  exists a, rows s !! j = Some a /\ profile_kept a a'.
Proof.
  intros Hq Hj.
  destruct (refresh_account_never_blanks u p env s j a') as (a & Ha & Hk);
    [left; exact Hj|].
  exists a. split; [|exact Hk]. rewrite <- Hq in Ha. tauto.
Qed.

(** Property X4.  For a link found by id whose platform value is known and
    whose access token decrypts, [verify_account] leaves no client open when
    the ownership check returns [False], or returns [True] and the commit
    succeeds; it leaves the client it created open when the ownership check
    raises, or returns [True] and the commit raises. *)
Lemma verify_account_client_balance env s account_id cid cs i acc p tok :
  outcome (AccountService._get_account_by_id account_id) env s = Ok (Some i) ->
  rows s !! i = Some acc ->
  Platform_of (SocialAccount.platform acc) = Ok p ->
  decrypt_token env (SocialAccount.access_token acc) = Ok tok ->
  let s' := after (AccountService.verify_account account_id cid cs) env s in
  match outcome (client_verify_account_ownership
                   {| cl_platform := p; cl_token := tok |}
                   (SocialAccount.account_id acc)) env s with
  | Ok true =>
      match db_fault env Commit with
      | None => clients_balanced s s'
      | Some _ => client_leaked s s'
      end
  | Ok false => clients_balanced s s'
  | Raise _ => client_leaked s s'
  end.
Proof.
  intros Hfound Hi Hp Hdec s'. subst s'.
  remember (outcome (client_verify_account_ownership
                       {| cl_platform := p; cl_token := tok |}
                       (SocialAccount.account_id acc)) env s) as r eqn:Hr.
  symmetry in Hr.
  apply get_account_by_id_found in Hfound as [Hex Hhead].
  unfold AccountService.verify_account, AccountService._get_account_by_id.
  run_unfold. rewrite Hex. run_unfold. rewrite Hhead. run_unfold.
  rewrite Hi. run_unfold. rewrite Hp. run_unfold. rewrite Hi, Hdec. run_unfold.
  destruct (create_client_run p tok env s) as (s1 & -> & _ & _ & Ho & Hc).
  pose proof (respects_client_ownership clients_balanced balanced_log
                {| cl_platform := p; cl_token := tok |}
                (SocialAccount.account_id acc) env s1) as Hbal.
  destruct (client_ownership_run {| cl_platform := p; cl_token := tok |}
              (SocialAccount.account_id acc) env s s1 r Hr) as (evs & Hrun).
  rewrite after_run in Hbal. unfold run in Hbal. rewrite Hrun in Hbal.
  rewrite Hrun. clear Hrun.
  unfold clients_balanced, client_leaked in *. simpl in Hbal.
  destruct r as [[|]|e]; run_unfold.
  - destruct (db_fault env Commit); run_unfold; simpl; lia.
  - simpl. lia.
  - destruct e; run_unfold; simpl; lia.
Qed.

(** ** The theorems at concrete inputs *)

Lemma manual_links_collide :
  links_unique empty_store
  /\ links_unique manual_store_1
  /\ SocialAccount.key <$> rows manual_store_2
     = [("tiktok", "manual_handle_abcdefgh"); ("tiktok", "manual_handle_abcdefgh")]
  /\ SocialAccount.user_id <$> rows manual_store_2 = ["abcdefgh1"; "abcdefgh2"]
  /\ ~ links_unique manual_store_2.
Proof.
  split; [split; constructor|].
  split; [split; vm_compute; apply NoDup_singleton|].
  split; [reflexivity|]. split; [reflexivity|].
  intros [H _]. unfold unique_links in H.
  change (NoDup [("tiktok", "manual_handle_abcdefgh");
                 ("tiktok", "manual_handle_abcdefgh")]) in H.
  apply NoDup_cons in H as [H _]. apply H. left.
Qed.

Ltac representable_now := vm_compute; repeat split; discriminate.

Lemma links_stay_unique_witness :
  links_unique (after (AccountService.link_account "u1" TWITTER "acct_1" "tok2"
                         None None None None None) env_ok twitter_store)
  /\ outcome (AccountService.link_account "u2" TWITTER "acct_1" "tok9"
                None None None None None) env_ok twitter_store
     = Raise (ValueError "Account acct_1 on twitter is already linked to another user")
  /\ length (links_of "u1" (value TWITTER) "acct_1"
               (rows (after (AccountService.link_account "u1" TWITTER "acct_1" "tok2"
                               None None None None None) env_ok twitter_store)))
     = 1%nat.
Proof.
  destruct links_stay_unique as (Hlink & _ & _ & _ & _ & _ & _ & Hconflict & Hrelink).
  assert (links_unique twitter_store) as Hu
    by (split; vm_compute; apply NoDup_singleton).
  assert (twitter_link ∈ rows twitter_store) as Hin by (vm_compute; left).
  split; [apply (Hlink _ _ _ _ _ _ _ _ _ env_ok twitter_store Hu)|].
  split.
  - apply (Hconflict env_ok twitter_store "u2" TWITTER "acct_1" "tok9"
             None None None None None twitter_link);
      [apply Hu | exact Hin | reflexivity | discriminate | reflexivity].
  - destruct (Hrelink env_ok twitter_store "u1" TWITTER "acct_1" "tok2"
                None None None None None twitter_link)
      as (e' & _ & _ & _ & _ & Hone & _);
      [apply Hu | exact Hin | reflexivity | reflexivity | reflexivity|].
    rewrite Hone. reflexivity.
Defined.

Lemma relink_overwrites_profile_witness :
  SocialAccount.scope twitter_link = Some "read"
  /\ SocialAccount.username twitter_link = Some "old_handle"
  /\ SocialAccount.display_name twitter_link = Some "Old Name"
  /\ exists e',
       outcome (AccountService.link_account "u1" TWITTER "acct_1" "tok2"
                  None None None None None) env_ok twitter_store = Ok e'
       /\ SocialAccount.scope e' = None
       /\ SocialAccount.username e' = None
       /\ SocialAccount.display_name e' = None.
Proof.
  repeat (split; [reflexivity|]).
  destruct (relink_overwrites_profile env_ok twitter_store "u1" TWITTER "acct_1" "tok2"
              None None None None None 0%nat twitter_link)
    as [(e' & He & _ & _ & Hs & Hn & Hd & _) _];
    [reflexivity | reflexivity | reflexivity | reflexivity | reflexivity|].
  exists e'. auto.
Defined.

Lemma unlink_account_authorization_witness :
  (outcome (AccountService.unlink_account "id-1" "u2" None None true)
     env_ok twitter_store
   = Raise (ValueError "Unauthorized: Account belongs to different user")
   /\ rows (after (AccountService.unlink_account "id-1" "u2" None None true)
              env_ok twitter_store) = rows twitter_store)
  /\ outcome (AccountService.unlink_account "id-1" "u1" (Some "cid") (Some "secret") true)
       env_revoke_fails twitter_store = Ok true
  /\ rows (after (AccountService.unlink_account "id-1" "u1" (Some "cid") (Some "secret") true)
             env_revoke_fails twitter_store) = [].
Proof.
  destruct (unlink_account_authorization env_ok twitter_store "id-1" "u2" None None true
              0%nat twitter_link) as (Hwrong & _ & _); [reflexivity | reflexivity|].
  destruct (unlink_account_authorization env_revoke_fails twitter_store "id-1" "u1"
              (Some "cid") (Some "secret") true 0%nat twitter_link)
    as (_ & Howner & _); [reflexivity | reflexivity|].
  split.
  - destruct Hwrong as (H1 & H2 & _); [discriminate|]. split; assumption.
  - destruct Howner as (H1 & H2 & _); [reflexivity | reflexivity | reflexivity|].
    split; [exact H1 | exact H2].
Defined.

Lemma refresh_all_tokens_counts_or_db_error_witness :
  (exists st,
     outcome (AccountService.refresh_all_tokens "cid" "secret" 24) env_batch batch_store
     = Ok st /\ total st = 2%nat /\ failed st = 1%nat)
  /\ outcome (AccountService.refresh_all_tokens "cid" "secret" 24)
       env_commit_fails twitter_store
     = Raise (ValueError "Failed to refresh tokens: connection lost")
  /\ (exists cause,
        outcome (AccountService.refresh_all_tokens "cid" "secret" far_horizon)
          env_ok twitter_store
        = Raise (ValueError ("Failed to refresh tokens: " ++ cause))).
Proof.
  destruct (refresh_all_tokens_counts_or_db_error env_batch batch_store "cid" "secret" 24)
    as (_ & Hok & _ & _).
  destruct (refresh_all_tokens_counts_or_db_error env_commit_fails twitter_store
              "cid" "secret" 24) as (_ & _ & Hfail & _).
  destruct (refresh_all_tokens_counts_or_db_error env_ok twitter_store
              "cid" "secret" far_horizon) as (_ & _ & _ & Hfar).
  split; [|split].
  - destruct Hok as (st & Hst & Ht & Hf); [representable_now | reflexivity | reflexivity|].
    exists st. split; [exact Hst|]. split; [exact Ht | exact Hf].
  - destruct (Hfail "connection lost") as (H & _);
      [representable_now | right; split; reflexivity|].
    exact H.
  - destruct Hfar as (H & _); [|exact H].
    intros Hrep. vm_compute in Hrep. destruct Hrep as [_ [_ Hmax]].
    apply Hmax. reflexivity.
Defined.

Lemma link_manual_account_spec_witness :
  outcome (AccountService.link_manual_account "u3" "linkedin" "handle") env_ok empty_store
  = Raise (ValueError
      "Invalid platform: linkedin. Valid: facebook, instagram, twitter, tiktok, youtube")
  /\ (exists acc,
        outcome (AccountService.link_manual_account "u3" "tiktok" "handle")
          env_ok empty_store = Ok acc
        /\ SocialAccount.account_id acc = "manual_handle_u3"
        /\ SocialAccount.is_verified acc = false)
  /\ outcome (AccountService.link_manual_account "u3" "tiktok" "handle") env_ok
       (after (AccountService.link_manual_account "u3" "tiktok" "handle")
          env_ok empty_store)
     = Raise (ValueError "A tiktok account is already connected").
Proof.
  split; [|split].
  - destruct (link_manual_account_spec env_ok empty_store "u3" "linkedin" "handle")
      as (H & _ & _).
    destruct (H (ValueError "'linkedin' is not a valid Platform")) as [H1 _];
      [reflexivity | exact H1].
  - destruct (link_manual_account_spec env_ok empty_store "u3" "tiktok" "handle")
      as (_ & _ & H).
    destruct (H TIKTOK) as (acc & H1 & H2 & _ & H3 & _);
      [reflexivity | reflexivity | intros a Ha; inversion Ha|].
    exists acc. split; [exact H1|]. split; [rewrite H2; reflexivity | exact H3].
  - destruct (link_manual_account_spec env_ok
                (after (AccountService.link_manual_account "u3" "tiktok" "handle")
                   env_ok empty_store) "u3" "tiktok" "handle")
      as (_ & H & _).
    destruct (H TIKTOK (manual_link env_ok "u3" "tiktok" "handle")) as [H1 _];
      [reflexivity | reflexivity | vm_compute; left | reflexivity | reflexivity
      | exact H1].
Defined.
Lemma refresh_all_tokens_batch_isolation_witness :
  outcome (AccountService.refresh_all_tokens "cid" "secret" 24) env_batch batch_store
  = Ok {| success := 1; failed := 1; skipped := 0 |}
  /\ SocialAccount.access_token
       <$> committed (after (AccountService.refresh_all_tokens "cid" "secret" 24)
                        env_batch batch_store)
     = ["enc:new-ref1"; "enc:tok2"].
Proof.
  pose proof (refresh_all_tokens_batch_isolation env_batch batch_store "cid" "secret" 24)
    as H.
  cbv zeta in H.
  destruct H as (Hstats & _ & _ & _ & _).
  - representable_now.
  - reflexivity.
  - reflexivity.
  - intros i a Hin Hl.
    change (i ∈ [0; 1]%nat) in Hin.
    apply elem_of_cons in Hin as [-> | Hin].
    + vm_compute in Hl. injection Hl as <-.
      exists TWITTER, "enc:ref1", "ref1".
      repeat split; try reflexivity. discriminate.
    + apply list_elem_of_singleton in Hin as ->.
      vm_compute in Hl. injection Hl as <-.
      exists FACEBOOK, "enc:ref2", "ref2".
      repeat split; try reflexivity. discriminate.
  - split; [exact Hstats | reflexivity].
Defined.

Lemma verification_only_by_ownership_witness :
  (outcome (AccountService.verify_account "id-1" "cid" "secret") env_not_owner twitter_store
   = Ok false
   /\ rows (after (AccountService.verify_account "id-1" "cid" "secret")
              env_not_owner twitter_store) = rows twitter_store)
  /\ outcome (AccountService.verify_account "id-1" "cid" "secret") env_ok twitter_store
     = Ok true
  /\ rows (after (AccountService.verify_account "id-1" "cid" "secret") env_ok twitter_store)
       !! 0%nat
     = Some (verified_at 1000 twitter_link)
  /\ no_new_verified twitter_store
       (after (AccountService.refresh_account "u1" TWITTER) env_ok twitter_store).
Proof.
  destruct verification_only_by_ownership
    as (Hverify & _ & _ & _ & _ & _ & Hrefresh & _).
  destruct (Hverify env_not_owner twitter_store "id-1" "cid" "secret" 0%nat twitter_link
              TWITTER "tok1") as [Hfail _];
    [reflexivity | reflexivity | reflexivity | reflexivity|].
  destruct (Hverify env_ok twitter_store "id-1" "cid" "secret" 0%nat twitter_link
              TWITTER "tok1") as [_ Hok];
    [reflexivity | reflexivity | reflexivity | reflexivity|].
  split.
  - destruct Hfail as (H1 & H2 & _); [reflexivity|]. split; assumption.
  - destruct Hok as (H1 & H2 & _); [reflexivity | reflexivity|].
    split; [exact H1|]. split; [exact H2|]. apply Hrefresh.
Defined.
(** ** Frame properties: what a method leaves alone *)

Section StandsFor.
Context (rel : account -> account -> Prop) `{!PreOrder rel}.

Global Instance stands_for_preorder : PreOrder (stands_for rel).
Proof.
  split.
  - intros s j a H. exists a. split; [exact H | reflexivity].
  - intros s1 s2 s3 H12 H23 j a3 H3.
    destruct (H23 j a3 H3) as (a2 & H2 & Hr2).
    destruct (H12 j a2 H2) as (a1 & H1 & Hr1).
    exists a1. split; [exact H1 | etransitivity; eassumption].
Qed.

Lemma stands_for_same s s' :
  rows s' = rows s -> committed s' = committed s -> stands_for rel s s'.
Proof.
  intros Hr Hc j a' H. rewrite Hr, Hc in H. exists a'.
  split; [exact H | reflexivity].
Qed.

Lemma stands_for_log lvl msg : respects (stands_for rel) (log lvl msg).
Proof. intros env s. apply stands_for_same; reflexivity. Qed.

Lemma stands_for_emit e : respects (stands_for rel) (emit e).
Proof. intros env s. apply stands_for_same; reflexivity. Qed.

Lemma stands_for_store i f :
  (forall a, rel a (f a)) -> respects (stands_for rel) (store i f).
Proof.
  intros Hf env s j a' [H|H]; simpl in H.
  - rewrite list_lookup_alter in H. destruct (decide (i = j)) as [->|Hne].
    + destruct (rows s !! j) as [a|] eqn:Ha; simpl in H; [|discriminate].
      injection H as <-. exists a. auto.
    + exists a'. split; [left; exact H | reflexivity].
  - exists a'. split; [right; exact H | reflexivity].
Qed.

Lemma stands_for_commit : respects (stands_for rel) db_commit.
Proof.
  intros env s. unfold after, db_commit, bind, db_check.
  destruct (db_fault env Commit); simpl; [reflexivity|].
  intros j a' H. exists a'. simpl in H. split; [left; tauto | reflexivity].
Qed.

Lemma stands_for_rollback : respects (stands_for rel) db_rollback.
Proof.
  intros env s j a' H. exists a'. simpl in H. split; [right; tauto | reflexivity].
Qed.

(** With nothing pending in the session, the entities of the session
    afterwards stand for entities of the session before. *)
Lemma stands_for_quiescent s s' j a' :
  stands_for rel s s' -> rows s = committed s ->
  rows s' !! j = Some a' ->
  exists a, rows s !! j = Some a /\ rel a a'.
Proof.
  intros H Hq Hj. destruct (H j a') as (a & Ha & Hr); [left; exact Hj|].
  exists a. split; [|exact Hr]. rewrite <- Hq in Ha. tauto.
Qed.

End StandsFor.

Global Instance same_but_credentials_preorder : PreOrder same_but_credentials.
Proof.
  split.
  - intros [] . reflexivity.
  - intros [] [] [] H1 H2. unfold same_but_credentials in *. simpl in *.
    injection H1 as <- <- <- <- <- <- <- <- <-.
    injection H2 as <- <- <- <- <- <- <- <- <-. reflexivity.
Qed.

Global Instance same_but_verification_preorder : PreOrder same_but_verification.
Proof.
  split.
  - intros []. reflexivity.
  - intros [] [] [] H1 H2. unfold same_but_verification in *. simpl in *.
    injection H1 as <- <- <- <- <- <- <- <- <- <-.
    injection H2 as <- <- <- <- <- <- <- <- <- <-. reflexivity.
Qed.

Global Instance same_but_profile_preorder : PreOrder same_but_profile.
Proof.
  split.
  - intros []. reflexivity.
  - intros [] [] [] H1 H2. unfold same_but_profile in *. simpl in *.
    injection H1 as <- <- <- <- <- <- <- <- <- <-.
    injection H2 as <- <- <- <- <- <- <- <- <- <-. reflexivity.
Qed.
Global Instance same_size_preorder : PreOrder same_size.
Proof.
  split.
  - intros s n H. exact H.
  - intros s1 s2 s3 H12 H23 n H. apply H12, H23, H.
Qed.

Lemma same_size_log lvl msg : respects same_size (log lvl msg).
Proof. intros env s n H. exact H. Qed.

Lemma same_size_emit e : respects same_size (emit e).
Proof. intros env s n H. exact H. Qed.

Lemma same_size_store i f : True -> respects same_size (store i f).
Proof. intros _ env s n H. simpl in H. rewrite length_alter in H. exact H. Qed.

Lemma same_size_commit : respects same_size db_commit.
Proof.
  intros env s. unfold after, db_commit, bind, db_check.
  destruct (db_fault env Commit); simpl; [reflexivity|].
  intros n H. simpl in H. tauto.
Qed.

Lemma same_size_rollback : respects same_size db_rollback.
Proof. intros env s n H. simpl in H. tauto. Qed.

Lemma same_size_quiescent s s' :
  same_size s s' -> rows s = committed s -> length (rows s') = length (rows s).
Proof.
  intros H Hq. destruct (H (length (rows s'))) as [E|E]; [left; reflexivity | |];
    rewrite ?Hq; congruence.
Qed.

(** Property X11.  From a session in sync with the database,
    [refresh_all_tokens] neither adds nor removes a row, whatever its input
    and whatever the collaborators do, and each row afterwards is the row at
    the same position before with at most [access_token], [refresh_token]
    and [expires_at] changed. *)
Theorem refresh_all_tokens_only_credentials env s cid cs h :
  rows s = committed s ->
  length (rows (after (AccountService.refresh_all_tokens cid cs h) env s))
    = length (rows s)
  /\ forall j a',
       rows (after (AccountService.refresh_all_tokens cid cs h) env s) !! j = Some a' ->
       exists a, rows s !! j = Some a /\ same_but_credentials a a'.
Proof.
  intros Hq. split.
  - apply same_size_quiescent; [|exact Hq].
    apply (respects_refresh_all_tokens same_size (fun _ => True));
      auto using same_size_log, same_size_store, same_size_commit, same_size_rollback.
  - intros j a'. apply (stands_for_quiescent same_but_credentials); [|exact Hq].
    apply (respects_refresh_all_tokens (stands_for same_but_credentials)
             (fun f => forall a, same_but_credentials a (f a)));
      auto using stands_for_log, stands_for_store, stands_for_commit,
        stands_for_rollback with typeclass_instances.
    intros acc ref exp []. reflexivity.
Qed.

(** Property X3.  From a session in sync with the database, [verify_account]
    neither adds nor removes a row, whatever its input and whatever the
    collaborators do, and each row afterwards is the row at the same
    position before with at most [is_verified] and [last_verified_at]
    changed. *)
Theorem verify_account_only_verification env s account_id cid cs :
  rows s = committed s ->
  length (rows (after (AccountService.verify_account account_id cid cs) env s))
    = length (rows s)
  /\ forall j a',
       rows (after (AccountService.verify_account account_id cid cs) env s) !! j
         = Some a' ->
       exists a, rows s !! j = Some a /\ same_but_verification a a'.
Proof.
  intros Hq. split.
  - apply same_size_quiescent; [|exact Hq].
    apply (respects_verify_account same_size (fun _ => True));
      auto using same_size_log, same_size_emit, same_size_store, same_size_commit,
        same_size_rollback.
  - intros j a'. apply (stands_for_quiescent same_but_verification); [|exact Hq].
    apply (respects_verify_account (stands_for same_but_verification)
             (fun f => forall a, same_but_verification a (f a)));
      auto using stands_for_log, stands_for_emit, stands_for_store, stands_for_commit,
        stands_for_rollback with typeclass_instances.
    intros v t []. reflexivity.
Qed.

(** Property X13.  From a session in sync with the database,
    [refresh_account] neither adds nor removes a row, whatever its input and
    whatever the collaborators do, and each row afterwards is the row at the
    same position before with at most [username] and [display_name] changed. *)
Theorem refresh_account_only_profile env s u p :
  rows s = committed s ->
  length (rows (after (AccountService.refresh_account u p) env s)) = length (rows s)
  /\ forall j a',
       rows (after (AccountService.refresh_account u p) env s) !! j = Some a' ->
       exists a, rows s !! j = Some a /\ same_but_profile a a'.
Proof.
  intros Hq. split.
  - apply same_size_quiescent; [|exact Hq].
    apply (respects_refresh_account same_size (fun _ => True));
      auto using same_size_log, same_size_emit, same_size_store, same_size_commit,
        same_size_rollback.
  - intros j a'. apply (stands_for_quiescent same_but_profile); [|exact Hq].
    apply (respects_refresh_account (stands_for same_but_profile)
             (fun f => forall a, same_but_profile a (f a)));
      auto using stands_for_log, stands_for_emit, stands_for_store, stands_for_commit,
        stands_for_rollback with typeclass_instances.
    + intros v []. reflexivity.
    + intros v []. reflexivity.
Qed.
(** ** Errors and the database *)

Global Instance same_database_preorder : PreOrder same_database.
Proof.
  split.
  - intros s. reflexivity.
  - intros s1 s2 s3 H12 H23. unfold same_database in *. congruence.
Qed.

Lemma same_database_log lvl msg : respects same_database (log lvl msg).
Proof. intros env s. reflexivity. Qed.

Lemma same_database_emit e : respects same_database (emit e).
Proof. intros env s. reflexivity. Qed.

Lemma same_database_store i f : True -> respects same_database (store i f).
Proof. intros _ env s. reflexivity. Qed.

Lemma same_database_delete i : respects same_database (db_delete i).
Proof.
  intros env s. unfold after, db_delete, bind, db_check.
  destruct (db_fault env Delete); reflexivity.
Qed.

Lemma same_database_rollback : respects same_database db_rollback.
Proof. intros env s. reflexivity. Qed.

Lemma commit_is_last_quiet {A} (m : M A) : respects same_database m -> commit_is_last m.
Proof. intros H env s e _. apply H. Qed.

Lemma commit_is_last_bind {A B} (m : M A) (k : A -> M B) :
  respects same_database m -> (forall a, commit_is_last (k a)) ->
  commit_is_last (bind m k).
Proof.
  intros Hm Hk env s e. specialize (Hm env s).
  unfold outcome, after, bind in *.
  destruct (m env s) as [[a|e'] s1]; simpl in *; [|intros _; exact Hm].
  intros H. specialize (Hk a env s1 e H). unfold after in Hk. rewrite Hk. exact Hm.
Qed.

Lemma commit_is_last_then {A B} (m : M A) (k : A -> M B) :
  commit_is_last m -> (forall a, never_raises (k a)) -> commit_is_last (bind m k).
Proof.
  intros Hm Hk env s e. specialize (Hm env s).
  unfold outcome, after, bind in *.
  destruct (m env s) as [[a|e'] s1]; simpl in *.
  - intros H. destruct (Hk a env s1) as (b & Hb). unfold outcome in Hb. congruence.
  - intros _. eapply Hm. reflexivity.
Qed.

Lemma commit_is_last_try_except {A} (m : M A) (h : exn -> M A) :
  commit_is_last m -> (forall e, respects same_database (h e)) ->
  commit_is_last (try_except m h).
Proof.
  intros Hm Hh env s e. specialize (Hm env s).
  unfold outcome, after, try_except in *.
  destruct (m env s) as [[a|e'] s1]; simpl in *; [discriminate|].
  intros _. specialize (Hh e' env s1). unfold same_database, after in Hh.
  rewrite Hh. eapply Hm. reflexivity.
Qed.

Lemma commit_is_last_commit : commit_is_last db_commit.
Proof.
  intros env s e. unfold outcome, after, db_commit, bind, db_check.
  destruct (db_fault env Commit); simpl; [reflexivity | discriminate].
Qed.

Lemma never_raises_ret {A} (a : A) : never_raises (ret a).
Proof. intros env s. exists a. reflexivity. Qed.

Lemma never_raises_log lvl msg : never_raises (log lvl msg).
Proof. intros env s. exists tt. reflexivity. Qed.

Lemma never_raises_close c : never_raises (close c).
Proof. intros env s. exists tt. reflexivity. Qed.

Lemma never_raises_bind {A B} (m : M A) (k : A -> M B) :
  never_raises m -> (forall a, never_raises (k a)) -> never_raises (bind m k).
Proof.
  intros Hm Hk env s. destruct (Hm env s) as (a & Ha).
  unfold outcome, bind in *. destruct (m env s) as [[a'|e] s1]; simpl in *;
    [|discriminate].
  apply Hk.
Qed.

Ltac never_raises_auto :=
  repeat first
    [ apply never_raises_ret | apply never_raises_log | apply never_raises_close
    | apply never_raises_bind; [|intros ?] ].

Ltac same_database_auto :=
  pose proof same_database_log; pose proof same_database_emit;
  pose proof same_database_store; pose proof same_database_delete;
  pose proof same_database_rollback;
  respects_auto;
  solve [ apply (respects_on_error same_database); auto
        | apply (respects_get_access_token same_database)
        | apply (respects_create_client same_database); auto
        | apply (respects_client_ownership same_database); auto
        | apply (respects_mark_verified same_database (fun _ => True)); auto
        | apply (respects_refresh_loop same_database (fun _ => True)); auto
        | apply I ].

Lemma unlink_account_commit_is_last a u cid cs rv :
  commit_is_last (AccountService.unlink_account a u cid cs rv).
Proof.
  unfold AccountService.unlink_account, AccountService._get_account_by_id.
  apply commit_is_last_try_except; [|intros e; same_database_auto].
  apply commit_is_last_bind; [same_database_auto|]. intros [i|];
    [|apply commit_is_last_quiet; same_database_auto].
  apply commit_is_last_bind; [same_database_auto|]. intros account.
  destruct (negb _); [apply commit_is_last_quiet; same_database_auto|].
  apply commit_is_last_bind; [same_database_auto|]. intros _.
  apply commit_is_last_bind; [same_database_auto|]. intros _.
  apply commit_is_last_then; [apply commit_is_last_commit|].
  intros _. never_raises_auto.
Qed.

Lemma disconnect_account_commit_is_last u p :
  commit_is_last (AccountService.disconnect_account u p).
Proof.
  unfold AccountService.disconnect_account. lazy zeta.
  apply commit_is_last_try_except; [|intros e; same_database_auto].
  apply commit_is_last_bind; [same_database_auto|]. intros [i|];
    [|apply commit_is_last_quiet; same_database_auto].
  apply commit_is_last_bind; [same_database_auto|]. intros account.
  apply commit_is_last_bind; [same_database_auto|]. intros _.
  apply commit_is_last_then; [apply commit_is_last_commit|].
  intros _. never_raises_auto.
Qed.

Lemma refresh_all_tokens_commit_is_last cid cs h :
  commit_is_last (AccountService.refresh_all_tokens cid cs h).
Proof.
  unfold AccountService.refresh_all_tokens. lazy zeta.
  apply commit_is_last_try_except; [|intros e; same_database_auto].
  apply commit_is_last_bind; [same_database_auto|]. intros env0.
  apply commit_is_last_bind; [same_database_auto|]. intros delta.
  apply commit_is_last_bind; [same_database_auto|]. intros threshold.
  apply commit_is_last_bind; [same_database_auto|]. intros accounts.
  apply commit_is_last_bind; [same_database_auto|]. intros stats.
  apply commit_is_last_then; [apply commit_is_last_commit|].
  intros _. never_raises_auto.
Qed.

Lemma verify_account_commit_is_last a cid cs :
  commit_is_last (AccountService.verify_account a cid cs).
Proof.
  unfold AccountService.verify_account, AccountService._get_account_by_id.
  apply commit_is_last_try_except; [|intros e; same_database_auto].
  apply commit_is_last_bind; [same_database_auto|]. intros [i|];
    [|apply commit_is_last_quiet; same_database_auto].
  apply commit_is_last_bind; [same_database_auto|]. intros account.
  apply commit_is_last_bind; [same_database_auto|]. intros platform.
  apply commit_is_last_bind; [same_database_auto|]. intros access_token.
  apply commit_is_last_bind; [same_database_auto|]. intros [client|];
    [|apply commit_is_last_quiet; same_database_auto].
  apply commit_is_last_bind; [same_database_auto|]. intros is_verified.
  apply commit_is_last_then; [|intros _; never_raises_auto].
  destruct is_verified; [|apply commit_is_last_quiet; same_database_auto].
  apply commit_is_last_bind; [same_database_auto|]. intros _.
  apply commit_is_last_then; [apply commit_is_last_commit|].
  intros _. never_raises_auto.
Qed.

(** Property X5.  Whenever [verify_account], [unlink_account],
    [disconnect_account] or [refresh_all_tokens] raises, the committed
    database is exactly what it was before the call: in these methods the
    commit is the last database write, so no failure path leaves a partial
    commit. *)
Theorem errors_leave_database_alone :
  (forall env s a cid cs e,
     outcome (AccountService.verify_account a cid cs) env s = Raise e ->
     committed (after (AccountService.verify_account a cid cs) env s) = committed s)
  /\ (forall env s a u cid cs rv e,
        outcome (AccountService.unlink_account a u cid cs rv) env s = Raise e ->
        committed (after (AccountService.unlink_account a u cid cs rv) env s)
          = committed s)
  /\ (forall env s u p e,
        outcome (AccountService.disconnect_account u p) env s = Raise e ->
        committed (after (AccountService.disconnect_account u p) env s) = committed s)
  /\ (forall env s cid cs h e,
        outcome (AccountService.refresh_all_tokens cid cs h) env s = Raise e ->
        committed (after (AccountService.refresh_all_tokens cid cs h) env s)
          = committed s).
Proof.
  split; [|split; [|split]].
  - intros env s a cid cs. apply verify_account_commit_is_last.
  - intros env s a u cid cs rv. apply unlink_account_commit_is_last.
  - intros env s u p. apply disconnect_account_commit_is_last.
  - intros env s cid cs h. apply refresh_all_tokens_commit_is_last.
Qed.
(** ** More on the queries *)

Lemma positions_from_first P n (l : list account) i a :
  l !! i = Some a -> P a = true ->
  (forall j b, (j < i)%nat -> l !! j = Some b -> P b = false) ->
  head (positions_from P n l) = Some (n + i)%nat.
Proof.
  revert n i. induction l as [|b l IH]; intros n i Hi Ha Hmin; [discriminate|].
  simpl. destruct i as [|i].
  - simpl in Hi. injection Hi as ->. rewrite Ha. simpl. f_equal. lia.
  - rewrite (Hmin 0%nat b) by (simpl; auto; lia). simpl in Hi.
    rewrite (IH (S n) i Hi Ha).
    + f_equal. lia.
    + intros j c Hj Hc. apply (Hmin (S j) c); [lia | exact Hc].
Qed.

Lemma positions_first P (l : list account) i a :
  l !! i = Some a -> P a = true ->
  (forall j b, (j < i)%nat -> l !! j = Some b -> P b = false) ->
  head (positions P l) = Some i.
Proof. intros. unfold positions. erewrite positions_from_first; eauto. Qed.

Lemma positions_from_sorted P n (l : list account) :
  StronglySorted lt (positions_from P n l).
Proof.
  revert n. induction l as [|b l IH]; intros n; simpl; [constructor|].
  destruct (P b); [|apply IH].
  constructor; [apply IH|].
  apply Forall_forall. intros i Hi.
  apply positions_from_elem in Hi as (a & Hle & _). lia.
Qed.

Lemma lower_value p : lower (value p) = value p.
Proof. destruct p; reflexivity. Qed.

Lemma lower_ascii_idempotent c : lower_ascii (lower_ascii c) = lower_ascii c.
Proof.
  destruct c as [[] [] [] [] [] [] [] []]; reflexivity.
Qed.

Lemma lower_idempotent s : lower (lower s) = lower s.
Proof.
  induction s as [|c s IH]; [reflexivity|]. simpl.
  rewrite lower_ascii_idempotent, IH. reflexivity.
Qed.

(** *** [get_user_accounts] *)

Lemma get_user_accounts_run env s u platform verified_only :
  run (AccountService.get_user_accounts u platform verified_only) env s =
  match db_fault env Execute with
  | Some msg =>
      (Raise (ValueError ("Failed to get user accounts: " ++ msg)),
       {| rows := rows s; committed := committed s;
          trace := Log ERROR "Failed to get user accounts" :: trace s |})
  | None =>
      (Ok (positions (listed u platform verified_only) (rows s)),
       {| rows := rows s; committed := committed s;
          trace := Log INFO "Retrieved user accounts" :: trace s |})
  end.
Proof.
  unfold AccountService.get_user_accounts. run_unfold.
  destruct (db_fault env Execute); reflexivity.
Qed.

Lemma listed_spec u platform verified_only a :
  listed u platform verified_only a = true <->
  SocialAccount.user_id a = u
  /\ (forall p, platform = Some p -> SocialAccount.platform a = value p)
  /\ (verified_only = true -> SocialAccount.is_verified a = true).
Proof.
  unfold listed. rewrite !andb_true_iff, String.eqb_eq. split.
  - intros [[Hu Hp] Hv]. split; [exact Hu|]. split.
    + intros p ->. apply String.eqb_eq. exact Hp.
    + intros ->. exact Hv.
  - intros (Hu & Hp & Hv). split; [split; [exact Hu|]|].
    + destruct platform as [p|]; [|reflexivity].
      apply String.eqb_eq. apply Hp. reflexivity.
    + destruct verified_only; [apply Hv; reflexivity | reflexivity].
Qed.

(** Property X9.  [get_user_accounts] never changes the session or the
    database; when the query succeeds it returns, in store order and without
    repetition, exactly the rows of the user, restricted to the platform
    when one is given and to verified rows when [verified_only] is set; when
    the query fails it raises a [ValueError] with the prefix of the handler
    and the message of the driver. *)
Theorem get_user_accounts_spec env s u platform verified_only :
  let m := AccountService.get_user_accounts u platform verified_only in
  rows (after m env s) = rows s
  /\ committed (after m env s) = committed s
  /\ (db_fault env Execute = None ->
      exists l,
        outcome m env s = Ok l
        /\ StronglySorted lt l
        /\ forall i,
             i ∈ l <->
             exists a,
               rows s !! i = Some a
               /\ SocialAccount.user_id a = u
               /\ (forall p, platform = Some p -> SocialAccount.platform a = value p)
               /\ (verified_only = true -> SocialAccount.is_verified a = true))
  /\ (forall msg,
        db_fault env Execute = Some msg ->
        outcome m env s = Raise (ValueError ("Failed to get user accounts: " ++ msg))).
Proof.
  intros m. subst m. rewrite !after_run, outcome_run, get_user_accounts_run.
  destruct (db_fault env Execute) as [msg|] eqn:Hex; simpl.
  - repeat split; try discriminate. intros msg' H. injection H as <-. reflexivity.
  - repeat split; try discriminate.
    intros _. eexists. split; [reflexivity|]. split; [apply positions_from_sorted|].
    intros i. rewrite positions_elem. split.
    + intros (a & Ha & Hl). exists a. split; [exact Ha|]. apply listed_spec, Hl.
    + intros (a & Ha & Hl). exists a. split; [exact Ha|]. apply listed_spec, Hl.
Qed.
(** *** [link_account], a new link *)

Lemma free_identity_head p a (l : list account) :
  (forall e, e ∈ l -> SocialAccount.key e <> (value p, a)) ->
  head (positions (linked_as p a) l) = None.
Proof.
  intros H. rewrite positions_nil; [reflexivity|].
  intros e He. destruct (linked_as p a e) eqn:E; [|reflexivity].
  apply linked_as_key in E. destruct (H e He E).
Qed.

Lemma link_account_new_run env s u p a tok rt ex sc un dn :
  db_fault env Execute = None ->
  (forall e, e ∈ rows s -> SocialAccount.key e <> (value p, a)) ->
  run (AccountService.link_account u p a tok rt ex sc un dn) env s =
  match db_fault env Commit with
  | Some msg =>
      (Raise (ValueError ("Failed to link account: " ++ msg)),
       {| rows := committed s; committed := committed s;
          trace := Log ERROR "Failed to link account" :: trace s |})
  | None =>
      match db_fault env Refresh with
      | Some msg =>
          (Raise (ValueError ("Failed to link account: " ++ msg)),
           {| rows := rows s ++ [new_link env u p a tok rt ex sc un dn];
              committed := rows s ++ [new_link env u p a tok rt ex sc un dn];
              trace := Log ERROR "Failed to link account" :: trace s |})
      | None =>
          (Ok (new_link env u p a tok rt ex sc un dn),
           {| rows := rows s ++ [new_link env u p a tok rt ex sc un dn];
              committed := rows s ++ [new_link env u p a tok rt ex sc un dn];
              trace := Log INFO "Account linked successfully" :: trace s |})
      end
  end.
Proof.
  intros Hex Hfree. pose proof (free_identity_head p a (rows s) Hfree) as Hhead.
  unfold linked_as in Hhead.
  unfold AccountService.link_account, AccountService._check_duplicate_account.
  run_unfold. rewrite Hex. run_unfold. rewrite Hhead. run_unfold.
  destruct (db_fault env Commit); run_unfold; [reflexivity|].
  destruct (db_fault env Refresh); run_unfold; [reflexivity|].
  rewrite lookup_app_r, Nat.sub_diag by lia. reflexivity.
Qed.

Lemma link_account_creates_link_aux env s u p a tok rt ex sc un dn :
  (forall op, db_fault env op = None) ->
  (forall e, e ∈ rows s -> SocialAccount.key e <> (value p, a)) ->
  outcome (AccountService.link_account u p a tok rt ex sc un dn) env s
    = Ok (new_link env u p a tok rt ex sc un dn)
  /\ rows (after (AccountService.link_account u p a tok rt ex sc un dn) env s)
     = (rows s ++ [new_link env u p a tok rt ex sc un dn])%list.
Proof.
  intros Hdb Hfree.
  rewrite outcome_run, !after_run, link_account_new_run by auto.
  rewrite !Hdb. auto.
Qed.

(** Property X1.  When no link with the same (platform, account_id) exists
    and every database call succeeds, [link_account] appends exactly one new
    entity to the session, commits it and returns it.  The entity is
    unverified with no verification time, its access token is stored
    encrypted, and its refresh token is stored encrypted when a non-empty
    one is given; [None] and the empty string store no refresh token. *)
Theorem link_account_creates_link env s u p a tok rt ex sc un dn :
  (forall op, db_fault env op = None) ->
  (forall e, e ∈ rows s -> SocialAccount.key e <> (value p, a)) ->
  let m := AccountService.link_account u p a tok rt ex sc un dn in
  let e' := new_link env u p a tok rt ex sc un dn in
  outcome m env s = Ok e'
  /\ rows (after m env s) = (rows s ++ [e'])%list
  /\ committed (after m env s) = (rows s ++ [e'])%list
  /\ SocialAccount.is_verified e' = false
  /\ SocialAccount.last_verified_at e' = None
  /\ SocialAccount.access_token e' = encrypt_token env tok
  /\ (rt = None \/ rt = Some "" -> SocialAccount.refresh_token e' = None)
  /\ (forall r, rt = Some r -> r <> "" ->
        SocialAccount.refresh_token e' = Some (encrypt_token env r)).
Proof.
  intros Hdb Hfree m e'. subst m e'.
  rewrite outcome_run, !after_run, link_account_new_run by auto.
  rewrite !Hdb. simpl. repeat split.
  - intros [-> | ->]; reflexivity.
  - intros r -> Hr. apply String.eqb_neq in Hr. simpl. rewrite Hr. reflexivity.
Qed.

(** Property X2.  If re-reading the new entity after the commit fails,
    [link_account] raises a [ValueError] whose message is the prefix of the
    handler followed by the message of the driver, yet the new link is in
    the committed database: the rollback of the handler comes after the
    commit and does not undo it. *)
Theorem link_account_error_after_commit env s u p a tok rt ex sc un dn msg :
  db_fault env Execute = None ->
  db_fault env Commit = None ->
  db_fault env Refresh = Some msg ->
  (forall e, e ∈ rows s -> SocialAccount.key e <> (value p, a)) ->
  let m := AccountService.link_account u p a tok rt ex sc un dn in
  outcome m env s = Raise (ValueError ("Failed to link account: " ++ msg))
  /\ committed (after m env s)
     = (rows s ++ [new_link env u p a tok rt ex sc un dn])%list.
Proof.
  intros Hex Hco Hre Hfree m. subst m.
  rewrite outcome_run, !after_run, link_account_new_run by auto.
  rewrite Hco, Hre. auto.
Qed.

(** *** [disconnect_account] *)

Lemma owned_by_name_spec u name a :
  owned_by_name u name a = true <->
  SocialAccount.user_id a = u /\ SocialAccount.platform a = lower name.
Proof. unfold owned_by_name. rewrite andb_true_iff, !String.eqb_eq. tauto. Qed.

Lemma owned_by_name_false u name a :
  ~ (SocialAccount.user_id a = u /\ SocialAccount.platform a = lower name) ->
  owned_by_name u name a = false.
Proof.
  intros H. destruct (owned_by_name u name a) eqn:E; [|reflexivity].
  apply owned_by_name_spec in E. destruct (H E).
Qed.

Lemma disconnect_account_found_run env s u platform i acc :
  (forall op, db_fault env op = None) ->
  head (positions (owned_by_name u platform) (rows s)) = Some i ->
  rows s !! i = Some acc ->
  run (AccountService.disconnect_account u platform) env s =
  (Ok acc,
   {| rows := delete i (rows s); committed := delete i (rows s);
      trace := Log INFO "Account disconnected successfully" :: trace s |}).
Proof.
  intros Hdb Hhead Hi. unfold owned_by_name in Hhead.
  unfold AccountService.disconnect_account. run_unfold.
  rewrite !Hdb. run_unfold. rewrite Hhead. run_unfold. rewrite Hi. run_unfold.
  rewrite !Hdb. reflexivity.
Qed.

(** Property X7.  [disconnect_account] compares the lower-cased platform
    name: when the database calls succeed it deletes the first row of the
    user on that platform, commits the deletion and returns the entity; when
    the user has no row on that platform it raises a [ValueError] naming the
    platform as it was given and leaves session and database unchanged. *)
Theorem disconnect_account_spec env s u platform :
  let m := AccountService.disconnect_account u platform in
  (forall i acc,
     (forall op, db_fault env op = None) ->
     rows s !! i = Some acc ->
     SocialAccount.user_id acc = u ->
     SocialAccount.platform acc = lower platform ->
     (forall j b, (j < i)%nat -> rows s !! j = Some b ->
        ~ (SocialAccount.user_id b = u /\ SocialAccount.platform b = lower platform)) ->
     outcome m env s = Ok acc
     /\ rows (after m env s) = delete i (rows s)
     /\ committed (after m env s) = delete i (rows s))
  /\ (db_fault env Execute = None ->
      (forall a, a ∈ rows s ->
         ~ (SocialAccount.user_id a = u /\ SocialAccount.platform a = lower platform)) ->
      outcome m env s = Raise (ValueError ("No " ++ platform ++ " account found for user"))
      /\ rows (after m env s) = rows s
      /\ committed (after m env s) = committed s).
Proof.
  intros m. subst m. split.
  - intros i acc Hdb Hi Hu Hp Hmin.
    rewrite outcome_run, !after_run.
    rewrite (disconnect_account_found_run env s u platform i acc); auto.
    apply (positions_first _ _ i acc); [exact Hi | apply owned_by_name_spec; auto|].
    intros j b Hj Hb. apply owned_by_name_false. eauto.
  - intros Hex Hnone.
    assert (head (positions (owned_by_name u platform) (rows s)) = None) as Hhead.
    { rewrite positions_nil; [reflexivity|].
      intros a Ha. apply owned_by_name_false. auto. }
    unfold owned_by_name in Hhead.
    unfold AccountService.disconnect_account. run_unfold.
    rewrite Hex. run_unfold. rewrite Hhead. run_unfold. auto.
Qed.

(** Property X8.  Round trip: starting from a store in sync with the
    database where the account is not linked and the user has no link on the
    platform, [link_account] followed by [disconnect_account] for the same
    user and platform returns the very entity [link_account] returned and
    restores the rows and the committed rows of the original store. *)
Theorem disconnect_undoes_link env env' s u p a tok rt ex sc un dn :
  (forall op, db_fault env op = None) ->
  (forall op, db_fault env' op = None) ->
  rows s = committed s ->
  (forall e, e ∈ rows s -> SocialAccount.key e <> (value p, a)) ->
  (forall e, e ∈ rows s ->
     ~ (SocialAccount.user_id e = u /\ SocialAccount.platform e = value p)) ->
  let s1 := after (AccountService.link_account u p a tok rt ex sc un dn) env s in
  outcome (AccountService.disconnect_account u (value p)) env' s1
    = outcome (AccountService.link_account u p a tok rt ex sc un dn) env s
  /\ rows (after (AccountService.disconnect_account u (value p)) env' s1) = rows s
  /\ committed (after (AccountService.disconnect_account u (value p)) env' s1)
     = committed s.
Proof.
  intros Hdb Hdb' Hq Hfree Hnone s1.
  destruct (link_account_creates_link_aux env s u p a tok rt ex sc un dn Hdb Hfree)
    as (Hout & Hrows).
  subst s1. rewrite Hout.
  set (e' := new_link env u p a tok rt ex sc un dn) in *.
  set (s1 := after (AccountService.link_account u p a tok rt ex sc un dn) env s) in *.
  assert (rows s1 !! length (rows s) = Some e') as Hlast.
  { rewrite Hrows, lookup_app_r, Nat.sub_diag by lia. reflexivity. }
  assert (head (positions (owned_by_name u (value p)) (rows s1))
          = Some (length (rows s))) as Hhead.
  { apply (positions_first _ _ _ e'); [exact Hlast | |].
    - apply owned_by_name_spec. rewrite lower_value. split; reflexivity.
    - intros j b Hj Hb. rewrite Hrows, lookup_app_l in Hb by exact Hj.
      apply owned_by_name_false. rewrite lower_value.
      apply Hnone. apply list_elem_of_lookup. eauto. }
  rewrite outcome_run, !after_run.
  rewrite (disconnect_account_found_run env' s1 u (value p) (length (rows s)) e'
             Hdb' Hhead Hlast).
  simpl. rewrite Hrows.
  assert (delete (length (rows s)) (rows s ++ [e'])%list = rows s) as ->.
  { rewrite delete_take_drop, take_app_length.
    rewrite drop_ge by (rewrite length_app; simpl; lia). apply app_nil_r. }
  auto.
Qed.
Lemma run_try_except_bind {A B} (m : M A) (k : A -> M B) (h : exn -> M B) env s :
  run (try_except (bind m k) h) env s =
  match run m env s with
  | (Ok x, s1) => run (try_except (k x) h) env s1
  | (Raise e, s1) => run (h e) env s1
  end.
Proof.
  unfold run, try_except, bind.
  destruct (m env s) as [[x|e] s1]; reflexivity.
Qed.

(** *** Links that are not there *)

Lemma no_such_id_head account_id (l : list account) :
  (forall a, a ∈ l -> SocialAccount.id a <> account_id) ->
  head (positions (fun a => String.eqb (SocialAccount.id a) account_id) l) = None.
Proof.
  intros H. rewrite positions_nil; [reflexivity|].
  intros a Ha. apply String.eqb_neq. auto.
Qed.

(** Property X6.  With a working query, [verify_account] and
    [unlink_account] for an id that no row has, and [refresh_account] for a
    user without a link on the platform, raise the [ValueError] of the
    method itself: it passes the handlers unchanged (no prefix, no
    rollback), session and database are untouched, and the only trace is the
    error record of the method (preceded, for [refresh_account], by the info
    record of [get_user_accounts]). *)
Theorem missing_link_errors env s :
  db_fault env Execute = None ->
  (forall account_id cid cs,
     (forall a, a ∈ rows s -> SocialAccount.id a <> account_id) ->
     run (AccountService.verify_account account_id cid cs) env s
     = (Raise (ValueError ("Account " ++ account_id ++ " not found")),
        {| rows := rows s; committed := committed s;
           trace := Log ERROR "Account not found for verification" :: trace s |}))
  /\ (forall account_id u cid cs rv,
        (forall a, a ∈ rows s -> SocialAccount.id a <> account_id) ->
        run (AccountService.unlink_account account_id u cid cs rv) env s
        = (Raise (ValueError ("Account " ++ account_id ++ " not found")),
           {| rows := rows s; committed := committed s;
              trace := Log ERROR "Account not found for unlinking" :: trace s |}))
  /\ (forall u p,
        (forall a, a ∈ rows s ->
           ~ (SocialAccount.user_id a = u /\ SocialAccount.platform a = value p)) ->
        run (AccountService.refresh_account u p) env s
        = (Raise (ValueError ("No " ++ value p ++ " account found for user")),
           {| rows := rows s; committed := committed s;
              trace := Log ERROR "Account not found for refresh"
                       :: Log INFO "Retrieved user accounts" :: trace s |})).
Proof.
  intros Hex. split; [|split].
  - intros account_id cid cs Hnone.
    pose proof (no_such_id_head account_id (rows s) Hnone) as Hhead.
    unfold AccountService.verify_account, AccountService._get_account_by_id.
    run_unfold. rewrite Hex. run_unfold. rewrite Hhead. reflexivity.
  - intros account_id u cid cs rv Hnone.
    pose proof (no_such_id_head account_id (rows s) Hnone) as Hhead.
    unfold AccountService.unlink_account, AccountService._get_account_by_id.
    run_unfold. rewrite Hex. run_unfold. rewrite Hhead. reflexivity.
  - intros u p Hnone.
    assert (positions (listed u (Some p) false) (rows s) = []) as Hpos.
    { apply positions_nil. intros a Ha.
      destruct (listed u (Some p) false a) eqn:E; [|reflexivity].
      apply listed_spec in E as (Hu & Hp & _). destruct (Hnone a Ha). auto. }
    unfold AccountService.refresh_account.
    rewrite run_try_except_bind, get_user_accounts_run, Hex, Hpos. reflexivity.
Qed.

(** *** [refresh_account], the overlay *)

Lemma py_get_obj fields k : py_get (JObj fields) k = Ok (default JNull (assoc k fields)).
Proof. unfold py_get, py_get_default. destruct (assoc k fields); reflexivity. Qed.

Lemma field_update_cases v old new :
  field_update v old = Some new ->
  (truthy v = false /\ new = old)
  \/ (exists t, v = JStr t /\ truthy v = true /\ new = Some t).
Proof.
  unfold field_update. destruct (truthy v) eqn:Ht.
  - destruct v; try discriminate. intros H. injection H as <-. right. eauto.
  - intros H. injection H as <-. left. auto.
Qed.

Lemma client_profile_reads_env_only c :
  reads_env_only (client_get_user_profile c).
Proof.
  unfold client_get_user_profile.
  destruct (cl_platform c) eqn:Hp;
    first [ apply tiktok_profile_reads_env_only
          | apply youtube_profile_reads_env_only
          | intros env; eexists _, []; intros s; rewrite state_eta; reflexivity ].
Qed.

Lemma client_profile_run c env s s1 r :
  outcome (client_get_user_profile c) env s = r ->
  exists evs,
    client_get_user_profile c env s1 =
    (r, {| rows := rows s1; committed := committed s1; trace := evs ++ trace s1 |}).
Proof.
  intros Hb. destruct (client_profile_reads_env_only c env) as (r' & evs & Hr).
  unfold outcome in Hb. rewrite Hr in Hb. simpl in Hb. subst r'.
  exists evs. apply Hr.
Qed.

Lemma set_same_username (a : account) :
  SocialAccount.set_username (SocialAccount.username a) a = a.
Proof. destruct a. reflexivity. Qed.

Lemma set_same_display_name (a : account) :
  SocialAccount.set_display_name (SocialAccount.display_name a) a = a.
Proof. destruct a. reflexivity. Qed.

Lemma alter_insert_lookup (f : account -> account) (i : nat) (l : list account) a :
  l !! i = Some a -> alter f i l = <[i := f a]> l.
Proof.
  intros Hi. rewrite list_insert_alter. apply list_eq. intros j.
  rewrite !list_lookup_alter.
  destruct (decide (i = j)) as [<-|]; [|reflexivity].
  rewrite Hi. reflexivity.
Qed.

(** Property X12.  When the first link of the user on the platform is found,
    its access token decrypts, the client returns a profile object and
    commit and refresh succeed, [refresh_account] sets [username] to the
    username of the profile when that is a non-empty string, and
    [display_name] to the name of the profile, or to its display name when
    the name is empty or absent, when that is a non-empty string; a field
    whose profile value is empty or absent keeps its stored value; the
    updated entity is committed at its position and returned. *)
Theorem refresh_account_overlays_profile env s u p i rest acc tok fields un' dn' :
  outcome (AccountService.get_user_accounts u (Some p) false) env s = Ok (i :: rest) ->
  rows s !! i = Some acc ->
  decrypt_token env (SocialAccount.access_token acc) = Ok tok ->
  outcome (client_get_user_profile {| cl_platform := p; cl_token := tok |}) env s
    = Ok (JObj fields) ->
  db_fault env Commit = None ->
  db_fault env Refresh = None ->
  field_update (default JNull (assoc "username" fields)) (SocialAccount.username acc)
    = Some un' ->
  field_update (shown_name fields) (SocialAccount.display_name acc) = Some dn' ->
  let m := AccountService.refresh_account u p in
  let acc' := SocialAccount.set_display_name dn' (SocialAccount.set_username un' acc) in
  outcome m env s = Ok acc'
  /\ rows (after m env s) = <[i := acc']> (rows s)
  /\ committed (after m env s) = <[i := acc']> (rows s).
Proof.
  intros Hlist Hi Hdec Hprof Hco Hre Hun Hdn m acc'. subst m.
  rewrite outcome_run in Hlist. rewrite get_user_accounts_run in Hlist.
  destruct (db_fault env Execute) eqn:Hex; [discriminate|].
  simpl in Hlist. injection Hlist as Hpos.
  unfold AccountService.refresh_account.
  rewrite outcome_run, !after_run.
  rewrite run_try_except_bind, get_user_accounts_run, Hex, Hpos.
  run_unfold. rewrite Hi, Hdec. run_unfold.
  destruct (create_client_run p tok env
              {| rows := rows s; committed := committed s;
                 trace := Log INFO "Retrieved user accounts" :: trace s |})
    as (s1 & -> & Hr1 & Hc1 & _ & _).
  destruct (client_profile_run {| cl_platform := p; cl_token := tok |}
              env s s1 _ Hprof) as (evs & ->).
  simpl in Hr1, Hc1. run_unfold. rewrite !py_get_obj. run_unfold.
  unfold shown_name in Hdn.
  remember (default JNull (assoc "username" fields)) as vu eqn:Evu.
  remember (default JNull (assoc "name" fields)) as vn eqn:Evn.
  remember (default JNull (assoc "display_name" fields)) as vd eqn:Evd.
  clear Evu Evn Evd.
  apply field_update_cases in Hun as [[Htu ->] | (tu & -> & Htu & ->)];
    rewrite Htu; run_unfold;
    (destruct (truthy vn) eqn:Htn; run_unfold;
     apply field_update_cases in Hdn as [[Htd ->] | (td & -> & Htd & ->)];
     try congruence; rewrite Htd; run_unfold;
     cbn [AccountService.column_text]; rewrite Hco, Hre; run_unfold;
     rewrite ?Hr1, ?list_alter_alter_eq, ?list_lookup_alter_eq, ?Hi; cbn [fmap option_fmap option_map];
     subst acc'; rewrite ?set_same_username, ?set_same_display_name;
     rewrite ?(alter_insert_lookup _ _ _ _ Hi), ?(list_insert_id _ _ _ Hi);
     repeat split; reflexivity).
Qed.
(** ** The refresh batch in general *)

Lemma refresh_one_verdict cid cs i st env s a :
  rows s !! i = Some a ->
  AccountService.refresh_one cid cs i st env s =
  match verdict env cid cs a with
  | Refreshed td =>
      (Ok (AccountService.bump_success st),
       {| rows := <[i := refreshed env td a]> (rows s); committed := committed s;
          trace := Log INFO "Token refreshed" :: trace s |})
  | Failed =>
      (Ok (AccountService.bump_failed st),
       {| rows := rows s; committed := committed s;
          trace := Log ERROR "Failed to refresh token" :: trace s |})
  | Skipped => (Ok (AccountService.bump_skipped st), s)
  end.
Proof.
  intros Hi. unfold verdict.
  destruct (Platform_of (SocialAccount.platform a)) as [p|e] eqn:Hp.
  2:{ unfold AccountService.refresh_one, AccountService.refresh_try. run_unfold. rewrite Hi. run_unfold.
      rewrite Hp. reflexivity. }
  destruct (supports_refresh_token env p) eqn:Hsup.
  2:{ unfold AccountService.refresh_one, AccountService.refresh_try. run_unfold. rewrite Hi. run_unfold.
      rewrite Hp. run_unfold. rewrite Hsup. reflexivity. }
  destruct (SocialAccount.refresh_token a) as [c|] eqn:Hc.
  2:{ unfold AccountService.refresh_one, AccountService.refresh_try. run_unfold. rewrite Hi. run_unfold.
      rewrite Hp. run_unfold. rewrite Hsup. run_unfold. rewrite Hi. run_unfold.
      rewrite Hc. reflexivity. }
  destruct (decrypt_token env c) as [rt|e] eqn:Hdec.
  2:{ unfold AccountService.refresh_one, AccountService.refresh_try. run_unfold. rewrite Hi. run_unfold.
      rewrite Hp. run_unfold. rewrite Hsup. run_unfold. rewrite Hi. run_unfold.
      rewrite Hc. run_unfold. rewrite Hdec. reflexivity. }
  destruct (String.eqb rt "") eqn:Hrt.
  { unfold AccountService.refresh_one, AccountService.refresh_try. run_unfold. rewrite Hi. run_unfold.
    rewrite Hp. run_unfold. rewrite Hsup. run_unfold. rewrite Hi. run_unfold.
    rewrite Hc. run_unfold. rewrite Hdec. run_unfold. cbn [truthy_opt].
    rewrite Hrt. reflexivity. }
  apply String.eqb_neq in Hrt.
  assert (refreshable env a) as Hr by (exists p, c, rt; auto).
  assert (provider_call env cid cs a = oauth_refresh_token env p rt cid cs) as Hcall
    by (unfold provider_call; rewrite Hp, Hc, Hdec; reflexivity).
  destruct (oauth_refresh_token env p rt cid cs) as [td|e].
  - apply refresh_one_success; assumption.
  - eapply refresh_one_failure; eassumption.
Qed.

Lemma count_verdicts_cons kind env cid cs (r : list account) i (l : list nat) :
  count_verdicts kind env cid cs r (i :: l) =
  ((if kind (judged env cid cs r i) then 1 else 0)
   + count_verdicts kind env cid cs r l)%nat.
Proof.
  unfold count_verdicts. rewrite filter_cons.
  destruct (kind (judged env cid cs r i)); reflexivity.
Qed.

Lemma count_verdicts_ext kind env cid cs (r1 r2 : list account) (l : list nat) :
  (forall i, i ∈ l -> r1 !! i = r2 !! i) ->
  count_verdicts kind env cid cs r1 l = count_verdicts kind env cid cs r2 l.
Proof.
  induction l as [|i l IH]; intros H; [reflexivity|].
  rewrite !count_verdicts_cons.
  assert (judged env cid cs r1 i = judged env cid cs r2 i) as ->
    by (unfold judged; rewrite (H i) by left; reflexivity).
  rewrite IH by (intros j Hj; apply H; right; exact Hj).
  reflexivity.
Qed.

Lemma settled_here env cid cs i l a :
  settled env cid cs (i :: l) i a =
  match verdict env cid cs a with
  | Refreshed td => refreshed env td a
  | _ => a
  end.
Proof. unfold settled. rewrite bool_decide_eq_true_2 by left. reflexivity. Qed.

Lemma settled_other env cid cs i l j a :
  i <> j -> settled env cid cs (i :: l) j a = settled env cid cs l j a.
Proof.
  intros Hne. unfold settled.
  destruct (decide (j ∈ l)) as [Hin|Hnin].
  - rewrite !bool_decide_eq_true_2; [reflexivity | exact Hin | right; exact Hin].
  - rewrite !bool_decide_eq_false_2; [reflexivity | exact Hnin |].
    intros Hin. apply elem_of_cons in Hin as [->|Hin]; [congruence | auto].
Qed.

Lemma settled_absent env cid cs l j a : j ∉ l -> settled env cid cs l j a = a.
Proof. intros H. unfold settled. rewrite bool_decide_eq_false_2 by exact H. reflexivity. Qed.

Lemma refresh_loop_tally cid cs env (l : list nat) :
  forall st s,
    NoDup l ->
    (forall i, i ∈ l -> is_Some (rows s !! i)) ->
    exists s',
      AccountService.refresh_loop cid cs l st env s =
      (Ok {| success := success st + count_verdicts is_refreshed env cid cs (rows s) l;
             failed := failed st + count_verdicts is_failed env cid cs (rows s) l;
             skipped := skipped st + count_verdicts is_skipped env cid cs (rows s) l |},
       s')
      /\ committed s' = committed s
      /\ forall j, rows s' !! j = settled env cid cs l j <$> rows s !! j.
Proof.
  induction l as [|i l IH]; intros st s Hnd Hc.
  - exists s. simpl. split; [|split; [reflexivity|]].
    + destruct st. unfold count_verdicts. simpl. rewrite !Nat.add_0_r. reflexivity.
    + intros j. destruct (rows s !! j); reflexivity.
  - apply NoDup_cons in Hnd as [Hi Hnd].
    destruct (Hc i) as (a & Ha); [left|].
    assert (forall s1, (forall j, j <> i -> rows s1 !! j = rows s !! j) ->
              (forall k, k ∈ l -> is_Some (rows s1 !! k))
              /\ forall kind, count_verdicts kind env cid cs (rows s1) l
                              = count_verdicts kind env cid cs (rows s) l)
      as Hrest.
    { intros s1 Hs1. split.
      - intros k Hk. rewrite Hs1 by (intros ->; auto). apply Hc. right. exact Hk.
      - intros kind. apply count_verdicts_ext. intros k Hk. apply Hs1.
        intros ->. auto. }
    simpl AccountService.refresh_loop. unfold bind.
    rewrite (refresh_one_verdict cid cs i st env s a Ha).
    rewrite !count_verdicts_cons. unfold judged. rewrite Ha.
    destruct (verdict env cid cs a) as [td| |] eqn:Hv.
    + set (s1 := {| rows := <[i:=refreshed env td a]> (rows s);
                    committed := committed s;
                    trace := Log INFO "Token refreshed" :: trace s |}).
      destruct (Hrest s1) as [Hc1 Hf1].
      { intros j Hj. simpl. apply list_lookup_insert_ne. auto. }
      destruct (IH (AccountService.bump_success st) s1 Hnd Hc1) as (s' & Hrun & Hcm & Hrows).
      exists s'. rewrite Hrun, !Hf1. split; [|split; [exact Hcm|]].
      * simpl. do 3 f_equal; lia.
      * intros j. rewrite Hrows. simpl.
        destruct (decide (i = j)) as [<-|Hne].
        -- rewrite list_lookup_insert_eq by (eapply lookup_lt_Some; exact Ha).
           rewrite Ha. simpl. rewrite settled_here, Hv, settled_absent by exact Hi.
           reflexivity.
        -- rewrite list_lookup_insert_ne by exact Hne.
           destruct (rows s !! j); simpl; [|reflexivity].
           rewrite settled_other by exact Hne. reflexivity.
    + set (s1 := {| rows := rows s; committed := committed s;
                    trace := Log ERROR "Failed to refresh token" :: trace s |}).
      destruct (Hrest s1) as [Hc1 Hf1]; [reflexivity|].
      destruct (IH (AccountService.bump_failed st) s1 Hnd Hc1) as (s' & Hrun & Hcm & Hrows).
      exists s'. rewrite Hrun, !Hf1. split; [|split; [exact Hcm|]].
      * simpl. do 3 f_equal; lia.
      * intros j. rewrite Hrows. simpl.
        destruct (decide (i = j)) as [<-|Hne].
        -- rewrite Ha. simpl. rewrite settled_here, Hv, settled_absent by exact Hi.
           reflexivity.
        -- destruct (rows s !! j); simpl; [|reflexivity].
           rewrite settled_other by exact Hne. reflexivity.
    + destruct (Hrest s) as [Hc1 Hf1]; [reflexivity|].
      destruct (IH (AccountService.bump_skipped st) s Hnd Hc1) as (s' & Hrun & Hcm & Hrows).
      exists s'. rewrite Hrun. split; [|split; [exact Hcm|]].
      * simpl. do 3 f_equal; lia.
      * intros j. rewrite Hrows.
        destruct (decide (i = j)) as [<-|Hne].
        -- rewrite Ha. simpl. rewrite settled_here, Hv, settled_absent by exact Hi.
           reflexivity.
        -- destruct (rows s !! j); simpl; [|reflexivity].
           rewrite settled_other by exact Hne. reflexivity.
Qed.

(** Property X10.  With a representable horizon (the duration has at most
    999999999 days and the threshold is a date of the years 1 to 9999) and
    a working query and commit, [refresh_all_tokens]
    judges every candidate by its own state before the batch, whatever the
    other candidates do: skipped when its platform does not support refresh
    or its decrypted refresh token is empty, failed when its platform value
    is unknown, decryption raises or the OAuth call raises, success
    otherwise.  The three counts returned are the numbers of candidates of
    each kind, every refreshed candidate is committed with the new
    credentials, every other row is committed unchanged, and the candidates
    are exactly the rows that are due. *)
Theorem refresh_all_tokens_tally env s cid cs h :
  let m := AccountService.refresh_all_tokens cid cs h in
  let candidates :=
    positions (AccountService.due (horizon env h)) (rows s) in
  representable env h ->
  db_fault env Execute = None ->
  db_fault env Commit = None ->
  outcome m env s
    = Ok {| success := count_verdicts is_refreshed env cid cs (rows s) candidates;
            failed := count_verdicts is_failed env cid cs (rows s) candidates;
            skipped := count_verdicts is_skipped env cid cs (rows s) candidates |}
  /\ committed (after m env s) = rows (after m env s)
  /\ (forall i a td,
        i ∈ candidates -> rows s !! i = Some a ->
        verdict env cid cs a = Refreshed td ->
        committed (after m env s) !! i = Some (refreshed env td a))
  /\ (forall i a,
        rows s !! i = Some a ->
        i ∉ candidates \/ is_refreshed (verdict env cid cs a) = false ->
        committed (after m env s) !! i = Some a)
  /\ (forall i,
        i ∈ candidates <->
        exists a, rows s !! i = Some a
                  /\ AccountService.due (horizon env h) a = true).
Proof.
  intros m candidates Hrep Hex Hco.
  destruct (refresh_loop_tally cid cs env candidates
              {| success := 0; failed := 0; skipped := 0 |} s)
    as (s' & Hrun & _ & Hrows).
  { apply positions_NoDup. }
  { intros i Hi. apply positions_elem in Hi as (a & Ha & _). eauto. }
  assert (run m env s =
          (Ok {| success := count_verdicts is_refreshed env cid cs (rows s) candidates;
                 failed := count_verdicts is_failed env cid cs (rows s) candidates;
                 skipped := count_verdicts is_skipped env cid cs (rows s) candidates |},
           {| rows := rows s'; committed := rows s';
              trace := Log INFO "Token refresh batch completed" :: trace s' |}))
    as Hm.
  { subst m. unfold AccountService.refresh_all_tokens. run_unfold.
    rewrite (timedelta_hours_representable env h Hrep).
    rewrite (datetime_add_representable env h Hrep).
    rewrite Hex. run_unfold. fold candidates. rewrite Hrun. run_unfold.
    rewrite Hco. reflexivity. }
  rewrite outcome_run, !after_run, Hm. simpl.
  split; [reflexivity|]. split; [reflexivity|]. split; [|split].
  - intros i a td Hi Ha Hv. rewrite Hrows, Ha. simpl.
    unfold settled. rewrite bool_decide_eq_true_2 by exact Hi. rewrite Hv.
    reflexivity.
  - intros i a Ha [Hi | Hv]; rewrite Hrows, Ha; simpl.
    + rewrite settled_absent by exact Hi. reflexivity.
    + unfold settled. destruct (bool_decide (i ∈ candidates)); [|reflexivity].
      destruct (verdict env cid cs a); [discriminate | reflexivity | reflexivity].
  - intros i. apply positions_elem.
Qed.
(** ** The platform clients *)

Ltac decode_step :=
  match goal with
  | |- context [assoc ?k ?l] =>
      is_var l; destruct (assoc k l) as [[]|] eqn:?; simpl
  | |- context [String.eqb ?a ?b] =>
      destruct (String.eqb_spec a b); simpl
  | |- context [Z.eqb ?a 0] =>
      is_var a; destruct (Z.eqb_spec a 0); simpl
  | |- context [match ?l with [] => _ | _ :: _ => _ end] =>
      is_var l; destruct l as [|[] ?]; simpl
  | |- context [match ?s with EmptyString => _ | String _ _ => _ end] =>
      is_var s; destruct s; simpl
  | |- context [if ?b then _ else _] =>
      is_var b; destruct b; simpl
  end.

Ltac answer_cases :=
  run_unfold; simpl;
  match goal with
  | |- context [transport ?e ?p ?t ?path ?params] =>
      destruct (transport e p t path params) as [[]|?] eqn:?
  end; simpl; repeat decode_step.

Ltac passes_on_auto := intros env s; answer_cases; eauto.

Ltac object_facts :=
  repeat match goal with
         | H : forall v, assoc ?k ?l = Some v -> is_object v,
           E : assoc ?k ?l = Some _ |- _ =>
             destruct (H _ E) as [? ?]; clear H
         | |- forall v, assoc ?k ?l = Some v -> is_object v =>
             let v := fresh in
             let Hv := fresh in
             intros v Hv; unfold is_object;
             try match goal with
                 | E : assoc k l = Some (JObj _) |- _ => rewrite E in Hv
                 | E : assoc k l = None |- _ => rewrite E in Hv
                 end;
             simplify_eq; eauto
         end.

Ltac iff_auto :=
  split; [eexists; reflexivity|];
  split;
  [ let H := fresh in
    intros H;
    first [ discriminate H
          | simplify_eq; do 3 eexists; (split; [|split; [|split]]); eauto;
            object_facts; try congruence ]
  | let H := fresh in
    intros H;
    repeat match goal with
           | H : ex _ |- _ => destruct H
           | H : _ /\ _ |- _ => destruct H
           end;
    simplify_eq; object_facts; simplify_eq; try reflexivity; try congruence ].

(** Property X16.  [TikTokClient.verify_account_ownership] never raises, and
    it returns [True] exactly when the request to [/user/info/] succeeds
    with an object whose [data.user] is an object with [open_id] equal, as a
    string, to the account id; every transport error and every malformed
    answer gives [False]. *)
Theorem tiktok_ownership_exact c account_id env s :
  let answer := transport env (cl_platform c) (cl_token c) "/user/info/"
                  [("fields", TikTokClient.fields)] in
  let m := TikTokClient.verify_account_ownership c account_id in
  (exists b, outcome m env s = Ok b)
  /\ (outcome m env s = Ok true <->
      exists response data user,
        answer = Ok (JObj response)
        /\ assoc "data" response = Some (JObj data)
        /\ assoc "user" data = Some (JObj user)
        /\ assoc "open_id" user = Some (JStr account_id)).
Proof.
  intros answer m. subst answer m.
  unfold TikTokClient.verify_account_ownership, TikTokClient.get_user_profile.
  answer_cases; iff_auto.
Qed.

(** Property X17.  [YouTubeClient.verify_account_ownership] never raises,
    and it returns [True] exactly when the request to [/channels] for the
    own channel succeeds with an object whose [items] is a list whose first
    element is an object with [id] equal, as a string, to the account id and
    whose [snippet], if present, is an object; an empty list, a transport
    error or a malformed answer gives [False]. *)
Theorem youtube_ownership_exact c account_id env s :
  let answer := transport env (cl_platform c) (cl_token c) "/channels"
                  [("part", "snippet,statistics,contentDetails,brandingSettings");
                   ("mine", "true")] in
  let m := YouTubeClient.verify_account_ownership c account_id in
  (exists b, outcome m env s = Ok b)
  /\ (outcome m env s = Ok true <->
      exists response channel others,
        answer = Ok (JObj response)
        /\ assoc "items" response = Some (JArr (JObj channel :: others))
        /\ assoc "id" channel = Some (JStr account_id)
        /\ (forall v, assoc "snippet" channel = Some v -> is_object v)).
Proof.
  intros answer m. subst answer m.
  unfold YouTubeClient.verify_account_ownership, YouTubeClient.get_user_profile.
  answer_cases; iff_auto.
Qed.

Lemma capped (n cap : Z) : Z.min n cap = if cap <? n then cap else n.
Proof. destruct (Z.ltb_spec cap n); lia. Qed.

(** Property X18.  [TikTokClient.get_user_profile] and [get_user_videos] and
    [YouTubeClient.get_user_profile] and [get_channel_by_username] either
    return the answer of the provider to their one request unchanged, or
    raise a [PlatformAPIError] whose message starts with the prefix of the
    method, also when the answer is malformed.  [get_user_videos] asks for
    at most 20 videos and sends no cursor for [None] or 0; the profile
    request of YouTube asks for the own channel when [user_id] is [None] or
    empty; [get_channel_by_username] asks for the handle without leading
    at-signs. *)
Theorem client_reads_pass_on c :
  (forall user_id,
     passes_on "Failed to get user profile: "
       (fun env =>
          transport env (cl_platform c) (cl_token c) "/user/info/"
            [("fields", TikTokClient.fields)])
       (TikTokClient.get_user_profile c user_id))
  /\ (forall max_count cursor,
        passes_on "Failed to get videos: "
          (fun env =>
             transport env (cl_platform c) (cl_token c) "/video/list/"
               ([("fields", TikTokClient.video_fields);
                 ("max_count", str_int (if 20 <? max_count then 20 else max_count))]
                ++ match cursor with
                   | Some n =>
                       if bool_decide (n = 0) then [] else [("cursor", str_int n)]
                   | None => []
                   end)%list)
          (TikTokClient.get_user_videos c max_count cursor))
  /\ (forall user_id,
        passes_on "Failed to get channel profile: "
          (fun env =>
             transport env (cl_platform c) (cl_token c) "/channels"
               [("part", "snippet,statistics,contentDetails,brandingSettings");
                match user_id with
                | Some u => if bool_decide (u = "") then ("mine", "true") else ("id", u)
                | None => ("mine", "true")
                end])
          (YouTubeClient.get_user_profile c user_id))
  /\ (forall username,
        passes_on "Failed to get channel: "
          (fun env =>
             transport env (cl_platform c) (cl_token c) "/channels"
               [("part", "snippet,statistics,contentDetails");
                ("forHandle", lstrip "@" username)])
          (YouTubeClient.get_channel_by_username c username)).
Proof.
  split; [|split; [|split]].
  - intros user_id. unfold TikTokClient.get_user_profile. passes_on_auto.
  - intros max_count cursor. unfold TikTokClient.get_user_videos.
    rewrite capped.
    assert (match cursor with
            | Some n => if n =? 0 then [] else [("cursor", str_int n)]
            | None => []
            end
            = match cursor with
              | Some n => if bool_decide (n = 0) then [] else [("cursor", str_int n)]
              | None => []
              end) as ->.
    { destruct cursor as [n|]; [|reflexivity].
      destruct (Z.eqb_spec n 0).
      - rewrite bool_decide_eq_true_2; auto.
      - rewrite bool_decide_eq_false_2; auto. }
    intros env s. run_unfold.
    match goal with
    | |- context [transport ?e ?p ?t ?path ?params] =>
        destruct (transport e p t path params) as [[]|?] eqn:?
    end; simpl; repeat decode_step; eauto.
  - intros user_id. unfold YouTubeClient.get_user_profile.
    assert ((if truthy_opt user_id
             then [("id", default "" user_id)]
             else [("mine", "true")])
            = [match user_id with
               | Some u => if bool_decide (u = "") then ("mine", "true") else ("id", u)
               | None => ("mine", "true")
               end]) as ->.
    { destruct user_id as [u|]; [|reflexivity]. simpl.
      destruct (String.eqb_spec u "").
      - rewrite bool_decide_eq_true_2; auto.
      - rewrite bool_decide_eq_false_2; auto. }
    intros env s. run_unfold.
    match goal with
    | |- context [transport ?e ?p ?t ?path ?params] =>
        destruct (transport e p t path params) as [[]|?] eqn:?
    end; simpl; repeat decode_step; eauto.
  - intros username. unfold YouTubeClient.get_channel_by_username.
    intros env s. run_unfold.
    match goal with
    | |- context [transport ?e ?p ?t ?path ?params] =>
        destruct (transport e p t path params) as [[]|?] eqn:?
    end; simpl; repeat decode_step; eauto.
Qed.

Lemma take_short (n : nat) (l : list string) :
  Nat.ltb n (length l) = false -> take n l = l.
Proof. intros H. apply Nat.ltb_ge in H. apply take_ge. exact H. Qed.

Lemma take_long (n : nat) (l : list string) :
  Nat.ltb n (length l) = true -> Nat.ltb n (length (take n l)) = false.
Proof.
  intros H. apply Nat.ltb_lt in H. apply Nat.ltb_ge. rewrite length_take. lia.
Qed.

(** Property X19.  [get_video_info] looks at the first 20 (TikTok) or 50
    (YouTube) video ids only: its request carries exactly these ids, its
    outcome is the outcome of the call with the truncated list, and it
    either returns the answer of the provider unchanged or raises a
    [PlatformAPIError] with the prefix of the method. *)
Theorem video_info_uses_first_ids c video_ids :
  passes_on "Failed to get video info: "
    (fun env =>
       transport env (cl_platform c) (cl_token c) "/video/query/"
         (((fun i => ("filters.video_ids", i)) <$> take 20 video_ids)
          ++ [("fields", TikTokClient.video_fields)])%list)
    (TikTokClient.get_video_info c video_ids)
  /\ passes_on "Failed to get video info: "
       (fun env =>
          transport env (cl_platform c) (cl_token c) "/videos"
            [("part", "snippet,statistics,contentDetails");
             ("id", join "," (take 50 video_ids))])
       (YouTubeClient.get_video_info c video_ids)
  /\ (forall env s,
        outcome (TikTokClient.get_video_info c video_ids) env s
        = outcome (TikTokClient.get_video_info c (take 20 video_ids)) env s)
  /\ (forall env s,
        outcome (YouTubeClient.get_video_info c video_ids) env s
        = outcome (YouTubeClient.get_video_info c (take 50 video_ids)) env s).
Proof.
  split; [|split; [|split]].
  - unfold TikTokClient.get_video_info. intros env s.
    destruct (Nat.ltb 20 (length video_ids)) eqn:Hlen.
    + answer_cases; eauto.
    + rewrite (take_short _ _ Hlen). answer_cases; eauto.
  - unfold YouTubeClient.get_video_info. intros env s.
    destruct (Nat.ltb 50 (length video_ids)) eqn:Hlen.
    + answer_cases; eauto.
    + rewrite (take_short _ _ Hlen). answer_cases; eauto.
  - intros env s. destruct (Nat.ltb 20 (length video_ids)) eqn:Hlen.
    + unfold TikTokClient.get_video_info.
      rewrite Hlen, (take_long _ _ Hlen). answer_cases; reflexivity.
    + rewrite (take_short _ _ Hlen). reflexivity.
  - intros env s. destruct (Nat.ltb 50 (length video_ids)) eqn:Hlen.
    + unfold YouTubeClient.get_video_info.
      rewrite Hlen, (take_long _ _ Hlen). answer_cases; reflexivity.
    + rewrite (take_short _ _ Hlen). reflexivity.
Qed.

(** Property X20.  [TikTokClient.get_follower_count] returns the value the
    provider reports under [data.user.follower_count] as it is, and 0 when
    [data] or [user] is absent; a transport error is reported with the
    prefixes of both [get_follower_count] and [get_user_profile], and every
    exception it raises is a [PlatformAPIError] with the prefix of
    [get_follower_count]. *)
Theorem tiktok_follower_count_spec c env s :
  let answer := transport env (cl_platform c) (cl_token c) "/user/info/"
                  [("fields", TikTokClient.fields)] in
  let m := TikTokClient.get_follower_count c in
  (forall e,
     answer = Raise e ->
     outcome m env s
     = Raise (PlatformAPIError
                ("Failed to get follower count: Failed to get user profile: "
                 ++ str_exn e)))
  /\ (forall response data user,
        answer = Ok (JObj response) ->
        assoc "data" response = Some (JObj data) ->
        assoc "user" data = Some (JObj user) ->
        outcome m env s = Ok (default (JNum 0) (assoc "follower_count" user)))
  /\ (forall response,
        answer = Ok (JObj response) ->
        assoc "data" response = None
        \/ (exists data, assoc "data" response = Some (JObj data)
                         /\ assoc "user" data = None) ->
        outcome m env s = Ok (JNum 0))
  /\ (forall e,
        outcome m env s = Raise e ->
        exists cause, e = PlatformAPIError ("Failed to get follower count: " ++ cause)).
Proof.
  intros answer m. subst answer m.
  unfold TikTokClient.get_follower_count, TikTokClient.get_user_profile.
  split; [|split; [|split]].
  - intros e He. run_unfold. rewrite He. reflexivity.
  - intros response data user Hr Hd Hu. run_unfold. rewrite Hr. simpl.
    rewrite Hd. simpl. rewrite Hu. simpl. rewrite Hd. simpl. rewrite Hu. simpl.
    destruct (assoc "follower_count" user); reflexivity.
  - intros response Hr [Hd | (data & Hd & Hu)]; run_unfold; rewrite Hr; simpl.
    + rewrite Hd. simpl. rewrite Hd. reflexivity.
    + rewrite Hd. simpl. rewrite Hu. simpl. rewrite Hd. simpl. rewrite Hu.
      reflexivity.
  - intros e. answer_cases; intros He; simplify_eq; eauto.
Qed.

Lemma lstrip_at_signs n s : lstrip "@" (at_signs n ++ s) = lstrip "@" s.
Proof. induction n as [|n IH]; [reflexivity | exact IH]. Qed.

(** Property X21.  [YouTubeClient.get_channel_by_username] strips every
    leading at-sign, not just one: a handle and the same handle with any
    number of at-signs in front give the same run. *)
Theorem channel_by_username_ignores_at_signs c n username env s :
  run (YouTubeClient.get_channel_by_username c (at_signs n ++ username)) env s
  = run (YouTubeClient.get_channel_by_username c username) env s.
Proof.
  unfold YouTubeClient.get_channel_by_username. lazy zeta.
  rewrite lstrip_at_signs. reflexivity.
Qed.

(** Property X22.  [YouTubeClient.verify_subscription] returns [True]
    exactly for a non-empty [items] list in the answer to [/subscriptions]
    and [False] for an empty or absent one; a [PlatformAPIError] with status
    404 from the transport is turned into [False]; any other exception of
    the transport is re-raised as it is, not wrapped. *)
Theorem youtube_subscription_spec status_code c target_channel_id env s :
  let answer := transport env (cl_platform c) (cl_token c) "/subscriptions"
                  [("part", "snippet"); ("forChannelId", target_channel_id);
                   ("mine", "true")] in
  let m := YouTubeClient.verify_subscription status_code c target_channel_id in
  (forall response items,
     answer = Ok (JObj response) ->
     assoc "items" response = Some (JArr items) ->
     outcome m env s = Ok (bool_decide (items <> [])))
  /\ (forall response,
        answer = Ok (JObj response) ->
        assoc "items" response = None ->
        outcome m env s = Ok false)
  /\ (forall msg,
        answer = Raise (PlatformAPIError msg) ->
        status_code (PlatformAPIError msg) = Some 404 ->
        outcome m env s = Ok false)
  /\ (forall e,
        answer = Raise e ->
        (forall msg, e = PlatformAPIError msg -> status_code e <> Some 404) ->
        outcome m env s = Raise e).
Proof.
  intros answer m. subst answer m. unfold YouTubeClient.verify_subscription.
  split; [|split; [|split]].
  - intros response items Hr Hi. run_unfold. rewrite Hr. simpl. rewrite Hi.
    destruct items; reflexivity.
  - intros response Hr Hi. run_unfold. rewrite Hr. simpl. rewrite Hi.
    reflexivity.
  - intros msg Hr H404. run_unfold. rewrite Hr. simpl.
    unfold YouTubeClient.is_404. rewrite H404. reflexivity.
  - intros e Hr Hno. run_unfold. rewrite Hr. simpl.
    destruct e as [msg|msg|msg]; try reflexivity.
    unfold YouTubeClient.is_404.
    destruct (status_code (PlatformAPIError msg)) as [n|] eqn:Hs; [|reflexivity].
    destruct (Z.eqb_spec n 404) as [->|Hn]; [|reflexivity].
    exfalso. eapply Hno; eauto.
Qed.

Lemma any_id_hit video_id (l : list json) :
  any_id video_id l = Ok true <->
  exists before hit after,
    l = (before ++ JObj hit :: after)%list
    /\ Forall is_object before
    /\ assoc "id" hit = Some (JStr video_id).
Proof.
  split.
  - induction l as [|item l IH]; simpl; [discriminate|].
    destruct item as [| | | |items|fields]; simpl; try discriminate.
    destruct (assoc "id" fields) as [v|] eqn:Hid; simpl.
    + destruct v as [| | |id'| |]; simpl;
        try (intros H; destruct (IH H) as (before & hit & after & -> & Hb & Hh);
             exists (JObj fields :: before), hit, after;
             split; [reflexivity | split; [|exact Hh]];
             constructor; [eexists; reflexivity | exact Hb]).
      destruct (String.eqb_spec id' video_id) as [->|Hne].
      * intros _. exists [], fields, l. split; [reflexivity | split; [constructor | exact Hid]].
      * intros H. destruct (IH H) as (before & hit & after & -> & Hb & Hh).
        exists (JObj fields :: before), hit, after.
        split; [reflexivity | split; [|exact Hh]].
        constructor; [eexists; reflexivity | exact Hb].
    + intros H. destruct (IH H) as (before & hit & after & -> & Hb & Hh).
      exists (JObj fields :: before), hit, after.
      split; [reflexivity | split; [|exact Hh]].
      constructor; [eexists; reflexivity | exact Hb].
  - intros (before & hit & after & -> & Hb & Hh).
    induction Hb as [|item before [fields ->] _ IH]; simpl.
    + rewrite Hh. simpl. rewrite String.eqb_refl. reflexivity.
    + destruct (py_eq_str
                  match assoc "id" fields with Some v => v | None => JNull end
                  video_id); [reflexivity | exact IH].
Qed.

Lemma any_id_strings video_id (l : list string) :
  any_id video_id (JStr <$> l) <> Ok true.
Proof. destruct l; simpl; discriminate. Qed.

Lemma any_id_chars video_id (s : string) :
  any_id video_id (chars s) <> Ok true.
Proof. destruct s; simpl; discriminate. Qed.

(** Property X23.  [YouTubeClient.verify_like] returns [True] exactly when
    the first page of the liked videos of the user is a list containing an
    object with [id] equal to the video id that is preceded by objects only
    (later items are not inspected); a [PlatformAPIError] with status 404 is
    turned into [False]; any other exception of the transport is re-raised
    as it is, not wrapped. *)
Theorem youtube_like_spec status_code c video_id env s :
  let answer := transport env (cl_platform c) (cl_token c) "/videos"
                  [("part", "snippet"); ("myRating", "like");
                   ("maxResults", "50")] in
  let m := YouTubeClient.verify_like status_code c video_id in
  (outcome m env s = Ok true <->
   exists response before hit after,
     answer = Ok (JObj response)
     /\ assoc "items" response = Some (JArr (before ++ JObj hit :: after)%list)
     /\ Forall is_object before
     /\ assoc "id" hit = Some (JStr video_id))
  /\ (forall msg,
        answer = Raise (PlatformAPIError msg) ->
        status_code (PlatformAPIError msg) = Some 404 ->
        outcome m env s = Ok false)
  /\ (forall e,
        answer = Raise e ->
        (forall msg, e = PlatformAPIError msg -> status_code e <> Some 404) ->
        outcome m env s = Raise e).
Proof.
  intros answer m. subst answer m. unfold YouTubeClient.verify_like.
  change (str_int 50) with "50".
  split; [|split].
  - run_unfold.
    destruct (transport env (cl_platform c) (cl_token c) "/videos"
                [("part", "snippet"); ("myRating", "like"); ("maxResults", "50")])
      as [r|e] eqn:Hr.
    2:{ simpl. split.
        - destruct e as [msg|msg|msg]; simpl; try discriminate.
          destruct (YouTubeClient.is_404 status_code (PlatformAPIError msg));
            simpl; discriminate.
        - intros (? & ? & ? & ? & ? & _). discriminate. }
    remember (py_has_key r "nextPageToken") as more eqn:Hmore. clear Hmore.
    destruct r as [| | | | |response]; simpl;
      try (split; [discriminate | intros (? & ? & ? & ? & ? & _); discriminate]).
    destruct (assoc "items" response) as [items|] eqn:Hi; simpl.
    2:{ split; [destruct more; discriminate |].
        intros (? & ? & ? & ? & ? & ? & _). simplify_eq. }
    destruct items as [| | |str|items|fields]; simpl;
      try (split; [discriminate
                  | intros (? & ? & ? & ? & ? & ? & _); simplify_eq]).
    + split; [|intros (? & ? & ? & ? & ? & ? & _); simplify_eq].
      destruct str; simpl; [destruct more|]; discriminate.
    + destruct (any_id video_id items) as [[]|e] eqn:Ha; simpl.
      * split; [intros _ | reflexivity].
        apply any_id_hit in Ha as (before & hit & after & -> & Hb & Hh).
        eauto 10.
      * split; [destruct more; discriminate |].
        intros (? & before & hit & after & ? & ? & Hb & Hh). simplify_eq.
        assert (any_id video_id (before ++ JObj hit :: after)%list = Ok true)
          by (apply any_id_hit; eauto 10).
        congruence.
      * split.
        -- destruct e as [msg|msg|msg]; simpl; try discriminate.
           destruct (YouTubeClient.is_404 status_code (PlatformAPIError msg));
             simpl; discriminate.
        -- intros (? & before & hit & after & ? & ? & Hb & Hh). simplify_eq.
           assert (any_id video_id (before ++ JObj hit :: after)%list = Ok true)
             by (apply any_id_hit; eauto 10).
           congruence.
    + split; [|intros (? & ? & ? & ? & ? & ? & _); simplify_eq].
      destruct fields as [|[k v] fields]; simpl; [destruct more|]; discriminate.
  - intros msg Hr H404. run_unfold. rewrite Hr. simpl.
    unfold YouTubeClient.is_404. rewrite H404. reflexivity.
  - intros e Hr Hno. run_unfold. rewrite Hr. simpl.
    destruct e as [msg|msg|msg]; try reflexivity.
    unfold YouTubeClient.is_404.
    destruct (status_code (PlatformAPIError msg)) as [n|] eqn:Hs; [|reflexivity].
    destruct (Z.eqb_spec n 404) as [->|Hn]; [|reflexivity].
    exfalso. eapply Hno; eauto.
Qed.
(** ** The further properties at concrete inputs *)

Ltac in_singleton H :=
  change (rows twitter_store) with [twitter_link] in H;
  apply list_elem_of_singleton in H; subst.

Lemma refresh_all_tokens_only_credentials_witness :
  length (rows (after (AccountService.refresh_all_tokens "cid" "secret" 24)
                  env_ok twitter_store))
    = length (rows twitter_store)
  /\ forall j a',
       rows (after (AccountService.refresh_all_tokens "cid" "secret" 24)
               env_ok twitter_store) !! j = Some a' ->
       exists a, rows twitter_store !! j = Some a /\ same_but_credentials a a'.
Proof.
  apply (refresh_all_tokens_only_credentials env_ok twitter_store "cid" "secret" 24).
  reflexivity.
Defined.

Lemma verify_account_only_verification_witness :
  length (rows (after (AccountService.verify_account "id-1" "cid" "secret")
                  env_ok twitter_store))
    = length (rows twitter_store)
  /\ forall j a',
       rows (after (AccountService.verify_account "id-1" "cid" "secret")
               env_ok twitter_store) !! j = Some a' ->
       exists a, rows twitter_store !! j = Some a /\ same_but_verification a a'.
Proof.
  apply (verify_account_only_verification env_ok twitter_store "id-1" "cid" "secret").
  reflexivity.
Defined.

Lemma refresh_account_only_profile_witness :
  length (rows (after (AccountService.refresh_account "u1" TWITTER)
                  env_ok twitter_store))
    = length (rows twitter_store)
  /\ forall j a',
       rows (after (AccountService.refresh_account "u1" TWITTER)
               env_ok twitter_store) !! j = Some a' ->
       exists a, rows twitter_store !! j = Some a /\ same_but_profile a a'.
Proof.
  apply (refresh_account_only_profile env_ok twitter_store "u1" TWITTER).
  reflexivity.
Defined.

Lemma errors_leave_database_alone_witness :
  committed (after (AccountService.verify_account "id-1" "cid" "secret")
               env_commit_fails twitter_store) = committed twitter_store
  /\ committed (after (AccountService.unlink_account "id-1" "u1" None None false)
                  env_commit_fails twitter_store) = committed twitter_store
  /\ committed (after (AccountService.disconnect_account "u1" "twitter")
                  env_commit_fails twitter_store) = committed twitter_store
  /\ committed (after (AccountService.refresh_all_tokens "cid" "secret" 24)
                  env_commit_fails twitter_store) = committed twitter_store.
Proof.
  destruct errors_leave_database_alone as (Hverify & Hunlink & Hdisconnect & Hbatch).
  split; [|split; [|split]].
  - apply (Hverify env_commit_fails twitter_store "id-1" "cid" "secret"
             (ValueError "Failed to verify account: connection lost")).
    reflexivity.
  - apply (Hunlink env_commit_fails twitter_store "id-1" "u1" None None false
             (ValueError "Failed to unlink account: connection lost")).
    reflexivity.
  - apply (Hdisconnect env_commit_fails twitter_store "u1" "twitter"
             (ValueError "Failed to disconnect account: connection lost")).
    reflexivity.
  - apply (Hbatch env_commit_fails twitter_store "cid" "secret" 24
             (ValueError "Failed to refresh tokens: connection lost")).
    reflexivity.
Defined.

Lemma get_user_accounts_spec_witness :
  (exists l,
     outcome (AccountService.get_user_accounts "u1" (Some TWITTER) false)
       env_ok batch_store = Ok l
     /\ StronglySorted lt l
     /\ forall i,
          i ∈ l <->
          exists a,
            rows batch_store !! i = Some a
            /\ SocialAccount.user_id a = "u1"
            /\ (forall p, Some TWITTER = Some p -> SocialAccount.platform a = value p)
            /\ (false = true -> SocialAccount.is_verified a = true))
  /\ outcome (AccountService.get_user_accounts "u1" (Some TWITTER) false)
       env_execute_fails batch_store
     = Raise (ValueError "Failed to get user accounts: connection lost").
Proof.
  split.
  - destruct (get_user_accounts_spec env_ok batch_store "u1" (Some TWITTER) false)
      as (_ & _ & H & _).
    apply H. reflexivity.
  - destruct (get_user_accounts_spec env_execute_fails batch_store "u1"
                (Some TWITTER) false) as (_ & _ & _ & H).
    apply (H "connection lost"). reflexivity.
Defined.

Lemma link_account_creates_link_witness :
  outcome (AccountService.link_account "u1" TWITTER "acct_1" "tok1" (Some "ref1")
             (Some 2000) (Some "read") (Some "old_handle") (Some "Old Name"))
    env_ok empty_store = Ok twitter_link
  /\ rows twitter_store = [twitter_link]
  /\ committed twitter_store = [twitter_link]
  /\ SocialAccount.is_verified twitter_link = false
  /\ SocialAccount.refresh_token twitter_link = Some "enc:ref1".
Proof.
  destruct (link_account_creates_link env_ok empty_store "u1" TWITTER "acct_1" "tok1"
              (Some "ref1") (Some 2000) (Some "read") (Some "old_handle")
              (Some "Old Name"))
    as (Hout & Hrows & Hcommitted & Hverified & _ & _ & _ & Hrefresh).
  - intros op. reflexivity.
  - intros e He. inversion He.
  - split; [exact Hout|]. split; [exact Hrows|]. split; [exact Hcommitted|].
    split; [exact Hverified|].
    apply (Hrefresh "ref1"); [reflexivity | discriminate].
Defined.

Lemma link_account_error_after_commit_witness :
  outcome (AccountService.link_account "u1" TWITTER "acct_1" "tok1" (Some "ref1")
             (Some 2000) (Some "read") (Some "old_handle") (Some "Old Name"))
    env_refresh_fails empty_store
  = Raise (ValueError "Failed to link account: stale row")
  /\ committed
       (after (AccountService.link_account "u1" TWITTER "acct_1" "tok1" (Some "ref1")
                 (Some 2000) (Some "read") (Some "old_handle") (Some "Old Name"))
          env_refresh_fails empty_store)
     = [twitter_link].
Proof.
  apply (link_account_error_after_commit env_refresh_fails empty_store "u1" TWITTER
           "acct_1" "tok1" (Some "ref1") (Some 2000) (Some "read")
           (Some "old_handle") (Some "Old Name") "stale row").
  - reflexivity.
  - reflexivity.
  - reflexivity.
  - intros e He. inversion He.
Defined.

Lemma disconnect_account_spec_witness :
  (outcome (AccountService.disconnect_account "u1" "Twitter") env_ok twitter_store
   = Ok twitter_link
   /\ rows (after (AccountService.disconnect_account "u1" "Twitter")
              env_ok twitter_store) = []
   /\ committed (after (AccountService.disconnect_account "u1" "Twitter")
                   env_ok twitter_store) = [])
  /\ (outcome (AccountService.disconnect_account "u2" "Twitter") env_ok twitter_store
      = Raise (ValueError "No Twitter account found for user")
      /\ rows (after (AccountService.disconnect_account "u2" "Twitter")
                 env_ok twitter_store) = rows twitter_store
      /\ committed (after (AccountService.disconnect_account "u2" "Twitter")
                      env_ok twitter_store) = committed twitter_store).
Proof.
  split.
  - destruct (disconnect_account_spec env_ok twitter_store "u1" "Twitter") as [H _].
    apply (H 0%nat twitter_link).
    + intros op. reflexivity.
    + reflexivity.
    + reflexivity.
    + reflexivity.
    + intros j b Hj. lia.
  - destruct (disconnect_account_spec env_ok twitter_store "u2" "Twitter") as [_ H].
    apply H.
    + reflexivity.
    + intros a Ha [Hu _]. in_singleton Ha. simpl in Hu. discriminate Hu.
Defined.

Lemma disconnect_undoes_link_witness :
  outcome (AccountService.disconnect_account "u1" (value TWITTER)) env_ok twitter_store
  = Ok twitter_link
  /\ rows (after (AccountService.disconnect_account "u1" (value TWITTER))
             env_ok twitter_store) = rows empty_store
  /\ committed (after (AccountService.disconnect_account "u1" (value TWITTER))
                  env_ok twitter_store) = committed empty_store.
Proof.
  apply (disconnect_undoes_link env_ok env_ok empty_store "u1" TWITTER "acct_1" "tok1"
           (Some "ref1") (Some 2000) (Some "read") (Some "old_handle")
           (Some "Old Name")).
  - intros op. reflexivity.
  - intros op. reflexivity.
  - reflexivity.
  - intros e He. inversion He.
  - intros e He. inversion He.
Defined.

Lemma missing_link_errors_witness :
  run (AccountService.verify_account "id-9" "cid" "secret") env_ok twitter_store
  = (Raise (ValueError "Account id-9 not found"),
     {| rows := rows twitter_store; committed := committed twitter_store;
        trace := Log ERROR "Account not found for verification"
                 :: trace twitter_store |})
  /\ run (AccountService.unlink_account "id-9" "u1" None None true) env_ok twitter_store
     = (Raise (ValueError "Account id-9 not found"),
        {| rows := rows twitter_store; committed := committed twitter_store;
           trace := Log ERROR "Account not found for unlinking"
                    :: trace twitter_store |})
  /\ run (AccountService.refresh_account "u1" YOUTUBE) env_ok twitter_store
     = (Raise (ValueError "No youtube account found for user"),
        {| rows := rows twitter_store; committed := committed twitter_store;
           trace := Log ERROR "Account not found for refresh"
                    :: Log INFO "Retrieved user accounts" :: trace twitter_store |}).
Proof.
  destruct (missing_link_errors env_ok twitter_store) as (Hverify & Hunlink & Hrefresh);
    [reflexivity|].
  split; [|split].
  - apply (Hverify "id-9" "cid" "secret").
    intros a Ha Hid. in_singleton Ha. simpl in Hid. discriminate Hid.
  - apply (Hunlink "id-9" "u1" None None true).
    intros a Ha Hid. in_singleton Ha. simpl in Hid. discriminate Hid.
  - apply (Hrefresh "u1" YOUTUBE).
    intros a Ha [_ Hp]. in_singleton Ha. simpl in Hp. discriminate Hp.
Defined.

Lemma refresh_account_overlays_profile_witness :
  outcome (AccountService.refresh_account "u1" TWITTER) env_ok twitter_store
  = Ok twitter_link_neo
  /\ rows (after (AccountService.refresh_account "u1" TWITTER) env_ok twitter_store)
     = [twitter_link_neo]
  /\ committed (after (AccountService.refresh_account "u1" TWITTER) env_ok twitter_store)
     = [twitter_link_neo].
Proof.
  apply (refresh_account_overlays_profile env_ok twitter_store "u1" TWITTER 0%nat []
           twitter_link "tok1" [("username", JStr "neo")] (Some "neo")
           (Some "Old Name")); reflexivity.
Defined.

Lemma refresh_all_tokens_tally_witness :
  outcome (AccountService.refresh_all_tokens "cid" "secret" 24) env_batch batch_store
  = Ok {| success := 1; failed := 1; skipped := 0 |}
  /\ committed (after (AccountService.refresh_all_tokens "cid" "secret" 24)
                  env_batch batch_store)
     = rows (after (AccountService.refresh_all_tokens "cid" "secret" 24)
               env_batch batch_store).
Proof.
  destruct (refresh_all_tokens_tally env_batch batch_store "cid" "secret" 24)
    as (Hout & Hcommitted & _); [representable_now | reflexivity | reflexivity|].
  split; [exact Hout | exact Hcommitted].
Defined.

Lemma verify_account_client_balance_witness :
  clients_balanced twitter_store
    (after (AccountService.verify_account "id-1" "cid" "secret") env_ok twitter_store)
  /\ client_leaked twitter_store
       (after (AccountService.verify_account "id-1" "cid" "secret")
          env_commit_fails twitter_store).
Proof.
  split.
  - apply (verify_account_client_balance env_ok twitter_store "id-1" "cid" "secret"
             0%nat twitter_link TWITTER "tok1"); reflexivity.
  - apply (verify_account_client_balance env_commit_fails twitter_store "id-1" "cid"
             "secret" 0%nat twitter_link TWITTER "tok1"); reflexivity.
Defined.

Lemma refresh_account_keeps_or_fills_witness :
  exists a, rows twitter_store !! 0%nat = Some a /\ profile_kept a twitter_link_neo.
Proof.
  apply (refresh_account_keeps_or_fills env_ok twitter_store "u1" TWITTER 0%nat
           twitter_link_neo); reflexivity.
Defined.

Lemma tiktok_ownership_exact_witness :
  outcome (TikTokClient.verify_account_ownership tiktok_client "tt_1")
    env_tiktok empty_store = Ok true.
Proof.
  destruct (tiktok_ownership_exact tiktok_client "tt_1" env_tiktok empty_store)
    as [_ [_ H]].
  apply H.
  exists [("data", JObj [("user", JObj [("open_id", JStr "tt_1");
                                        ("display_name", JStr "New Name")])]);
          ("error", JObj [("code", JStr "ok")])],
         [("user", JObj [("open_id", JStr "tt_1"); ("display_name", JStr "New Name")])],
         [("open_id", JStr "tt_1"); ("display_name", JStr "New Name")].
  repeat split; reflexivity.
Defined.

Lemma youtube_ownership_exact_witness :
  outcome (YouTubeClient.verify_account_ownership youtube_client "UC_1")
    env_youtube empty_store = Ok true.
Proof.
  destruct (youtube_ownership_exact youtube_client "UC_1" env_youtube empty_store)
    as [_ [_ H]].
  apply H.
  exists [("items", JArr [JObj [("id", JStr "UC_1");
                                ("snippet", JObj [("title", JStr "Channel")])]])],
         [("id", JStr "UC_1"); ("snippet", JObj [("title", JStr "Channel")])],
         [].
  split; [reflexivity|]. split; [reflexivity|]. split; [reflexivity|].
  intros v Hv. exists [("title", JStr "Channel")]. vm_compute in Hv. congruence.
Defined.

Lemma tiktok_follower_count_spec_witness :
  outcome (TikTokClient.get_follower_count tiktok_client) env_tiktok empty_store
  = Ok (JNum 0)
  /\ outcome (TikTokClient.get_follower_count tiktok_client) env_provider_down empty_store
     = Raise (PlatformAPIError
                "Failed to get follower count: Failed to get user profile: HTTP error").
Proof.
  split.
  - destruct (tiktok_follower_count_spec tiktok_client env_tiktok empty_store)
      as (_ & H & _).
    apply (H [("data", JObj [("user", JObj [("open_id", JStr "tt_1");
                                            ("display_name", JStr "New Name")])]);
              ("error", JObj [("code", JStr "ok")])]
             [("user", JObj [("open_id", JStr "tt_1");
                             ("display_name", JStr "New Name")])]
             [("open_id", JStr "tt_1"); ("display_name", JStr "New Name")]);
      reflexivity.
  - destruct (tiktok_follower_count_spec tiktok_client env_provider_down empty_store)
      as (H & _).
    apply (H (PlatformAPIError "HTTP error")). reflexivity.
Defined.

Lemma youtube_subscription_spec_witness :
  outcome (YouTubeClient.verify_subscription status_not_found youtube_client "UC_2")
    env_provider_down empty_store = Ok false
  /\ outcome (YouTubeClient.verify_subscription status_unavailable youtube_client "UC_2")
       env_provider_down empty_store = Raise (PlatformAPIError "HTTP error")
  /\ outcome (YouTubeClient.verify_subscription status_unavailable youtube_client "UC_2")
       env_youtube empty_store = Ok true.
Proof.
  split; [|split].
  - destruct (youtube_subscription_spec status_not_found youtube_client "UC_2"
                env_provider_down empty_store) as (_ & _ & H & _).
    apply (H "HTTP error"); reflexivity.
  - destruct (youtube_subscription_spec status_unavailable youtube_client "UC_2"
                env_provider_down empty_store) as (_ & _ & _ & H).
    apply (H (PlatformAPIError "HTTP error")); [reflexivity|].
    intros msg _. discriminate.
  - destruct (youtube_subscription_spec status_unavailable youtube_client "UC_2"
                env_youtube empty_store) as (H & _).
    apply (H [("items", JArr [JObj [("id", JStr "UC_1");
                                    ("snippet", JObj [("title", JStr "Channel")])]])]
             [JObj [("id", JStr "UC_1");
                    ("snippet", JObj [("title", JStr "Channel")])]]);
      reflexivity.
Defined.

Lemma youtube_like_spec_witness :
  outcome (YouTubeClient.verify_like status_unavailable youtube_client "v2")
    env_liked empty_store = Ok true
  /\ outcome (YouTubeClient.verify_like status_not_found youtube_client "v2")
       env_provider_down empty_store = Ok false.
Proof.
  split.
  - destruct (youtube_like_spec status_unavailable youtube_client "v2"
                env_liked empty_store) as ((_ & H) & _).
    apply H.
    exists [("items", JArr [JObj [("id", JStr "v1")]; JObj [("id", JStr "v2")]])],
           [JObj [("id", JStr "v1")]], [("id", JStr "v2")], [].
    split; [reflexivity|]. split; [reflexivity|]. split; [|reflexivity].
    constructor; [|constructor]. exists [("id", JStr "v1")]. reflexivity.
  - destruct (youtube_like_spec status_not_found youtube_client "v2"
                env_provider_down empty_store) as (_ & H & _).
    apply (H "HTTP error"); reflexivity.
Defined.
